(** * LoopAudioTool: zero-cross trimming, mono downmix and PCM16/WAV writer

    A shallow embedding of [src/main.js].

    - JavaScript numbers are IEEE-754 binary64 values; they are modelled
      with the standard library's [spec_float] and the operations of
      [SpecFloat] at precision 53 / emax 1024.
    - Elements of a [Float32Array] are binary32 values ([spec_float] at
      precision 24 / emax 128): a read widens to binary64, a store rounds
      to nearest-even.
    - Sample indices, lengths and byte values are integers far below
      2^53 and are modelled in [Z].  The zero-cross scan keeps its best
      distance as an exact integer; the engine holds it as a binary64
      Number, which gives the same index for targets and lengths below
      2^52 ([findNearestZeroCross_f64_exact]) and can differ beyond
      ([findNearestZeroCross_f64_far_target]).
    - Typed arrays are lists; the [DataView] over the output buffer is a
      list of bytes updated by index. *)

From Stdlib Require Import ZArith List Bool Lia Ascii String DecimalString.
From Stdlib Require Import Floats.SpecFloat.
From stdpp Require Import base list.

Open Scope Z_scope.

(* ================================================================= *)
(** ** Numbers *)

(** A JavaScript Number (binary64). *)
Definition number := spec_float.
(** An element of a Float32Array (binary32). *)
Definition float32 := spec_float.

Definition prec64 : Z := 53.
Definition emax64 : Z := 1024.
Definition prec32 : Z := 24.
Definition emax32 : Z := 128.

(** Reading a Float32Array element yields the same value as a Number. *)
Definition widen (x : float32) : number :=
  match x with
  | S754_finite s m e => binary_round prec64 emax64 s m e
  | _ => x
  end.

(** Storing a Number into a Float32Array rounds it to binary32. *)
Definition fround (x : number) : float32 :=
  match x with
  | S754_finite s m e => binary_round prec32 emax32 s m e
  | _ => x
  end.

(** An integer literal or integer-valued variable used as a Number. *)
Definition num_of_Z (z : Z) : number := binary_normalize prec64 emax64 z 0 false.

Definition num_zero : number := S754_zero false.
Definition num_one : number := num_of_Z 1.
Definition num_neg_one : number := num_of_Z (-1).

Definition num_mul : number -> number -> number := SFmul prec64 emax64.
Definition num_div : number -> number -> number := SFdiv prec64 emax64.
Definition num_add : number -> number -> number := SFadd prec64 emax64.

(** [a === b], [a < b] and [a > b] on Numbers (all false on NaN). *)
Definition num_eq (a b : number) : bool := SFeqb a b.
Definition num_lt (a b : number) : bool := SFltb a b.
Definition num_gt (a b : number) : bool := SFltb b a.

Definition is_nan (x : number) : bool :=
  match x with S754_nan => true | _ => false end.

(** [Math.min(a, b)]: NaN if either is NaN, and -0 is below +0. *)
Definition Math_min (a b : number) : number :=
  if is_nan a || is_nan b then S754_nan
  else if num_lt a b then a
  else if num_lt b a then b
  else match a with S754_zero true => a | _ => b end.

(** [Math.max(a, b)]: NaN if either is NaN, and +0 is above -0. *)
Definition Math_max (a b : number) : number :=
  if is_nan a || is_nan b then S754_nan
  else if num_lt b a then a
  else if num_lt a b then b
  else match a with S754_zero false => a | _ => b end.

(** A binary32 value as the Float32Array holds it. *)
Definition is_float32 (x : float32) : bool := valid_binary prec32 emax32 x.

(* ================================================================= *)
(** ** Typed arrays *)

Definition Float32Array := list float32.

(** [a[i]] for an integer index: [None] stands for [undefined]
    (index out of range). *)
Definition ta_get {A} (a : list A) (i : Z) : option A :=
  if i <? 0 then None else a !! Z.to_nat i.

(** [a[i]] read as a Number; [undefined] takes part in comparisons and
    arithmetic as NaN does. *)
Definition sample_at (samples : Float32Array) (i : Z) : number :=
  match ta_get samples i with
  | Some x => widen x
  | None => S754_nan
  end.

(** The indices visited by [for (let i = start; i <= end; i++)]. *)
Definition for_range (start end_ : Z) : list Z :=
  map (fun k => start + Z.of_nat k) (seq 0 (Z.to_nat (end_ - start + 1))).

(* ================================================================= *)
(** ** findNearestZeroCross (main.js, lines 9-33) *)

(** The test of line 23 on the pair [s1 = samples[i]], [s2 = samples[i+1]]. *)
Definition isZeroCross (s1 s2 : number) : bool :=
  num_eq s1 num_zero || num_eq s2 num_zero
  || (num_gt s1 num_zero && num_lt s2 num_zero)
  || (num_lt s1 num_zero && num_gt s2 num_zero).

Definition crossingAt (samples : Float32Array) (i : Z) : bool :=
  isZeroCross (sample_at samples i) (sample_at samples (i + 1)).

(** Loop state: [bestIndex] and [bestDist], where [None] is [Infinity]. *)
Definition scan_state : Type := Z * option Z.

Definition dist_lt (d : Z) (best : option Z) : bool :=
  match best with
  | None => true
  | Some b => d <? b
  end.

(** One iteration of the loop body (lines 20-30). *)
Definition scan_step (samples : Float32Array) (targetIndex : Z)
    (st : scan_state) (i : Z) : scan_state :=
  if crossingAt samples i then
    let idx := i in
    let dist := Z.abs (idx - targetIndex) in
    if dist_lt dist (snd st) then (idx, Some dist) else st
  else st.

Definition findNearestZeroCross (samples : Float32Array)
    (targetIndex searchRadius : Z) : Z :=
  let n := Z.of_nat (length samples) in
  if n <? 2 then targetIndex
  else
    let start := Z.max 0 (targetIndex - searchRadius) in
    let end_ := Z.min (n - 2) (targetIndex + searchRadius) in
    fst (fold_left (scan_step samples targetIndex) (for_range start end_)
           (targetIndex, None)).

(** The scan window of the spec: pair indices [lo..hi]. *)
Definition window_lo (targetIndex searchRadius : Z) : Z :=
  Z.max 0 (targetIndex - searchRadius).
Definition window_hi (samples : Float32Array) (targetIndex searchRadius : Z) : Z :=
  Z.min (Z.of_nat (length samples) - 2) (targetIndex + searchRadius).
Definition in_window (samples : Float32Array) (targetIndex searchRadius i : Z) : Prop :=
  window_lo targetIndex searchRadius <= i <= window_hi samples targetIndex searchRadius.

(** Invariant of the scan loop.  After the indices [start .. start+cnt-1]
    have been visited in ascending order, the state is still the initial
    one and no visited index is a crossing, or it holds the first visited
    crossing among those nearest to the target. *)
Definition scan_inv (samples : Float32Array) (t : Z)
    (start : Z) (cnt : nat) (st : scan_state) : Prop :=
  (st = (t, None) /\
   forall i, start <= i < start + Z.of_nat cnt -> crossingAt samples i = false)
  \/
  (exists k, st = (k, Some (Z.abs (k - t))) /\
     start <= k < start + Z.of_nat cnt /\
     crossingAt samples k = true /\
     forall i, start <= i < start + Z.of_nat cnt -> crossingAt samples i = true ->
       Z.abs (k - t) <= Z.abs (i - t) /\ (Z.abs (i - t) = Z.abs (k - t) -> k <= i)).

(** binary32 sample values used in examples. *)
Definition f32_zero : float32 := S754_zero false.
Definition f32_one : float32 := S754_finite false 8388608 (-23).
Definition f32_neg_one : float32 := S754_finite true 8388608 (-23).

(* ================================================================= *)
(** ** Exceptions *)

Inductive js_error : Type :=
| RangeError (message : string)
| DecodeError (message : string)    (* rejection of decodeAudioData *)
| Error (message : string).         (* [throw new Error(message)] *)

Definition error_message (e : js_error) : string :=
  match e with
  | RangeError m => m
  | DecodeError m => m
  | Error m => m
  end.

(** The completion of a call: a value, or a thrown exception. *)
Inductive completion (A : Type) : Type :=
| Normal (a : A)
| Throw (e : js_error).
Arguments Normal {A} a.
Arguments Throw {A} e.

(** Sequencing: the first exception thrown ends the computation. *)
Global Instance completion_ret : MRet completion := @Normal.
Global Instance completion_bind : MBind completion :=
  fun A B (k : A -> completion B) (c : completion A) =>
    match c with
    | Normal a => k a
    | Throw e => Throw e
    end.

(* ================================================================= *)
(** ** extractMonoSamples (main.js, lines 36-53) *)

(** A decoded AudioBuffer: every channel has the same number of frames. *)
Record AudioBuffer : Type := {
  sampleRate : Z;
  channels : list Float32Array
}.

Definition numberOfChannels (buffer : AudioBuffer) : Z :=
  Z.of_nat (length (channels buffer)).

Definition getChannelData (buffer : AudioBuffer) (ch : nat) : Float32Array :=
  default [] (channels buffer !! ch).

(** [buffer.length]: the number of frames. *)
Definition buffer_length (buffer : AudioBuffer) : Z :=
  Z.of_nat (length (getChannelData buffer 0)).

(** Relative index of [TypedArray.prototype.subarray]: a negative index
    counts from the end, and the result is clamped to [0, len]. *)
Definition rel_index (len i : Z) : Z :=
  if i <? 0 then Z.max (len + i) 0 else Z.min i len.

Definition subarray {A} (a : list A) (begin end_ : Z) : list A :=
  let len := Z.of_nat (length a) in
  let b := rel_index len begin in
  let e := rel_index len end_ in
  let newLength := Z.max (e - b) 0 in
  take (Z.to_nat newLength) (drop (Z.to_nat b) a).

(** [new Float32Array(length)]: zero-filled; RangeError on a negative
    length, with the message of V8, which names the length.  The engine
    also raises a RangeError for a length above what it can allocate;
    such lengths are outside this model, and the statements below about
    an allocation bound the requested length by the length of an array
    that exists. *)
Definition new_Float32Array (len : Z) : completion Float32Array :=
  if len <? 0
  then Throw (RangeError ("Invalid typed array length: "
                          ++ NilZero.string_of_int (Z.to_int len)))
  else Normal (replicate (Z.to_nat len) (S754_zero false)).

(** [target.set(source)]: copies [source] to the front of [target];
    RangeError when it does not fit. *)
Definition ta_set {A} (target source : list A) : completion (list A) :=
  if (length target <? length source)%nat
  then Throw (RangeError "offset is out of bounds")
  else Normal (source ++ drop (length source) target).

(** The inner loop (lines 47-49) for one channel:
    [mono[i] += data[i] / numChannels] for every [i < length]. *)
Definition accumulate_channel (numChannels : Z) (mono data : Float32Array) : Float32Array :=
  imap (fun i m =>
          fround (num_add (widen m)
                    (num_div (sample_at data (Z.of_nat i)) (num_of_Z numChannels))))
       mono.

Definition extractMonoSamples (buffer : AudioBuffer) (startSample endSample : Z)
    : completion Float32Array :=
  let numChannels := numberOfChannels buffer in
  let length := endSample - startSample in
  mono ← new_Float32Array length;
  if numChannels =? 1 then
    let ch := subarray (getChannelData buffer 0) startSample endSample in
    ta_set mono ch
  else
    Normal (fold_left
              (fun mono chdata =>
                 accumulate_channel numChannels mono
                   (subarray chdata startSample endSample))
              (channels buffer) mono).

(* ================================================================= *)
(** ** PCM16 quantization (main.js, lines 58-62 and 118-122) *)

(** Integer part of a Number, rounding toward zero; 0 for NaN and the
    infinities (the first steps of the ToInt16 conversion). *)
Definition trunc_to_Z (x : number) : Z :=
  match x with
  | S754_finite s m e =>
      let a := if 0 <=? e then Zpos m * 2 ^ e else Zpos m / 2 ^ (- e) in
      if s then - a else a
  | _ => 0
  end.

(** Storing a Number into an Int16Array: truncate, then wrap modulo 2^16
    into [-32768, 32767]. *)
Definition ToInt16 (x : number) : Z :=
  (trunc_to_Z x + 32768) mod 65536 - 32768.

(** Line 60: [Math.max(-1, Math.min(1, samples[i]))]. *)
Definition clamp_unit (x : number) : number :=
  Math_max num_neg_one (Math_min num_one x).

(** Line 61, before the store: [s < 0 ? s * 0x8000 : s * 0x7fff]. *)
Definition scale_sample (s : number) : number :=
  if num_lt s num_zero then num_mul s (num_of_Z 32768) else num_mul s (num_of_Z 32767).

(** The value stored in [pcm16[i]]. *)
Definition quantize (x : float32) : Z :=
  ToInt16 (scale_sample (clamp_unit (widen x))).

Definition to_pcm16 (samples : Float32Array) : list Z := map quantize samples.

(* ================================================================= *)
(** ** monoFloatToWavBlob (main.js, lines 56-96) *)

Record Blob : Type := {
  blob_bytes : list Z;
  blob_type : string
}.

(** Little-endian byte sequences of the DataView setters. *)
Definition u8 (v : Z) : list Z := [v mod 256].
Definition u16le (v : Z) : list Z := [v mod 256; (v / 256) mod 256].
Definition u32le (v : Z) : list Z :=
  [v mod 256; (v / 256) mod 256; (v / 65536) mod 256; (v / 16777216) mod 256].

(** A DataView write of the bytes [bs] at byte offset [off]; RangeError
    outside the buffer. *)
Definition dv_write (view : list Z) (off : Z) (bs : list Z) : completion (list Z) :=
  if (off <? 0) || (Z.of_nat (length view) <? off + Z.of_nat (length bs))
  then Throw (RangeError "Offset is outside the bounds of the DataView")
  else Normal (list_inserts (Z.to_nat off) bs view).

Definition setUint8 (view : list Z) (off v : Z) := dv_write view off (u8 v).
Definition setUint16 (view : list Z) (off v : Z) := dv_write view off (u16le v).
Definition setUint32 (view : list Z) (off v : Z) := dv_write view off (u32le v).
Definition setInt16 (view : list Z) (off v : Z) := dv_write view off (u16le v).

Definition charCodes (str : string) : list Z :=
  map (fun a => Z.of_N (Ascii.N_of_ascii a)) (list_ascii_of_string str).

(** [writeString(off, str)] (lines 70-74). *)
Fixpoint writeString_from (view : list Z) (off : Z) (codes : list Z) (i : Z)
    : completion (list Z) :=
  match codes with
  | [] => Normal view
  | c :: rest =>
      view' ← setUint8 view (off + i) c;
      writeString_from view' off rest (i + 1)
  end.

Definition writeString (view : list Z) (off : Z) (str : string) : completion (list Z) :=
  writeString_from view off (charCodes str) 0.

(** The sample loop (lines 91-93), from byte offset [offset]. *)
Fixpoint write_samples (view : list Z) (offset : Z) (pcm16 : list Z)
    : completion (list Z) :=
  match pcm16 with
  | [] => Normal view
  | q :: rest =>
      view' ← setInt16 view offset q;
      write_samples view' (offset + 2) rest
  end.

Definition monoFloatToWavBlob (samples : Float32Array) (sampleRate : Z)
    : completion Blob :=
  let pcm16 := to_pcm16 samples in
  let pcm16_length := Z.of_nat (length pcm16) in
  let byteRate := sampleRate * 2 in
  let blockAlign := 2 in
  let bufferLength := 44 + pcm16_length * 2 in
  let view := replicate (Z.to_nat bufferLength) 0 in
  let offset := 0 in
  view ← writeString view offset "RIFF"; let offset := offset + 4 in
  view ← setUint32 view offset (36 + pcm16_length * 2); let offset := offset + 4 in
  view ← writeString view offset "WAVE"; let offset := offset + 4 in
  view ← writeString view offset "fmt "; let offset := offset + 4 in
  view ← setUint32 view offset 16; let offset := offset + 4 in
  view ← setUint16 view offset 1; let offset := offset + 2 in
  view ← setUint16 view offset 1; let offset := offset + 2 in
  view ← setUint32 view offset sampleRate; let offset := offset + 4 in
  view ← setUint32 view offset byteRate; let offset := offset + 4 in
  view ← setUint16 view offset blockAlign; let offset := offset + 2 in
  view ← setUint16 view offset 16; let offset := offset + 2 in
  view ← writeString view offset "data"; let offset := offset + 4 in
  view ← setUint32 view offset (pcm16_length * 2); let offset := offset + 4 in
  view ← write_samples view offset pcm16;
  Normal {| blob_bytes := view; blob_type := "audio/wav" |}.

(** The byte stream the container format prescribes for a mono PCM16
    signal, field by field. *)
Definition wav_layout (sampleRate : Z) (pcm16 : list Z) : list Z :=
  let k := Z.of_nat (length pcm16) in
  charCodes "RIFF" ++ u32le (36 + 2 * k) ++ charCodes "WAVE"
  ++ charCodes "fmt " ++ u32le 16 ++ u16le 1 ++ u16le 1
  ++ u32le sampleRate ++ u32le (sampleRate * 2) ++ u16le 2 ++ u16le 16
  ++ charCodes "data" ++ u32le (2 * k)
  ++ flat_map u16le pcm16.

(** Reading a little-endian field back. *)
Fixpoint le_decode (bs : list Z) : Z :=
  match bs with
  | [] => 0
  | b :: rest => b + 256 * le_decode rest
  end.

(** Reading a signed 16-bit little-endian sample back. *)
Definition i16_decode (bs : list Z) : Z :=
  let u := le_decode bs in if u <? 32768 then u else u - 65536.

(* ================================================================= *)
(** ** The page: log, downloads and the external services *)

Record File : Type := {
  file_name : string;
  file_bytes : list Z
}.

(** The batch-wide parameters handed to [processSingleFile].
    [searchRadius] is the result of [parseInt]; [None] is NaN. *)
Record Params : Type := {
  startSec : number;
  endSec : number;
  searchRadius : option Z;
  outFormat : string;
  oggQuality : Z
}.

(** One line appended by [log(msg)]; each constructor is one message
    template of main.js and carries exactly the values interpolated
    into it. *)
Inductive LogLine : Type :=
| LogStart (name : string)
    (* line 137: --- 処理開始: ${file.name} --- *)
| LogRangeError (name : string)
    (* line 158: [エラー] ${file.name}: ゼロクロス調整後に終点が始点より前になりました。 *)
| LogRequested (startSec endSec : number)
    (* line 165: 指定範囲: ${startSec.toFixed(3)}s - ${endSec.toFixed(3)}s *)
| LogAdjusted (adjStartSec adjEndSec : number)
    (* line 166: 調整後: ${adjStartSec.toFixed(3)}s - ${adjEndSec.toFixed(3)}s *)
| LogSamples (startIdx endIdx len : option Z)
    (* line 167: サンプル: start=${startIdx}, end=${endIdx}, length=${endIdx - startIdx} *)
| LogOggQuality (q : Z)
    (* line 173: Ogg 品質: q=${oggQuality} *)
| LogMp3Encoding
    (* line 178: MP3 エンコード中 (lamejs, 128kbps)... *)
| LogUnsupported (outFormat : string)
    (* line 181: [エラー] 未対応のフォーマット: ${outFormat} *)
| LogDone (download : string)
    (* line 193: 出力完了: ${a.download} *)
| LogNoFiles
    (* line 215: 入力ファイルを1つ以上選択してください。 *)
| LogBadTimes
    (* line 219: 終了秒は開始秒より大きくしてください。 *)
| LogFileCount (n : Z)
    (* line 225: ファイル数: ${files.length} *)
| LogSettings (startSec endSec : number) (searchRadius : option Z) (outFormat : string)
    (* line 226: 共通設定: 開始=..., 終了=..., 探索範囲=... samples, 出力=... *)
| LogCaught (name : string) (text : string)
    (* line 235: [エラー] ${file.name}: ${e && e.message ? e.message : e} *)
| LogAllDone.
    (* line 239: --- 全ファイル処理完了 --- *)

(** What the page shows and has handed to the browser: the log element's
    lines and the downloads triggered by [a.click()], oldest first. *)
Record World : Type := {
  log_lines : list LogLine;
  downloads : list (string * Blob)
}.

Definition log (w : World) (msg : LogLine) : World :=
  {| log_lines := log_lines w ++ [msg]; downloads := downloads w |}.

Definition click_download (w : World) (name : string) (blob : Blob) : World :=
  {| log_lines := log_lines w; downloads := downloads w ++ [(name, blob)] |}.

(** Line 198: the log element is emptied. *)
Definition clear_log (w : World) : World :=
  {| log_lines := []; downloads := downloads w |}.

(** [Math.floor] of a finite non-zero Number, as an integer. *)
Definition floor_finite (s : bool) (m : positive) (e : Z) : Z :=
  let z := if s then Zneg m else Zpos m in
  if 0 <=? e then z * 2 ^ e else z / 2 ^ (- e).

(** Lines 144-151: [Math.max(0, Math.min(len - 1, Math.floor(x)))].
    [None] is NaN. *)
Definition rawIndex (len : Z) (x : number) : option Z :=
  match x with
  | S754_nan => None
  | S754_infinity false => Some (Z.max 0 (len - 1))
  | S754_infinity true => Some 0
  | S754_zero _ => Some (Z.max 0 (Z.min (len - 1) 0))
  | S754_finite s m e => Some (Z.max 0 (Z.min (len - 1) (floor_finite s m e)))
  end.

(** Sample indices inside [processSingleFile] are Numbers that hold an
    integer or NaN ([None]). *)
Definition int_leb (a b : option Z) : bool :=
  match a, b with
  | Some a, Some b => a <=? b
  | _, _ => false
  end.

Definition int_sub (a b : option Z) : option Z :=
  match a, b with
  | Some a, Some b => Some (a - b)
  | _, _ => None
  end.

Definition int_to_num (a : option Z) : number :=
  match a with
  | Some a => num_of_Z a
  | None => S754_nan
  end.

(** [findNearestZeroCross] on such arguments.  A NaN target comes back
    on every path; with a NaN radius both window bounds are NaN, the loop
    test [i <= end] fails at once, and the target comes back. *)
Definition findNearestZeroCross_num (samples : Float32Array)
    (targetIndex searchRadius : option Z) : option Z :=
  match targetIndex, searchRadius with
  | Some t, Some r => Some (findNearestZeroCross samples t r)
  | _, _ => targetIndex
  end.

(** [extractMonoSamples] on such arguments.  With a NaN bound the length
    is NaN, [new Float32Array(NaN)] is empty and the accumulation loop
    does not run; [subarray] reads a NaN bound as 0. *)
Definition extractMonoSamples_num (buffer : AudioBuffer)
    (startSample endSample : option Z) : completion Float32Array :=
  match startSample, endSample with
  | Some s, Some e => extractMonoSamples buffer s e
  | _, _ =>
      if numberOfChannels buffer =? 1 then
        ta_set [] (subarray (getChannelData buffer 0)
                     (default 0 startSample) (default 0 endSample))
      else Normal []
  end.

(** The zero-cross-adjusted indices of lines 143-155. *)
Definition adjusted_indices (buffer : AudioBuffer) (params : Params)
    : option Z * option Z :=
  let sr := num_of_Z (sampleRate buffer) in
  let rawStart := rawIndex (buffer_length buffer) (num_mul (startSec params) sr) in
  let rawEnd := rawIndex (buffer_length buffer) (num_mul (endSec params) sr) in
  let samplesCh0 := getChannelData buffer 0 in
  let startIdx := findNearestZeroCross_num samplesCh0 rawStart (searchRadius params) in
  let endIdx := findNearestZeroCross_num samplesCh0 rawEnd (searchRadius params) in
  (startIdx, endIdx).

(** Line 189: [file.name.replace(/\.[^/.]+$/, empty)]: drops a final
    extension, i.e. a last dot followed by at least one character and no
    slash.  [strip_ext_rev] works on the reversed name; [acc] holds the
    characters already passed, in original order. *)
Fixpoint strip_ext_rev (rev_name : list Ascii.ascii) (acc : list Ascii.ascii)
    : option (list Ascii.ascii) :=
  match rev_name with
  | [] => None
  | c :: rest =>
      if Ascii.eqb c "."%char then
        match acc with
        | [] => None
        | _ => Some (rev rest)
        end
      else if Ascii.eqb c "/"%char then None
      else strip_ext_rev rest (c :: acc)
  end.

Definition strip_ext (name : string) : string :=
  match strip_ext_rev (rev (list_ascii_of_string name)) [] with
  | Some base => string_of_list_ascii base
  | None => name
  end.

(** The text of a caught exception: [e.message], or the string form of
    [e] when the message is empty. *)
Definition error_name (e : js_error) : string :=
  match e with
  | RangeError _ => "RangeError"
  | DecodeError _ => "EncodingError"
  | Error _ => "Error"
  end.

Definition error_text (e : js_error) : string :=
  if String.eqb (error_message e) EmptyString then error_name e else error_message e.

(** Lines 222-223: the Vorbis quality after NaN replacement and clamping. *)
Definition normalize_quality (q : option Z) : Z :=
  let oggQuality := match q with None => 3 | Some q => q end in
  Z.min 10 (Z.max 0 oggQuality).

(** The values read from the form by the click handler, after
    [parseFloat] / [parseInt] ([None]: NaN). *)
Record Inputs : Type := {
  in_files : list File;
  in_startSec : number;
  in_endSec : number;
  in_searchRadius : option Z;
  in_outFormat : string;
  in_oggQuality : option Z
}.

Section Services.
(** [AudioContext.decodeAudioData]: file bytes to an AudioBuffer, or a
    rejection. *)
Variable decodeAudioData : list Z -> completion AudioBuffer.
(** The global [OggVorbisEncoder], if the library is loaded:
    [(sampleRate, channels, quality, samples)] to the bytes returned by
    [finish()] after one [encode([samples])]. *)
Variable OggVorbisEncoder : option (Z -> Z -> Z -> Float32Array -> list Z).
(** The global [lamejs], if loaded: [Mp3Encoder(channels, sampleRate,
    kbps)] applied to a PCM16 buffer gives the bytes of [encodeBuffer]
    and those of [flush()]. *)
Variable lamejs : option (Z -> Z -> Z -> list Z -> list Z * list Z).

(** Lines 99-107. *)
Definition monoFloatToOggBlob (samples : Float32Array) (sampleRate quality : Z)
    : completion Blob :=
  match OggVorbisEncoder with
  | None =>
      Throw (Error "OggVorbisEncoder が読み込まれていません。ライブラリ読み込みを確認してください。")
  | Some encoder =>
      let oggData := encoder sampleRate 1 quality samples in
      Normal {| blob_bytes := oggData; blob_type := "audio/ogg" |}
  end.

(** Lines 110-131. *)
Definition monoFloatToMp3Blob (samples : Float32Array) (sampleRate : Z)
    : completion Blob :=
  match lamejs with
  | None =>
      Throw (Error "lamejs が読み込まれていません。ライブラリ読み込みを確認してください。")
  | Some Mp3Encoder =>
      let pcm16 := to_pcm16 samples in
      let (chunk, end_) := Mp3Encoder 1 sampleRate 128 pcm16 in
      let mp3Data := (if (0 <? length chunk)%nat then [chunk] else [])
                     ++ (if (0 <? length end_)%nat then [end_] else []) in
      Normal {| blob_bytes := concat mp3Data; blob_type := "audio/mpeg" |}
  end.

(** Lines 171-183: the format dispatch.  [Normal None] is the branch
    that logs an unsupported format and returns. *)
Definition encode (w : World) (mono : Float32Array) (sr : Z) (params : Params)
    : World * completion (option Blob) :=
  if String.eqb (outFormat params) "ogg" then
    let w := log w (LogOggQuality (oggQuality params)) in
    (w, blob ← monoFloatToOggBlob mono sr (oggQuality params); Normal (Some blob))
  else if String.eqb (outFormat params) "wav" then
    (w, blob ← monoFloatToWavBlob mono sr; Normal (Some blob))
  else if String.eqb (outFormat params) "mp3" then
    let w := log w LogMp3Encoding in
    (w, blob ← monoFloatToMp3Blob mono sr; Normal (Some blob))
  else
    (log w (LogUnsupported (outFormat params)), Normal None).

(** Lines 134-194.  The result pairs the completion of the call with
    the page afterwards. *)
Definition processSingleFile (file : File) (params : Params) (w : World)
    : completion unit * World :=
  let w := log w (LogStart (file_name file)) in
  match decodeAudioData (file_bytes file) with
  | Throw e => (Throw e, w)
  | Normal buffer =>
      let sr := sampleRate buffer in
      let (startIdx, endIdx) := adjusted_indices buffer params in
      if int_leb endIdx startIdx then
        (Normal tt, log w (LogRangeError (file_name file)))
      else
        let adjStartSec := num_div (int_to_num startIdx) (num_of_Z sr) in
        let adjEndSec := num_div (int_to_num endIdx) (num_of_Z sr) in
        let w := log w (LogRequested (startSec params) (endSec params)) in
        let w := log w (LogAdjusted adjStartSec adjEndSec) in
        let w := log w (LogSamples startIdx endIdx (int_sub endIdx startIdx)) in
        match extractMonoSamples_num buffer startIdx endIdx with
        | Throw e => (Throw e, w)
        | Normal mono =>
            match encode w mono sr params with
            | (w, Throw e) => (Throw e, w)
            | (w, Normal None) => (Normal tt, w)
            | (w, Normal (Some blob)) =>
                let ext : string :=
                  (if String.eqb (outFormat params) "wav" then ".wav"
                   else if String.eqb (outFormat params) "mp3" then ".mp3"
                   else ".ogg")%string in
                let download :=
                  (strip_ext (file_name file) ++ "_loop" ++ ext)%string in
                let w := click_download w download blob in
                (Normal tt, log w (LogDone download))
            end
        end
  end.

(** Lines 230-237: the loop over the files with its try/catch. *)
Fixpoint process_files (files : list File) (params : Params) (w : World) : World :=
  match files with
  | [] => w
  | file :: rest =>
      match processSingleFile file params w with
      | (Normal _, w) => process_files rest params w
      | (Throw e, w) =>
          process_files rest params
            (log w (LogCaught (file_name file) (error_text e)))
      end
  end.

(** Lines 197-240: the click handler of the run button. *)
Definition runBtn_click (inp : Inputs) (w : World) : World :=
  let w := clear_log w in
  let files := in_files inp in
  let startSec := in_startSec inp in
  let endSec := in_endSec inp in
  let searchRadius := in_searchRadius inp in
  let outFormat := in_outFormat inp in
  let oggQuality := in_oggQuality inp in
  if (length files =? 0)%nat then log w LogNoFiles
  else if negb (num_gt endSec startSec) then log w LogBadTimes
  else
    let oggQuality := normalize_quality oggQuality in
    let w := log w (LogFileCount (Z.of_nat (length files))) in
    let w := log w (LogSettings startSec endSec searchRadius outFormat) in
    let params := {| startSec := startSec; endSec := endSec;
                     searchRadius := searchRadius; outFormat := outFormat;
                     oggQuality := oggQuality |} in
    let w := process_files files params w in
    log w LogAllDone.

(** *** Results of a run, read off the page *)

(** The page after [processSingleFile] and the catch clause of the
    loop, for one file on an empty page. *)
Definition file_segment (file : File) (params : Params) : World :=
  process_files [file] params {| log_lines := []; downloads := [] |}.
End Services.

(** The per-file result of the spec, as the page shows it: a success is
    the line of line 193 together with the download; a failure is one of
    the three error lines. *)
Inductive RunResult : Type :=
| Success (outputFilename : string) (output : Blob)
| Failure (reason : LogLine).

(** The log lines that end the processing of a file. *)
Definition is_result_line (l : LogLine) : bool :=
  match l with
  | LogDone _ | LogRangeError _ | LogUnsupported _ | LogCaught _ _ => true
  | _ => false
  end.

(** The result of a file, from its segment of the page: the last line
    and the download. *)
Definition result_of_segment (seg : World) : option RunResult :=
  match last (log_lines seg), downloads seg with
  | Some (LogDone name), [(name', blob)] =>
      if String.eqb name name' then Some (Success name blob) else None
  | Some l, [] =>
      match l with
      | LogRangeError _ | LogUnsupported _ | LogCaught _ _ => Some (Failure l)
      | _ => None
      end
  | _, _ => None
  end.

Definition result_line (r : RunResult) : LogLine :=
  match r with
  | Success name _ => LogDone name
  | Failure l => l
  end.

Definition result_downloads (r : RunResult) : list (string * Blob) :=
  match r with
  | Success name blob => [(name, blob)]
  | Failure _ => []
  end.

(** Appending what happened on a fresh page to an earlier page. *)
Definition world_app (w d : World) : World :=
  {| log_lines := log_lines w ++ log_lines d;
     downloads := downloads w ++ downloads d |}.

Definition empty_world : World := {| log_lines := []; downloads := [] |}.

(** The parameters the click handler hands to every file. *)
Definition batch_params (inp : Inputs) : Params :=
  {| startSec := in_startSec inp; endSec := in_endSec inp;
     searchRadius := in_searchRadius inp; outFormat := in_outFormat inp;
     oggQuality := normalize_quality (in_oggQuality inp) |}.

(** The diagnosis clause of the range rejection, read literally: the
    lines logged for a rejected file let the reader recover its adjusted
    start and end index. *)
Definition rejection_reports_indices
    (decodeAudioData : list Z -> completion AudioBuffer) : Prop :=
  exists read : list LogLine -> Z * Z,
    forall file params buffer startIdx endIdx,
      decodeAudioData (file_bytes file) = Normal buffer ->
      adjusted_indices buffer params = (Some startIdx, Some endIdx) ->
      endIdx <= startIdx ->
      read (log_lines (file_segment decodeAudioData None None file params))
      = (startIdx, endIdx).

(** *** Example inputs *)

Definition example_buffer (n : nat) : AudioBuffer :=
  {| sampleRate := 4; channels := [replicate n f32_one] |}.

(** A decoder that knows three recordings (of 4, 2 and 8 frames) and
    rejects everything else. *)
Definition example_decoder (bytes : list Z) : completion AudioBuffer :=
  match bytes with
  | [1] => Normal (example_buffer 4)
  | [2] => Normal (example_buffer 2)
  | [3] => Normal (example_buffer 8)
  | _ => Throw (DecodeError "Unable to decode audio data")
  end.

Definition example_params (startSec endSec : Z) : Params :=
  {| startSec := num_of_Z startSec; endSec := num_of_Z endSec;
     searchRadius := Some 0; outFormat := "wav"; oggQuality := 3 |}.

Definition example_inputs (files : list File) (startSec endSec : Z) : Inputs :=
  {| in_files := files;
     in_startSec := num_of_Z startSec; in_endSec := num_of_Z endSec;
     in_searchRadius := Some 0; in_outFormat := "wav"; in_oggQuality := None |}.

(** Three files, the second of which the decoder rejects. *)
Definition example_batch : list File :=
  [ {| file_name := "a.flac"; file_bytes := [3] |};
    {| file_name := "b.mp3"; file_bytes := [0] |};
    {| file_name := "c.ogg"; file_bytes := [3] |} ].

(** A binary32 sample whose half is again a binary32 value: [+0], or a
    finite value of magnitude at least 2^-125 (a 24-bit mantissa with an
    exponent above the lowest one). *)
Definition f32_half_exact (x : float32) : bool :=
  match x with
  | S754_finite _ m e => bounded prec32 emax32 m e && (-149 <? e)
  | S754_zero s => negb s
  | _ => false
  end.

(** One step of the downmix accumulation for one sample:
    [mono[i] += x / numChannels]. *)
Definition mix_step (numChannels : Z) (acc x : float32) : float32 :=
  fround (num_add (widen acc) (num_div (widen x) (num_of_Z numChannels))).

(* ================================================================= *)
(** ** Quantization on exact values *)

(** [m * 2^e > 1], in integers. *)
Definition exceeds_one (m : positive) (e : Z) : bool :=
  if 0 <=? e then 1 <? Zpos m * 2 ^ e else 2 ^ (- e) <? Zpos m.

(** The integer part of [m * 2^e * scale]. *)
Definition scaled_trunc (m : positive) (e scale : Z) : Z :=
  if 0 <=? e then Zpos m * scale * 2 ^ e else (Zpos m * scale) / 2 ^ (- e).

(** The quantization of the spec, computed without rounding: clamp the
    sample to [[-1, 1]], multiply a negative value by 32768 and any other
    by 32767, drop the fraction.  NaN gives 0. *)
Definition quantize_exact (x : float32) : Z :=
  match x with
  | S754_nan => 0
  | S754_zero _ => 0
  | S754_infinity s => if s then -32768 else 32767
  | S754_finite s m e =>
      if exceeds_one m e then (if s then -32768 else 32767)
      else if s then - scaled_trunc m e 32768 else scaled_trunc m e 32767
  end.

(** [p * 2^k] on mantissas ([p] itself when [k <= 0]). *)
Definition pshift (p : positive) (k : Z) : positive :=
  match k with
  | Zpos k => Pos.iter xO p k
  | _ => p
  end.

(** 0.5 and -0.5 as binary32 values. *)
Definition f32_half : float32 := S754_finite false 8388608 (-24).
Definition f32_neg_half : float32 := S754_finite true 8388608 (-24).

(* ================================================================= *)
(** ** Further definitions *)

(** Lines 143-151: the raw start and end index of a file, before the
    zero-cross adjustment. *)
Definition raw_indices (buffer : AudioBuffer) (params : Params) : option Z * option Z :=
  let sr := num_of_Z (sampleRate buffer) in
  (rawIndex (buffer_length buffer) (num_mul (startSec params) sr),
   rawIndex (buffer_length buffer) (num_mul (endSec params) sr)).

(** The messages of the two errors thrown for a missing encoder library
    (lines 101 and 112). *)
Definition ogg_missing_message : string :=
  "OggVorbisEncoder が読み込まれていません。ライブラリ読み込みを確認してください。".
Definition lamejs_missing_message : string :=
  "lamejs が読み込まれていません。ライブラリ読み込みを確認してください。".

(** *** A reader for the PCM container *)

(** The program only writes the container.  The reader below is the
    reference against which the round trip of [monoFloatToWavBlob] is
    stated; it is not a translation of any source function. *)

(** The signed 16-bit little-endian samples of a data chunk. *)
Fixpoint read_pcm16 (bytes : list Z) : list Z :=
  match bytes with
  | lo :: hi :: rest => i16_decode [lo; hi] :: read_pcm16 rest
  | _ => []
  end.

(** The little-endian field of [n] bytes at offset [off]. *)
Definition le_field (bytes : list Z) (off n : nat) : Z :=
  le_decode (take n (drop off bytes)).

(** A reader of the canonical mono 16-bit PCM container with a 44-byte
    header: it checks the four tags, the two size fields against the
    length of the stream, the format fields (subchunk size 16, linear
    PCM, one channel, byte rate twice the sample rate, block align 2,
    16 bits per sample), and returns the sample rate with the samples. *)
Definition wav_read (bytes : list Z) : option (Z * list Z) :=
  if bool_decide (take 4 bytes = charCodes "RIFF")
     && (le_field bytes 4 4 =? Z.of_nat (length bytes) - 8)
     && bool_decide (take 4 (drop 8 bytes) = charCodes "WAVE")
     && bool_decide (take 4 (drop 12 bytes) = charCodes "fmt ")
     && (le_field bytes 16 4 =? 16)
     && (le_field bytes 20 2 =? 1)
     && (le_field bytes 22 2 =? 1)
     && (le_field bytes 28 4 =? le_field bytes 24 4 * 2)
     && (le_field bytes 32 2 =? 2)
     && (le_field bytes 34 2 =? 16)
     && bool_decide (take 4 (drop 36 bytes) = charCodes "data")
     && (le_field bytes 40 4 =? Z.of_nat (length bytes) - 44)
  then Some (le_field bytes 24 4, read_pcm16 (drop 44 bytes))
  else None.

(** *** Example encoders *)

Definition example_ogg_encoder (sampleRate channels quality : Z)
    (samples : Float32Array) : list Z :=
  [sampleRate; channels; quality; Z.of_nat (length samples)].

Definition example_mp3_encoder (channels sampleRate kbps : Z) (pcm16 : list Z)
    : list Z * list Z :=
  ([channels; kbps], pcm16).
(** *** The zero crossing of the specification *)

(** The specification names a crossing by the values of the pair: the
    first sample is zero, or the second is zero, or the two have
    strictly opposite signs.  The definitions below state that on the
    representation of the values; they do not use the comparisons of
    line 23. *)
Inductive SampleSign : Type :=
| sign_negative
| sign_zero
| sign_positive
| sign_none.

(** The sign of a Number: [+0] and [-0] are zero, an infinity has the
    sign it carries, NaN (and [undefined]) has none. *)
Definition sign_of (x : number) : SampleSign :=
  match x with
  | S754_zero _ => sign_zero
  | S754_infinity s => if s then sign_negative else sign_positive
  | S754_finite s _ _ => if s then sign_negative else sign_positive
  | S754_nan => sign_none
  end.

Definition spec_zero_crossing (samples : Float32Array) (i : Z) : Prop :=
  sign_of (sample_at samples i) = sign_zero \/
  sign_of (sample_at samples (i + 1)) = sign_zero \/
  (sign_of (sample_at samples i) = sign_positive /\
   sign_of (sample_at samples (i + 1)) = sign_negative) \/
  (sign_of (sample_at samples i) = sign_negative /\
   sign_of (sample_at samples (i + 1)) = sign_positive).

#[global] Instance SampleSign_eq_dec : EqDecision SampleSign.
Proof. solve_decision. Defined.

#[global] Instance spec_zero_crossing_dec (samples : Float32Array) (i : Z) :
  Decision (spec_zero_crossing samples i).
Proof. unfold spec_zero_crossing. apply _. Defined.

(** *** The scan with the distances of the engine *)

(** [findNearestZeroCross] above keeps [bestDist] as an exact integer.
    The engine computes [Math.abs(idx - targetIndex)] (line 25) and the
    comparison [dist < bestDist] (line 26) on binary64 Numbers, with
    [Infinity] at the start.  The scan below does the same; the two
    agree whenever the target and the length are below 2^52 (lemma
    [findNearestZeroCross_f64_exact]). *)
Definition num_sub : number -> number -> number := SFsub prec64 emax64.
Definition Math_abs : number -> number := SFabs.
Definition num_infinity : number := S754_infinity false.

Definition scan_step_f64 (samples : Float32Array) (targetIndex : Z)
    (st : Z * number) (i : Z) : Z * number :=
  if crossingAt samples i then
    let idx := i in
    let dist := Math_abs (num_sub (num_of_Z idx) (num_of_Z targetIndex)) in
    if num_lt dist (snd st) then (idx, dist) else st
  else st.

Definition findNearestZeroCross_f64 (samples : Float32Array)
    (targetIndex searchRadius : Z) : Z :=
  let n := Z.of_nat (length samples) in
  if n <? 2 then targetIndex
  else
    let start := Z.max 0 (targetIndex - searchRadius) in
    let end_ := Z.min (n - 2) (targetIndex + searchRadius) in
    fst (fold_left (scan_step_f64 samples targetIndex) (for_range start end_)
           (targetIndex, num_infinity)).

(** The canonical binary64 form of the integer [p] (below 2^53) with
    sign [s]. *)
Definition canon64 (s : bool) (p : positive) : number :=
  S754_finite s (pshift p (53 - Zpos (digits2_pos p))) (Zpos (digits2_pos p) - 53).

(** The loop states of the two scans that stand for each other. *)
Definition dist_rel (d : option Z) (x : number) : Prop :=
  match d with
  | None => x = num_infinity
  | Some z => 0 <= z < 2 ^ 53 /\ x = num_of_Z z
  end.

(** A signal on which the two scans differ for a target of 2^60. *)
Definition far_target_signal : Float32Array :=
  [f32_zero; f32_one; f32_one; f32_one; f32_one; f32_zero; f32_zero].


(* ================================================================= *)
(** ** Zero-cross search: the loop invariant *)

Section ZeroCrossScan.
Variable samples : Float32Array.
Variable t : Z.

Lemma scan_inv_step start cnt st :
  scan_inv samples t start cnt st ->
  scan_inv samples t start (S cnt) (scan_step samples t st (start + Z.of_nat cnt)).
Proof.
  set (x := start + Z.of_nat cnt).
  assert (Hx : x = start + Z.of_nat cnt) by reflexivity.
  intros [[-> Hnone] | (k & -> & Hk & Hck & Hmin)]; unfold scan_step; cbn [snd dist_lt].
  - destruct (crossingAt samples x) eqn:Hc.
    + right. exists x.
      split; [reflexivity|]. split; [lia|]. split; [assumption|].
      intros i Hi Hci.
      assert (i = x) as ->; [|lia].
      destruct (Z.eq_dec i x); trivial.
      rewrite Hnone in Hci by lia. discriminate.
    + left. split; trivial. intros i Hi.
      destruct (Z.eq_dec i x) as [-> | Hne]; trivial.
      apply Hnone. lia.
  - assert (Hold : forall i, start <= i < start + Z.of_nat (S cnt) -> i <> x ->
              crossingAt samples i = true ->
              Z.abs (k - t) <= Z.abs (i - t) /\ (Z.abs (i - t) = Z.abs (k - t) -> k <= i)).
    { intros i Hi Hne Hci. apply Hmin; trivial. lia. }
    destruct (crossingAt samples x) eqn:Hc.
    + destruct (Z.ltb_spec (Z.abs (x - t)) (Z.abs (k - t))) as [Hlt | Hge].
      * right. exists x.
        split; [reflexivity|]. split; [lia|]. split; [assumption|].
        intros i Hi Hci.
        destruct (Z.eq_dec i x) as [-> | Hne]; [lia|].
        destruct (Hold i Hi Hne Hci). lia.
      * right. exists k.
        split; [reflexivity|]. split; [lia|]. split; [assumption|].
        intros i Hi Hci.
        destruct (Z.eq_dec i x) as [-> | Hne]; [lia|].
        apply Hold; trivial.
    + right. exists k.
      split; [reflexivity|]. split; [lia|]. split; [assumption|].
      intros i Hi Hci.
      destruct (Z.eq_dec i x) as [-> | Hne]; [congruence|].
      apply Hold; trivial.
Qed.

Lemma scan_inv_fold start cnt :
  scan_inv samples t start cnt
    (fold_left (scan_step samples t)
       (map (fun k => start + Z.of_nat k) (seq 0 cnt)) (t, None)).
Proof.
  induction cnt as [|cnt IH].
  - left. split; trivial. intros i Hi. lia.
  - rewrite seq_S, map_app, fold_left_app. cbn [map fold_left Nat.add].
    apply scan_inv_step, IH.
Qed.

(** The invariant at loop exit, over the window [lo..hi]. *)
Lemma scan_window lo hi :
  let st := fold_left (scan_step samples t) (for_range lo hi) (t, None) in
  (st = (t, None) /\ forall i, lo <= i <= hi -> crossingAt samples i = false)
  \/
  (exists k, st = (k, Some (Z.abs (k - t))) /\ lo <= k <= hi /\
     crossingAt samples k = true /\
     forall i, lo <= i <= hi -> crossingAt samples i = true ->
       Z.abs (k - t) <= Z.abs (i - t) /\ (Z.abs (i - t) = Z.abs (k - t) -> k <= i)).
Proof.
  intros st. subst st. unfold for_range.
  destruct (scan_inv_fold lo (Z.to_nat (hi - lo + 1))) as [[-> Hn] | (k & -> & Hk & Hc & Hmin)].
  - left. split; trivial. intros i Hi. apply Hn. lia.
  - right. exists k.
    split; [reflexivity|]. split; [lia|]. split; [assumption|].
    intros i Hi Hci. apply Hmin; trivial. lia.
Qed.
End ZeroCrossScan.

(** The function in terms of the window: either no pair index of the
    window is a crossing and the target comes back, or the result is the
    lowest-index crossing among those nearest to the target. *)
Lemma findNearestZeroCross_spec samples t r :
  let res := findNearestZeroCross samples t r in
  (res = t /\ forall i, in_window samples t r i -> crossingAt samples i = false)
  \/
  (in_window samples t r res /\ crossingAt samples res = true /\
   forall i, in_window samples t r i -> crossingAt samples i = true ->
     Z.abs (res - t) <= Z.abs (i - t) /\ (Z.abs (i - t) = Z.abs (res - t) -> res <= i)).
Proof.
  intros res. subst res. unfold findNearestZeroCross, in_window, window_lo, window_hi.
  destruct (Z.ltb_spec (Z.of_nat (length samples)) 2) as [Hn | Hn].
  - left. split; trivial. intros i Hi. lia.
  - destruct (scan_window samples t (Z.max 0 (t - r)) (Z.min (Z.of_nat (length samples) - 2) (t + r)))
      as [[-> Hnone] | (k & -> & Hk & Hc & Hmin)]; cbn [fst].
    + left. split; trivial.
    + right. split; [lia|]. split; [assumption|]. apply Hmin.
Qed.

(* ================================================================= *)
(** ** Typed-array helpers *)

Lemma subarray_in_range {A} (a : list A) (b e : Z) :
  0 <= b <= e -> e <= Z.of_nat (length a) ->
  subarray a b e = take (Z.to_nat (e - b)) (drop (Z.to_nat b) a).
Proof.
  intros Hb He. unfold subarray, rel_index.
  destruct (Z.ltb_spec b 0); [lia|].
  destruct (Z.ltb_spec e 0); [lia|].
  rewrite !Z.min_l by lia. rewrite Z.max_l by lia. reflexivity.
Qed.

Lemma subarray_length {A} (a : list A) (b e : Z) :
  0 <= b <= e -> e <= Z.of_nat (length a) ->
  Z.of_nat (length (subarray a b e)) = e - b.
Proof.
  intros Hb He. rewrite subarray_in_range by lia.
  rewrite length_take, length_drop. lia.
Qed.

Lemma subarray_lookup {A} (a : list A) (b e : Z) (i : nat) :
  0 <= b <= e -> e <= Z.of_nat (length a) -> Z.of_nat i < e - b ->
  subarray a b e !! i = a !! (Z.to_nat b + i)%nat.
Proof.
  intros Hb He Hi. rewrite subarray_in_range by lia.
  rewrite lookup_take_lt by lia. apply lookup_drop.
Qed.

(* ================================================================= *)
(** ** The DataView writes of the WAV writer *)

Lemma dv_write_zeros (w : list Z) (n : nat) (off : Z) (bs : list Z) :
  off = Z.of_nat (length w) -> (length bs <= n)%nat ->
  dv_write (w ++ replicate n 0) off bs
  = Normal ((w ++ bs) ++ replicate (n - length bs) 0).
Proof.
  intros -> Hn. unfold dv_write.
  rewrite length_app, length_replicate.
  destruct (Z.ltb_spec (Z.of_nat (length w)) 0); [lia|].
  destruct (Z.ltb_spec (Z.of_nat (length w + n)) (Z.of_nat (length w) + Z.of_nat (length bs)));
    [lia|].
  cbn [orb]. f_equal. rewrite Nat2Z.id.
  replace n with (length bs + (n - length bs))%nat at 1 by lia.
  rewrite replicate_add.
  replace (length w) with (length w + 0)%nat at 1 by lia.
  rewrite list_inserts_app_r.
  rewrite list_inserts_0_r by (rewrite length_replicate; reflexivity).
  rewrite <- app_assoc. reflexivity.
Qed.

Lemma writeString_from_zeros (codes : list Z) :
  forall (w : list Z) (n : nat) (off i : Z),
    off + i = Z.of_nat (length w) -> (length codes <= n)%nat ->
    writeString_from (w ++ replicate n 0) off codes i
    = Normal ((w ++ flat_map u8 codes) ++ replicate (n - length codes) 0).
Proof.
  induction codes as [|c rest IH]; intros w n off i Hoff Hn.
  - cbn. rewrite app_nil_r, Nat.sub_0_r. reflexivity.
  - cbn [writeString_from]. unfold setUint8.
    rewrite dv_write_zeros by (cbn in *; lia).
    cbn [mbind completion_bind].
    rewrite IH by (rewrite ?length_app; cbn in *; lia).
    cbn [flat_map length]. f_equal.
    rewrite <- !app_assoc.
    replace (n - length (u8 c) - length rest)%nat
      with (n - S (length rest))%nat by (cbn; lia).
    reflexivity.
Qed.

Lemma write_samples_zeros (pcm16 : list Z) :
  forall (w : list Z) (n : nat) (offset : Z),
    offset = Z.of_nat (length w) -> (2 * length pcm16 <= n)%nat ->
    write_samples (w ++ replicate n 0) offset pcm16
    = Normal ((w ++ flat_map u16le pcm16) ++ replicate (n - 2 * length pcm16) 0).
Proof.
  induction pcm16 as [|q rest IH]; intros w n offset Hoff Hn.
  - cbn. rewrite app_nil_r, Nat.sub_0_r. reflexivity.
  - cbn [write_samples]. unfold setInt16.
    rewrite dv_write_zeros by (cbn in *; lia).
    cbn [mbind completion_bind].
    rewrite IH by (rewrite ?length_app; cbn in *; lia).
    cbn [flat_map length]. f_equal.
    rewrite <- !app_assoc.
    replace (n - length (u16le q) - 2 * length rest)%nat
      with (n - 2 * S (length rest))%nat by (cbn; lia).
    reflexivity.
Qed.

(** The writer never throws and produces the prescribed byte stream. *)
Lemma monoFloatToWavBlob_layout (samples : Float32Array) (sr : Z) :
  monoFloatToWavBlob samples sr
  = Normal {| blob_bytes := wav_layout sr (to_pcm16 samples);
              blob_type := "audio/wav" |}.
Proof.
  unfold monoFloatToWavBlob, wav_layout. cbv zeta.
  set (pcm := to_pcm16 samples).
  replace (Z.to_nat (44 + Z.of_nat (length pcm) * 2))
    with (44 + 2 * length pcm)%nat by lia.
  change (replicate (44 + 2 * length pcm) 0)
    with ([] ++ replicate (44 + 2 * length pcm) 0).
  unfold writeString, setUint32, setUint16.
  repeat (first
    [ rewrite writeString_from_zeros by (rewrite ?length_app; cbn; lia)
    | rewrite dv_write_zeros by (rewrite ?length_app; cbn; lia)
    | rewrite write_samples_zeros by (rewrite ?length_app; cbn; lia) ];
    cbn [mbind completion_bind]).
  f_equal. f_equal.
  replace (_ - 2 * length pcm)%nat with 0%nat by (cbn; lia).
  cbn [replicate]. rewrite app_nil_r.
  rewrite (Z.mul_comm (Z.of_nat (length pcm)) 2).
  rewrite <- !app_assoc. reflexivity.
Qed.

(* ================================================================= *)
(** ** Reading the fields back *)

Lemma ToInt16_range (x : number) : -32768 <= ToInt16 x <= 32767.
Proof.
  unfold ToInt16.
  pose proof (Z.mod_pos_bound (trunc_to_Z x + 32768) 65536 ltac:(lia)). lia.
Qed.

Lemma quantize_range (x : float32) : -32768 <= quantize x <= 32767.
Proof. apply ToInt16_range. Qed.

Lemma le_decode_u16le (v : Z) : le_decode (u16le v) = v mod 65536.
Proof.
  unfold u16le, le_decode.
  pose proof (Z.mod_pos_bound v 256 ltac:(lia)).
  pose proof (Z.mod_pos_bound (v / 256) 256 ltac:(lia)).
  pose proof (Z.div_mod v 256 ltac:(lia)).
  pose proof (Z.div_mod (v / 256) 256 ltac:(lia)).
  apply Z.mod_unique with (q := v / 256 / 256); [left; lia | lia].
Qed.

Lemma le_decode_u32le (v : Z) : le_decode (u32le v) = v mod 4294967296.
Proof.
  unfold u32le, le_decode.
  pose proof (Z.mod_pos_bound v 256 ltac:(lia)).
  pose proof (Z.mod_pos_bound (v / 256) 256 ltac:(lia)).
  pose proof (Z.mod_pos_bound (v / 65536) 256 ltac:(lia)).
  pose proof (Z.mod_pos_bound (v / 16777216) 256 ltac:(lia)).
  pose proof (Z.div_mod v 256 ltac:(lia)).
  pose proof (Z.div_mod (v / 256) 256 ltac:(lia)).
  pose proof (Z.div_mod (v / 65536) 256 ltac:(lia)).
  pose proof (Z.div_mod (v / 16777216) 256 ltac:(lia)).
  replace (v / 256 / 256) with (v / 65536) in * by (rewrite Z.div_div by lia; reflexivity).
  replace (v / 65536 / 256) with (v / 16777216) in * by (rewrite Z.div_div by lia; reflexivity).
  apply Z.mod_unique with (q := v / 16777216 / 256); [left; lia | lia].
Qed.

Lemma i16_decode_u16le (q : Z) :
  -32768 <= q <= 32767 -> i16_decode (u16le q) = q.
Proof.
  intros Hq. unfold i16_decode. rewrite le_decode_u16le.
  destruct (Z.ltb_spec (q mod 65536) 32768) as [Hlt | Hge].
  - destruct (Z.le_gt_cases 0 q).
    + apply Z.mod_small. lia.
    + rewrite <- (Z.mod_add q 1 65536) in Hlt by lia.
      rewrite Z.mod_small in Hlt by lia. lia.
  - destruct (Z.le_gt_cases 0 q).
    + rewrite Z.mod_small in Hge by lia. lia.
    + rewrite <- (Z.mod_add q 1 65536) by lia.
      rewrite Z.mod_small by lia. lia.
Qed.

(* ================================================================= *)
(** ** The batch loop: each file adds its own segment to the page *)

Lemma world_app_empty_r (w : World) : world_app w empty_world = w.
Proof. destruct w. unfold world_app. cbn. rewrite !app_nil_r. reflexivity. Qed.

Lemma world_app_assoc (a b c : World) :
  world_app (world_app a b) c = world_app a (world_app b c).
Proof. unfold world_app. cbn. rewrite !app_assoc. reflexivity. Qed.

Lemma log_world_app (w d : World) (l : LogLine) :
  log (world_app w d) l = world_app w (log d l).
Proof. unfold log, world_app. cbn. rewrite app_assoc. reflexivity. Qed.

Lemma click_download_world_app (w d : World) (name : string) (blob : Blob) :
  click_download (world_app w d) name blob = world_app w (click_download d name blob).
Proof. unfold click_download, world_app. cbn. rewrite app_assoc. reflexivity. Qed.

Section Pipeline.
Variable decodeAudioData : list Z -> completion AudioBuffer.
Variable OggVorbisEncoder : option (Z -> Z -> Z -> Float32Array -> list Z).
Variable lamejs : option (Z -> Z -> Z -> list Z -> list Z * list Z).

Abbreviation encode' := (encode OggVorbisEncoder lamejs).
Abbreviation processSingleFile' :=
  (processSingleFile decodeAudioData OggVorbisEncoder lamejs).
Abbreviation process_files' :=
  (process_files decodeAudioData OggVorbisEncoder lamejs).
Abbreviation file_segment' :=
  (file_segment decodeAudioData OggVorbisEncoder lamejs).

Lemma encode_frame (w d : World) mono sr params :
  encode' (world_app w d) mono sr params
  = (world_app w (fst (encode' d mono sr params)), snd (encode' d mono sr params)).
Proof.
  unfold encode.
  repeat match goal with
         | |- context [if ?b then _ else _] => destruct b
         end; cbn [fst snd]; rewrite ?log_world_app; reflexivity.
Qed.

Lemma processSingleFile_frame (file : File) (params : Params) (w d : World) :
  processSingleFile' file params (world_app w d)
  = (fst (processSingleFile' file params d),
     world_app w (snd (processSingleFile' file params d))).
Proof.
  unfold processSingleFile.
  destruct (decodeAudioData (file_bytes file)) as [buffer | e];
    [|cbn [fst snd]; rewrite log_world_app; reflexivity].
  destruct (adjusted_indices buffer params) as [startIdx endIdx].
  destruct (int_leb endIdx startIdx);
    [cbn [fst snd]; rewrite !log_world_app; reflexivity|].
  destruct (extractMonoSamples_num buffer startIdx endIdx) as [mono | e];
    [|cbn [fst snd]; rewrite !log_world_app; reflexivity].
  rewrite !log_world_app, encode_frame.
  destruct (encode' _ mono (sampleRate buffer) params) as [w1 [[blob|] | e]];
    cbn [fst snd]; rewrite ?click_download_world_app, ?log_world_app; reflexivity.
Qed.

Lemma process_files_frame (files : list File) (params : Params) :
  forall w d : World,
    process_files' files params (world_app w d)
    = world_app w (process_files' files params d).
Proof.
  induction files as [|file rest IH]; intros w d; cbn [process_files].
  - reflexivity.
  - rewrite processSingleFile_frame.
    destruct (processSingleFile' file params d) as [[[] | e] d']; cbn [fst snd].
    + apply IH.
    + rewrite log_world_app. apply IH.
Qed.

Lemma process_files_cons (file : File) (rest : list File) (params : Params) (w : World) :
  process_files' (file :: rest) params w
  = process_files' rest params (world_app w (file_segment' file params)).
Proof.
  unfold file_segment. cbn [process_files].
  rewrite <- (world_app_empty_r w) at 1. rewrite processSingleFile_frame.
  fold empty_world.
  destruct (processSingleFile' file params empty_world) as [[[] | e] d']; cbn [fst snd].
  - reflexivity.
  - rewrite log_world_app. reflexivity.
Qed.

(** The page after the loop: the segments of the files, in input order. *)
Lemma process_files_segments (files : list File) (params : Params) :
  forall w : World,
    process_files' files params w
    = {| log_lines := log_lines w
           ++ flat_map (fun f => log_lines (file_segment' f params)) files;
         downloads := downloads w
           ++ flat_map (fun f => downloads (file_segment' f params)) files |}.
Proof.
  induction files as [|file rest IH]; intros w.
  - cbn. rewrite !app_nil_r. destruct w; reflexivity.
  - rewrite process_files_cons, IH. cbn [flat_map world_app log_lines downloads].
    rewrite !app_assoc. reflexivity.
Qed.

(** Each segment starts with the file's start line and ends in exactly
    one result: a download with its completion line, or one error line
    and no download. *)
Lemma file_segment_result (file : File) (params : Params) :
  exists r : RunResult,
    result_of_segment (file_segment' file params) = Some r /\
    List.filter is_result_line (log_lines (file_segment' file params)) = [result_line r] /\
    downloads (file_segment' file params) = result_downloads r /\
    head (log_lines (file_segment' file params)) = Some (LogStart (file_name file)).
Proof.
  unfold file_segment. cbn [process_files]. unfold processSingleFile.
  destruct (decodeAudioData (file_bytes file)) as [buffer | e].
  2:{ eexists. cbn. repeat split. }
  destruct (adjusted_indices buffer params) as [startIdx endIdx].
  destruct (int_leb endIdx startIdx).
  { eexists. cbn. repeat split. }
  destruct (extractMonoSamples_num buffer startIdx endIdx) as [mono | e].
  2:{ eexists. cbn. repeat split. }
  unfold encode.
  destruct (String.eqb (outFormat params) "ogg").
  { unfold monoFloatToOggBlob. destruct OggVorbisEncoder as [enc|].
    - eexists. cbn. rewrite String.eqb_refl. repeat split.
    - eexists. cbn. repeat split. }
  destruct (String.eqb (outFormat params) "wav").
  { rewrite monoFloatToWavBlob_layout.
    eexists. cbn. rewrite String.eqb_refl. repeat split. }
  destruct (String.eqb (outFormat params) "mp3").
  { unfold monoFloatToMp3Blob. destruct lamejs as [enc|].
    - destruct (enc 1 (sampleRate buffer) 128 (to_pcm16 mono)) as [chunk end_].
      eexists. cbn. rewrite String.eqb_refl. repeat split.
    - eexists. cbn. repeat split. }
  eexists. cbn. repeat split.
Qed.

(** The results of the files of a batch, in input order. *)
Lemma segments_results (files : list File) (params : Params) :
  exists results : list RunResult,
    length results = length files /\
    Forall2 (fun f r => result_of_segment (file_segment' f params) = Some r)
            files results /\
    List.filter is_result_line
      (flat_map (fun f => log_lines (file_segment' f params)) files)
    = map result_line results /\
    flat_map (fun f => downloads (file_segment' f params)) files
    = flat_map result_downloads results /\
    (forall i f e, files !! i = Some f -> decodeAudioData (file_bytes f) = Throw e ->
       results !! i = Some (Failure (LogCaught (file_name f) (error_text e)))).
Proof.
  induction files as [|f fs IH].
  - exists []. cbn. repeat split; try constructor.
    intros i f e Hi. rewrite lookup_nil in Hi. discriminate.
  - destruct IH as (rs & Hlen & Hall & Hlog & Hdl & Hfail).
    destruct (file_segment_result f params) as (r & Hres & Hlines & Hdls & _).
    exists (r :: rs). cbn [length flat_map map].
    split; [lia|]. split; [constructor; assumption|].
    split; [|split].
    + rewrite List.filter_app, Hlines, Hlog. reflexivity.
    + rewrite Hdls, Hdl. reflexivity.
    + intros [|i] f0 e Hi He.
      * cbn in Hi. injection Hi as <-. cbn. f_equal.
        unfold file_segment in Hres. cbn [process_files] in Hres.
        unfold processSingleFile in Hres. rewrite He in Hres.
        cbn in Hres. congruence.
      * cbn in Hi |- *. eapply Hfail; eassumption.
Qed.
End Pipeline.

(* ================================================================= *)
(** ** Floating point: shifts that lose no bit *)

Lemma iter_pos_iter {A} (f : A -> A) (p : positive) :
  forall x, SpecFloat.iter_pos f p x = @Pos.iter A f x p.
Proof.
  induction p as [p IH | p IH |]; intros x; cbn [SpecFloat.iter_pos Pos.iter].
  - rewrite !IH. rewrite <- !Pos.iter_swap. reflexivity.
  - rewrite !IH. reflexivity.
  - reflexivity.
Qed.

Lemma Zpos_iter_xO (m k : positive) :
  Zpos (@Pos.iter positive xO m k) = Zpos m * 2 ^ Zpos k.
Proof.
  induction k as [|k IH] using Pos.peano_ind.
  - cbn [Pos.iter]. lia.
  - rewrite Pos.iter_succ.
    change (Zpos (@Pos.iter positive xO m k)~0) with (2 * Zpos (@Pos.iter positive xO m k)).
    rewrite IH, Pos2Z.inj_succ, Z.pow_succ_r by lia. lia.
Qed.

Lemma digits2_pos_iter_xO (m k : positive) :
  digits2_pos (@Pos.iter positive xO m k) = (digits2_pos m + k)%positive.
Proof.
  induction k as [|k IH] using Pos.peano_ind.
  - cbn [Pos.iter digits2_pos]. lia.
  - rewrite Pos.iter_succ. cbn [digits2_pos]. rewrite IH. lia.
Qed.

Lemma digits2_pos_bounds (m : positive) :
  2 ^ (Zpos (digits2_pos m) - 1) <= Zpos m < 2 ^ Zpos (digits2_pos m).
Proof.
  induction m as [m IH | m IH |]; cbn [digits2_pos].
  - rewrite Pos2Z.inj_succ, Pos2Z.inj_xI.
    replace (Z.succ (Zpos (digits2_pos m)) - 1) with (Z.succ (Zpos (digits2_pos m) - 1)) by lia.
    rewrite !Z.pow_succ_r by lia. lia.
  - rewrite Pos2Z.inj_succ. change (Zpos m~0) with (2 * Zpos m).
    replace (Z.succ (Zpos (digits2_pos m)) - 1) with (Z.succ (Zpos (digits2_pos m) - 1)) by lia.
    rewrite !Z.pow_succ_r by lia. lia.
  - change (1 <= 1 < 2). lia.
Qed.

(** Shifting out [k] zero bits is exact. *)
Lemma shr_iter_xO (m k : positive) :
  SpecFloat.iter_pos shr_1 k {| shr_m := Zpos (@Pos.iter positive xO m k); shr_r := false; shr_s := false |}
  = {| shr_m := Zpos m; shr_r := false; shr_s := false |}.
Proof.
  rewrite iter_pos_iter.
  induction k as [|k IH] using Pos.peano_ind.
  - reflexivity.
  - rewrite (Pos.iter_succ k _ xO m), (Pos.iter_succ k _ shr_1), <- Pos.iter_swap.
    cbn [shr_1 orb]. exact IH.
Qed.

Section Rounding.
Variables prec emax : Z.

(** A mantissa that already fits is kept as it is. *)
Lemma binary_round_aux_fits (s : bool) (m : positive) (e : Z) :
  fexp prec emax (Zpos (digits2_pos m) + e) <= e ->
  e <= emax - prec ->
  binary_round_aux prec emax s (Zpos m) e loc_Exact = S754_finite s m e.
Proof.
  intros Hfit Hmax. unfold binary_round_aux, shr_fexp.
  cbn [Zdigits2 shr_record_of_loc].
  assert (Hshr : forall mrs,
             shr mrs e (fexp prec emax (Zpos (digits2_pos m) + e) - e) = (mrs, e)).
  { intros mrs. unfold shr.
    destruct (fexp prec emax (Zpos (digits2_pos m) + e) - e) eqn:Hd; trivial; lia. }
  rewrite Hshr. cbn [shr_m loc_of_shr_record round_nearest_even Zdigits2 shr_record_of_loc].
  rewrite Hshr. cbn [shr_m].
  destruct (Z.leb_spec e (emax - prec)); [reflexivity | lia].
Qed.

(** A mantissa with [k] surplus bits, all zero, loses exactly those. *)
Lemma binary_round_aux_shift (s : bool) (m k : positive) (e : Z) :
  fexp prec emax (Zpos (digits2_pos (@Pos.iter positive xO m k)) + e) - e = Zpos k ->
  e + Zpos k <= emax - prec ->
  binary_round_aux prec emax s (Zpos (@Pos.iter positive xO m k)) e loc_Exact
  = S754_finite s m (e + Zpos k).
Proof.
  intros Hk Hmax. unfold binary_round_aux, shr_fexp.
  cbn [Zdigits2 shr_record_of_loc]. rewrite Hk. cbn [shr].
  rewrite shr_iter_xO.
  cbn [shr_m loc_of_shr_record round_nearest_even Zdigits2 shr_record_of_loc].
  assert (Hfix : fexp prec emax (Zpos (digits2_pos m) + (e + Zpos k)) - (e + Zpos k) = 0).
  { rewrite digits2_pos_iter_xO, Pos2Z.inj_add in Hk.
    replace (Zpos (digits2_pos m) + (e + Zpos k))
      with (Zpos (digits2_pos m) + Zpos k + e) by lia. lia. }
  rewrite Hfix. cbn [shr shr_m].
  destruct (Z.leb_spec (e + Zpos k) (emax - prec)); [reflexivity | lia].
Qed.

(** Rounding a value with fewer bits than the format has only aligns it. *)
Lemma binary_round_widens (s : bool) (m k : positive) (e : Z) :
  e - fexp prec emax (Zpos (digits2_pos m) + e) = Zpos k ->
  e - Zpos k <= emax - prec ->
  binary_round prec emax s m e = S754_finite s (@Pos.iter positive xO m k) (e - Zpos k).
Proof.
  intros Hk Hmax. unfold binary_round, shl_align.
  replace (fexp prec emax (Zpos (digits2_pos m) + e) - e) with (Zneg k) by lia.
  replace (fexp prec emax (Zpos (digits2_pos m) + e)) with (e - Zpos k) by lia.
  apply binary_round_aux_fits; [|lia].
  rewrite digits2_pos_iter_xO, Pos2Z.inj_add.
  replace (Zpos (digits2_pos m) + Zpos k + (e - Zpos k))
    with (Zpos (digits2_pos m) + e) by lia.
  lia.
Qed.

(** Rounding a value whose surplus bits are zero drops exactly those. *)
Lemma binary_round_shift (s : bool) (m k : positive) (e : Z) :
  fexp prec emax (Zpos (digits2_pos (@Pos.iter positive xO m k)) + e) - e = Zpos k ->
  e + Zpos k <= emax - prec ->
  binary_round prec emax s (@Pos.iter positive xO m k) e = S754_finite s m (e + Zpos k).
Proof.
  intros Hk Hmax. unfold binary_round, shl_align.
  rewrite Hk. apply binary_round_aux_shift; assumption.
Qed.
End Rounding.

(* ================================================================= *)
(** ** Floating point: binary32 samples as Numbers *)

Lemma bounded32_normal (m : positive) (e : Z) :
  bounded prec32 emax32 m e = true -> -149 < e ->
  digits2_pos m = 24%positive /\ e <= 104.
Proof.
  unfold bounded, canonical_mantissa, fexp, emin, prec32, emax32.
  intros H He. apply andb_prop in H as [Hc Hb].
  apply Z.eqb_eq in Hc. apply Z.leb_le in Hb. split; lia.
Qed.

(** Reading a normal binary32 value appends 29 zero bits. *)
Lemma widen_normal (s : bool) (m : positive) (e : Z) :
  digits2_pos m = 24%positive -> -149 <= e <= 104 ->
  widen (S754_finite s m e) = S754_finite s (@Pos.iter positive xO m 29) (e - 29).
Proof.
  intros Hd He. unfold widen.
  apply binary_round_widens; rewrite ?Hd; unfold fexp, emin, prec64, emax64; lia.
Qed.

(** Storing such a Number drops the 29 zero bits again. *)
Lemma fround_normal (s : bool) (m : positive) (e : Z) :
  digits2_pos m = 24%positive -> -149 <= e + 29 <= 104 ->
  fround (S754_finite s (@Pos.iter positive xO m 29) e) = S754_finite s m (e + 29).
Proof.
  intros Hd He. unfold fround.
  apply binary_round_shift; rewrite ?digits2_pos_iter_xO, ?Hd;
    unfold fexp, emin, prec32, emax32; lia.
Qed.

(** Halving a normal Number is exact. *)
Lemma num_div_two (s : bool) (m : positive) (e : Z) :
  digits2_pos m = 53%positive -> -1072 <= e <= 972 ->
  num_div (S754_finite s m e) (num_of_Z 2) = S754_finite s m (e - 1).
Proof.
  intros Hd He.
  change (num_of_Z 2) with (S754_finite false 4503599627370496 (-51)).
  unfold num_div, SFdiv, SFdiv_core_binary.
  cbn [Zdigits2]. rewrite Hd.
  change (Zpos (digits2_pos 4503599627370496)) with 53.
  replace (Z.min (fexp prec64 emax64 (53 + e - (53 + -51))) (e - -51)) with (e - 2)
    by (unfold fexp, emin, prec64, emax64; lia).
  replace (e - -51 - (e - 2)) with 53 by lia.
  rewrite Z.shiftl_mul_pow2 by lia.
  assert (Hdiv : Z.div_eucl (Zpos m * 2 ^ 53) 4503599627370496 = (Zpos m~0, 0)).
  { pose proof (Z_div_mod (Zpos m * 2 ^ 53) 4503599627370496 ltac:(lia)) as H.
    destruct (Z.div_eucl (Zpos m * 2 ^ 53) 4503599627370496) as [q r].
    destruct H as [Heq Hr].
    change (2 ^ 53) with 9007199254740992 in Heq.
    f_equal; lia. }
  rewrite Hdiv.
  change (new_location 4503599627370496 0) with loc_Exact.
  rewrite xorb_false_r.
  change (m~0)%positive with (@Pos.iter positive xO m 1).
  replace (e - 1) with (e - 2 + 1) by lia.
  apply binary_round_aux_shift; rewrite ?digits2_pos_iter_xO, ?Hd;
    unfold fexp, emin, prec64, emax64; lia.
Qed.

(** Doubling a normal Number by adding it to itself is exact. *)
Lemma num_add_same (s : bool) (m : positive) (e : Z) :
  digits2_pos m = 53%positive -> -1074 <= e <= 970 ->
  num_add (S754_finite s m e) (S754_finite s m e) = S754_finite s m (e + 1).
Proof.
  intros Hd He. unfold num_add, SFadd.
  rewrite Z.min_id. unfold shl_align. rewrite Z.sub_diag. cbn [fst].
  assert (Hsum : cond_Zopp s (Zpos m) + cond_Zopp s (Zpos m)
                 = if s then Zneg m~0 else Zpos m~0).
  { destruct s; cbn [cond_Zopp]; lia. }
  rewrite Hsum.
  change (m~0)%positive with (@Pos.iter positive xO m 1).
  destruct s; cbn [binary_normalize];
    apply binary_round_shift; rewrite ?digits2_pos_iter_xO, ?Hd;
    unfold fexp, emin, prec64, emax64; lia.
Qed.

(** Two accumulation steps of the two-channel downmix give the sample
    back. *)
Lemma mix_step_two_exact (x : float32) :
  f32_half_exact x = true ->
  mix_step 2 (mix_step 2 (S754_zero false) x) x = x.
Proof.
  destruct x as [[|] | | | s m e]; cbn [f32_half_exact negb]; try discriminate.
  - intros _. reflexivity.
  - intros H. apply andb_prop in H as [Hb He]. apply Z.ltb_lt in He.
    destruct (bounded32_normal m e Hb He) as [Hd Hmax].
    assert (Hd53 : digits2_pos (@Pos.iter positive xO m 29) = 53%positive).
    { rewrite digits2_pos_iter_xO, Hd. reflexivity. }
    unfold mix_step.
    rewrite (widen_normal s m e) by (trivial; lia).
    rewrite num_div_two by (trivial; lia).
    change (widen (S754_zero false)) with (S754_zero false).
    change (num_add (S754_zero false)
              (S754_finite s (@Pos.iter positive xO m 29) (e - 29 - 1)))
      with (S754_finite s (@Pos.iter positive xO m 29) (e - 29 - 1)).
    rewrite fround_normal by (trivial; lia).
    rewrite widen_normal by (trivial; lia).
    replace (e - 29 - 1 + 29 - 29) with (e - 29 - 1) by lia.
    rewrite num_add_same by (trivial; lia).
    rewrite fround_normal by (trivial; lia).
    f_equal. lia.
Qed.

(* ================================================================= *)
(** ** The multi-channel accumulation, sample by sample *)

Lemma sample_at_cons_S (x : float32) (data : Float32Array) (i : nat) :
  sample_at (x :: data) (Z.of_nat (S i)) = sample_at data (Z.of_nat i).
Proof.
  unfold sample_at, ta_get.
  destruct (Z.ltb_spec (Z.of_nat (S i)) 0); [lia|].
  destruct (Z.ltb_spec (Z.of_nat i) 0); [lia|].
  rewrite !Nat2Z.id. reflexivity.
Qed.

Lemma accumulate_channel_zip (numChannels : Z) (mono : Float32Array) :
  forall data : Float32Array,
    length mono = length data ->
    accumulate_channel numChannels mono data
    = zip_with (mix_step numChannels) mono data.
Proof.
  unfold accumulate_channel.
  induction mono as [|m mono IH]; intros [|x data] Hlen; try discriminate.
  - reflexivity.
  - rewrite imap_cons. cbn [zip_with]. f_equal.
    rewrite <- IH by (cbn in Hlen; lia).
    apply imap_ext. intros i y _. cbn [compose]. rewrite sample_at_cons_S. reflexivity.
Qed.

Lemma mix_two_channels (data : Float32Array) :
  Forall (fun x => f32_half_exact x = true) data ->
  zip_with (mix_step 2)
    (zip_with (mix_step 2) (replicate (length data) (S754_zero false)) data) data
  = data.
Proof.
  induction 1 as [|x data Hx _ IH]; cbn [length replicate zip_with].
  - reflexivity.
  - rewrite mix_step_two_exact by exact Hx. rewrite IH. reflexivity.
Qed.

(* ================================================================= *)
(** ** Floating point: products that need no rounding *)

Lemma Zpos_pshift (p : positive) (k : Z) :
  0 <= k -> Zpos (pshift p k) = Zpos p * 2 ^ k.
Proof.
  intros Hk. destruct k as [|k|k]; cbn [pshift]; [lia | apply Zpos_iter_xO | lia].
Qed.

Lemma digits2_pos_pshift (p : positive) (k : Z) :
  0 <= k -> Zpos (digits2_pos (pshift p k)) = Zpos (digits2_pos p) + k.
Proof.
  intros Hk. destruct k as [|k|k]; cbn [pshift]; [lia | | lia].
  rewrite digits2_pos_iter_xO. lia.
Qed.

Lemma pshift_unique (p q : positive) (k : Z) :
  0 <= k -> Zpos q = Zpos p * 2 ^ k -> q = pshift p k.
Proof.
  intros Hk Hq. apply Pos2Z.inj. rewrite Zpos_pshift by exact Hk. exact Hq.
Qed.

Lemma digits2_pos_le (p : positive) (k : Z) :
  Zpos p < 2 ^ k -> Zpos (digits2_pos p) <= k.
Proof.
  intros Hp. pose proof (digits2_pos_bounds p) as [Hlo _].
  destruct (Z.le_gt_cases (Zpos (digits2_pos p)) k) as [|Hgt]; trivial.
  assert (2 ^ k <= 2 ^ (Zpos (digits2_pos p) - 1)) by (apply Z.pow_le_mono_r; lia).
  lia.
Qed.

(** Whatever the alignment of an exactly representable value
    [p * 2^e], rounding returns its canonical binary64 form. *)
Lemma binary_round_aux_canonical (s : bool) (p : positive) (e j : Z) :
  let d := Zpos (digits2_pos p) in
  0 <= j -> d <= 53 -> 53 <= d + j ->
  -1074 <= e + d - 53 <= 971 ->
  binary_round_aux prec64 emax64 s (Zpos (pshift p j)) (e - j) loc_Exact
  = S754_finite s (pshift p (53 - d)) (e + d - 53).
Proof.
  intros d Hj Hd Hdj He.
  destruct (Z.eq_dec (d + j) 53) as [Heq | Hne].
  - replace (53 - d) with j by lia. replace (e + d - 53) with (e - j) by lia.
    apply binary_round_aux_fits.
    + rewrite digits2_pos_pshift by lia. fold d.
      unfold fexp, emin, prec64, emax64. lia.
    + unfold prec64, emax64. lia.
  - assert (Hn : 0 < d + j - 53) by lia.
    destruct (d + j - 53) as [|n|n] eqn:Hdn; try lia.
    assert (Hsplit : pshift p j = @Pos.iter positive xO (pshift p (53 - d)) n).
    { apply Pos2Z.inj. rewrite Zpos_iter_xO, !Zpos_pshift by lia.
      rewrite <- Z.mul_assoc, <- Z.pow_add_r by lia. f_equal. f_equal. lia. }
    rewrite Hsplit.
    replace (e + d - 53) with (e - j + Zpos n) by lia.
    apply binary_round_aux_shift.
    + rewrite <- Hsplit, digits2_pos_pshift by lia. fold d.
      unfold fexp, emin, prec64, emax64. lia.
    + unfold prec64, emax64. lia.
Qed.

(** Reading any binary32 value gives its canonical binary64 form. *)
Lemma widen_bounded (s : bool) (m : positive) (e : Z) :
  bounded prec32 emax32 m e = true ->
  let d := Zpos (digits2_pos m) in
  widen (S754_finite s m e) = S754_finite s (pshift m (53 - d)) (e + d - 53) /\
  d <= 24 /\ -149 <= e <= 104 /\ (d = 24 \/ e = -149).
Proof.
  intros Hb d.
  assert (Hc : d <= 24 /\ -149 <= e <= 104 /\ (d = 24 \/ e = -149)).
  { unfold bounded, canonical_mantissa, fexp, emin, prec32, emax32 in Hb.
    apply andb_prop in Hb as [Hc Hmax].
    apply Z.eqb_eq in Hc. apply Z.leb_le in Hmax. fold d in Hc. lia. }
  split; [|exact Hc].
  destruct (53 - d) as [|k|k] eqn:Hk; try lia.
  cbn [pshift]. replace (e + d - 53) with (e - Zpos k) by lia.
  unfold widen. apply binary_round_widens.
  - fold d. unfold fexp, emin, prec64, emax64. lia.
  - unfold prec64, emax64. lia.
Qed.

(* ================================================================= *)
(** ** Floating point: comparing a sample with 1 and -1 *)

Lemma SFltb_finite_pos (m1 m2 : positive) (e1 e2 : Z) :
  SFltb (S754_finite false m1 e1) (S754_finite false m2 e2)
  = (e1 <? e2) || ((e1 =? e2) && (Zpos m1 <? Zpos m2)).
Proof.
  unfold SFltb, SFcompare.
  destruct (Z.compare_spec e1 e2) as [-> | Hlt | Hgt].
  - rewrite Z.ltb_irrefl, Z.eqb_refl. cbn [orb andb].
    change (Pos.compare_cont Eq m1 m2) with (Zpos m1 ?= Zpos m2).
    unfold Z.ltb. destruct (Zpos m1 ?= Zpos m2); reflexivity.
  - apply Z.ltb_lt in Hlt. rewrite Hlt. reflexivity.
  - destruct (Z.ltb_spec e1 e2); [lia|]. destruct (Z.eqb_spec e1 e2); [lia|]. reflexivity.
Qed.

Lemma SFltb_finite_neg (m1 m2 : positive) (e1 e2 : Z) :
  SFltb (S754_finite true m1 e1) (S754_finite true m2 e2)
  = (e2 <? e1) || ((e2 =? e1) && (Zpos m2 <? Zpos m1)).
Proof.
  unfold SFltb, SFcompare.
  destruct (Z.compare_spec e1 e2) as [-> | Hlt | Hgt].
  - rewrite Z.ltb_irrefl, Z.eqb_refl. cbn [orb andb].
    change (Pos.compare_cont Eq m1 m2) with (Zpos m1 ?= Zpos m2).
    unfold Z.ltb. rewrite (Z.compare_antisym (Zpos m1) (Zpos m2)).
    destruct (Zpos m1 ?= Zpos m2); reflexivity.
  - destruct (Z.ltb_spec e2 e1); [lia|]. destruct (Z.eqb_spec e2 e1); [lia|]. reflexivity.
  - apply Z.ltb_lt in Hgt. rewrite Hgt. reflexivity.
Qed.

Lemma num_lt_not_nan (a b : number) :
  num_lt a b = true -> is_nan a = false /\ is_nan b = false.
Proof. destruct a, b; cbn; intros H; try discriminate; split; reflexivity. Qed.

Lemma Math_min_lt (a b : number) : num_lt a b = true -> Math_min a b = a.
Proof.
  intros H. unfold Math_min.
  destruct (num_lt_not_nan a b H) as [-> ->]. cbn [orb]. rewrite H. reflexivity.
Qed.

Lemma Math_min_keep (s : bool) (m : positive) (e : Z) (b : number) :
  is_nan b = false -> num_lt (S754_finite s m e) b = false ->
  Math_min (S754_finite s m e) b = b.
Proof.
  intros Hb H. unfold Math_min. rewrite Hb, H. cbn [is_nan orb].
  destruct (num_lt b (S754_finite s m e)); reflexivity.
Qed.

Lemma Math_max_gt (a b : number) : num_lt b a = true -> Math_max a b = a.
Proof.
  intros H. unfold Math_max.
  destruct (num_lt_not_nan b a H) as [-> ->]. cbn [orb]. rewrite H. reflexivity.
Qed.

Lemma Math_max_keep (s : bool) (m : positive) (e : Z) (b : number) :
  is_nan b = false -> num_lt b (S754_finite s m e) = false ->
  Math_max (S754_finite s m e) b = b.
Proof.
  intros Hb H. unfold Math_max. rewrite Hb, H. cbn [is_nan orb].
  destruct (num_lt (S754_finite s m e) b); reflexivity.
Qed.

Section Binary32Sample.
Variables (m : positive) (e : Z).
Hypothesis Hbounded : bounded prec32 emax32 m e = true.

Let d := Zpos (digits2_pos m).
Let M := pshift m (53 - d).
Let E := e + d - 53.

Lemma sample_digits : 1 <= d <= 24 /\ -149 <= e <= 104 /\ (d = 24 \/ e = -149).
Proof.
  destruct (widen_bounded false m e Hbounded) as (_ & H1 & H2 & H3).
  fold d in H1, H3. subst d. lia.
Qed.

Lemma sample_mantissa :
  Zpos M = Zpos m * 2 ^ (53 - d) /\ 2 ^ (d - 1) <= Zpos m < 2 ^ d.
Proof.
  pose proof sample_digits as Hd.
  split; [apply Zpos_pshift; lia | apply digits2_pos_bounds].
Qed.

(** The sample exceeds 1 in magnitude exactly when its binary64 form
    is above that of 1, which is [2^52 * 2^-52]. *)
Lemma exceeds_one_canonical :
  exceeds_one m e = (-52 <? E) || ((-52 =? E) && (4503599627370496 <? Zpos M)).
Proof.
  pose proof sample_digits as (Hd & He & Hcan).
  pose proof sample_mantissa as (HM & Hlo & Hhi).
  unfold exceeds_one.
  destruct (Z.leb_spec 0 e) as [He0 | He0].
  - assert (d = 24) as Hd24 by lia.
    destruct (Z.ltb_spec (-52) E) as [_ | HE]; [|unfold E in HE; lia].
    cbn [orb]. apply Z.ltb_lt.
    rewrite Hd24 in Hlo. change (2 ^ (24 - 1)) with 8388608 in Hlo.
    pose proof (Z.pow_pos_nonneg 2 e ltac:(lia) He0). nia.
  - destruct (Z.ltb_spec (-52) E) as [HE | HE]; cbn [orb].
    + apply Z.ltb_lt.
      assert (2 ^ (- e) < 2 ^ (d - 1)) by (apply Z.pow_lt_mono_r; unfold E in HE; lia).
      lia.
    + destruct (Z.eqb_spec (-52) E) as [HE52 | HE52]; cbn [andb].
      * assert (Hd1 : 53 - d = 52 + e) by (unfold E in HE52; lia).
        rewrite Hd1 in HM.
        assert (Hpow : 4503599627370496 = 2 ^ (- e) * 2 ^ (52 + e)).
        { rewrite <- Z.pow_add_r by lia. replace (- e + (52 + e)) with 52 by lia.
          reflexivity. }
        assert (0 < 2 ^ (52 + e)) by (apply Z.pow_pos_nonneg; lia).
        rewrite HM, Hpow.
        destruct (Z.ltb_spec (2 ^ (- e)) (Zpos m));
          destruct (Z.ltb_spec (2 ^ (- e) * 2 ^ (52 + e)) (Zpos m * 2 ^ (52 + e)));
          trivial; nia.
      * destruct (Z.ltb_spec (2 ^ (- e)) (Zpos m)) as [Hgt | _]; trivial.
        assert (2 ^ d <= 2 ^ (- e)) by (apply Z.pow_le_mono_r; unfold E in HE, HE52; lia).
        lia.
Qed.

Lemma num_lt_one_sample :
  num_lt num_one (S754_finite false M E) = exceeds_one m e.
Proof.
  change num_one with (S754_finite false 4503599627370496 (-52)).
  unfold num_lt. rewrite SFltb_finite_pos, exceeds_one_canonical. reflexivity.
Qed.

Lemma num_lt_sample_neg_one :
  num_lt (S754_finite true M E) num_neg_one = exceeds_one m e.
Proof.
  change num_neg_one with (S754_finite true 4503599627370496 (-52)).
  unfold num_lt. rewrite SFltb_finite_neg, exceeds_one_canonical. reflexivity.
Qed.

(** Line 60 on a finite sample. *)
Lemma clamp_unit_sample (s : bool) :
  clamp_unit (S754_finite s M E)
  = if exceeds_one m e then (if s then num_neg_one else num_one)
    else S754_finite s M E.
Proof.
  unfold clamp_unit.
  change num_one with (S754_finite false 4503599627370496 (-52)).
  change num_neg_one with (S754_finite true 4503599627370496 (-52)).
  destruct s.
  - rewrite Math_min_keep by reflexivity.
    pose proof num_lt_sample_neg_one as Hlt.
    change num_neg_one with (S754_finite true 4503599627370496 (-52)) in Hlt.
    destruct (exceeds_one m e).
    + apply Math_max_gt, Hlt.
    + apply Math_max_keep; [reflexivity | exact Hlt].
  - pose proof num_lt_one_sample as Hlt.
    change num_one with (S754_finite false 4503599627370496 (-52)) in Hlt.
    destruct (exceeds_one m e).
    + rewrite Math_min_lt by exact Hlt. reflexivity.
    + rewrite Math_min_keep by (trivial; reflexivity).
      apply Math_max_keep; reflexivity.
Qed.

(** A sample within [[-1, 1]] has a negative exponent and a mantissa
    of at most [2^-e]. *)
Lemma within_one_bounds :
  exceeds_one m e = false -> e < 0 /\ Zpos m <= 2 ^ (- e).
Proof.
  pose proof sample_digits as (Hd & He & Hcan).
  pose proof sample_mantissa as (_ & Hlo & _).
  unfold exceeds_one. destruct (Z.leb_spec 0 e) as [He0 | He0]; intros Hx.
  - apply Z.ltb_ge in Hx.
    assert (d = 24) as Hd24 by lia.
    rewrite Hd24 in Hlo. change (2 ^ (24 - 1)) with 8388608 in Hlo.
    pose proof (Z.pow_pos_nonneg 2 e ltac:(lia) He0). nia.
  - apply Z.ltb_ge in Hx. lia.
Qed.

(** Line 61 on a sample within [[-1, 1]]: the product with the scale
    (given as [km * 2^ke = sc]) is exact. *)
Lemma num_mul_sample (s : bool) (km sc : positive) (ke : Z) :
  Zpos km = Zpos sc * 2 ^ (- ke) -> 24 <= - ke -> Zpos sc < 2 ^ 16 ->
  let dP := Zpos (digits2_pos (m * sc)) in
  num_mul (S754_finite s M E) (S754_finite false km ke)
  = S754_finite s (pshift (m * sc) (53 - dP)) (e + dP - 53) /\ 1 <= dP <= 40.
Proof.
  intros Hkm Hke Hsc dP.
  pose proof sample_digits as (Hd & He & Hcan).
  pose proof sample_mantissa as (HM & Hlo & Hhi).
  assert (HdP : 1 <= dP <= 40).
  { split; [unfold dP; lia|]. apply digits2_pos_le.
    rewrite Pos2Z.inj_mul.
    assert (2 ^ d <= 2 ^ 24) by (apply Z.pow_le_mono_r; lia).
    change (2 ^ 40) with (2 ^ 24 * 2 ^ 16). nia. }
  split; [|exact HdP].
  unfold num_mul, SFmul. rewrite xorb_false_r.
  assert (Hprod : (M * km)%positive = pshift (m * sc) (53 - d - ke)).
  { apply pshift_unique; [lia|].
    rewrite !Pos2Z.inj_mul, HM, Hkm.
    replace (53 - d - ke) with (53 - d + - ke) by lia.
    rewrite Z.pow_add_r by lia. ring. }
  rewrite Hprod.
  replace (E + ke) with (e - (53 - d - ke)) by (unfold E; lia).
  apply binary_round_aux_canonical; fold dP; lia.
Qed.

(** Truncating the exact product. *)
Lemma trunc_scaled_sample (s : bool) (sc : positive) :
  e < 0 ->
  let dP := Zpos (digits2_pos (m * sc)) in
  dP <= 53 ->
  trunc_to_Z (S754_finite s (pshift (m * sc) (53 - dP)) (e + dP - 53))
  = if s then - scaled_trunc m e (Zpos sc) else scaled_trunc m e (Zpos sc).
Proof.
  intros He dP HdP. unfold trunc_to_Z, scaled_trunc.
  destruct (Z.leb_spec 0 (e + dP - 53)); [lia|].
  destruct (Z.leb_spec 0 e); [lia|].
  rewrite Zpos_pshift by lia.
  replace (- (e + dP - 53)) with (- e + (53 - dP)) by lia.
  rewrite Z.pow_add_r by lia.
  rewrite Z.div_mul_cancel_r by (apply Z.pow_nonzero; lia).
  rewrite Pos2Z.inj_mul. reflexivity.
Qed.
End Binary32Sample.

(* ================================================================= *)
(** ** Quantization computes the exact clamp-scale-truncate value *)

Lemma scaled_trunc_range (m : positive) (e : Z) (sc : Z) :
  0 <= sc -> e < 0 -> Zpos m <= 2 ^ (- e) -> 0 <= scaled_trunc m e sc <= sc.
Proof.
  intros Hsc He Hm. unfold scaled_trunc.
  destruct (Z.leb_spec 0 e); [lia|].
  assert (0 < 2 ^ (- e)) by (apply Z.pow_pos_nonneg; lia).
  split.
  - apply Z.div_pos; lia.
  - apply Z.div_le_upper_bound; [lia | nia].
Qed.

Lemma quantize_exact_range (x : float32) :
  is_float32 x = true -> -32768 <= quantize_exact x <= 32767.
Proof.
  destruct x as [s | s | | s m e]; cbn [is_float32 valid_binary quantize_exact];
    intros Hb; try (destruct s; lia); try lia.
  destruct (exceeds_one m e) eqn:Hx; [destruct s; lia|].
  destruct (within_one_bounds m e Hb Hx) as [He Hm].
  pose proof (scaled_trunc_range m e 32768 ltac:(lia) He Hm).
  pose proof (scaled_trunc_range m e 32767 ltac:(lia) He Hm).
  destruct s; lia.
Qed.

(** The value about to be stored in the Int16Array, truncated, is the
    exact one: neither product of line 61 rounds. *)
Lemma scaled_sample_exact (x : float32) :
  is_float32 x = true ->
  trunc_to_Z (scale_sample (clamp_unit (widen x))) = quantize_exact x.
Proof.
  destruct x as [s | s | | s m e]; cbn [is_float32 valid_binary]; intros Hb.
  - destruct s; reflexivity.
  - destruct s; reflexivity.
  - reflexivity.
  - destruct (widen_bounded s m e Hb) as (Hw & _).
    rewrite Hw, (clamp_unit_sample m e Hb). cbn [quantize_exact].
    destruct (exceeds_one m e) eqn:Hx; [destruct s; reflexivity|].
    destruct (within_one_bounds m e Hb Hx) as [He Hm].
    unfold scale_sample. destruct s.
    + change (num_lt (S754_finite true _ _) num_zero) with true. cbn match.
      change (num_of_Z 32768) with (S754_finite false 4503599627370496 (-37)).
      destruct (num_mul_sample m e Hb true 4503599627370496 32768 (-37))
        as [Hmul HdP]; [reflexivity | lia | reflexivity |].
      rewrite Hmul. apply (trunc_scaled_sample m e true 32768); lia.
    + change (num_lt (S754_finite false _ _) num_zero) with false. cbn match.
      change (num_of_Z 32767) with (S754_finite false 9006924376834048 (-38)).
      destruct (num_mul_sample m e Hb false 9006924376834048 32767 (-38))
        as [Hmul HdP]; [reflexivity | lia | reflexivity |].
      rewrite Hmul. apply (trunc_scaled_sample m e false 32767); lia.
Qed.

Lemma ToInt16_small (x : number) :
  -32768 <= trunc_to_Z x <= 32767 -> ToInt16 x = trunc_to_Z x.
Proof. intros H. unfold ToInt16. rewrite Z.mod_small by lia. lia. Qed.

Lemma quantize_is_exact (x : float32) :
  is_float32 x = true -> quantize x = quantize_exact x.
Proof.
  intros Hb. unfold quantize.
  pose proof (quantize_exact_range x Hb) as Hr.
  rewrite <- (scaled_sample_exact x Hb) in Hr |- *.
  apply ToInt16_small, Hr.
Qed.

(** Saturation needs no assumption on the sample. *)
Lemma clamp_unit_above (w : number) :
  num_gt w num_one = true -> clamp_unit w = num_one.
Proof.
  intros H. unfold clamp_unit. rewrite Math_min_lt by exact H. reflexivity.
Qed.

Lemma clamp_unit_below (w : number) :
  num_lt w num_neg_one = true -> clamp_unit w = num_neg_one.
Proof.
  intros H. unfold clamp_unit.
  change num_one with (S754_finite false 4503599627370496 (-52)).
  rewrite Math_min_keep.
  - apply Math_max_gt, H.
  - apply (num_lt_not_nan _ _ H).
  - destruct w as [s | s | | s m e]; try destruct s; try reflexivity; discriminate H.
Qed.
(* ================================================================= *)
(** ** The test of line 23 and the crossing of the specification *)

(** The test of line 23 holds exactly for the pairs the specification
    calls a crossing: a zero on either side, or strictly opposite
    signs. *)
Lemma isZeroCross_sign (s1 s2 : number) :
  isZeroCross s1 s2 = true <->
  (sign_of s1 = sign_zero \/ sign_of s2 = sign_zero \/
   (sign_of s1 = sign_positive /\ sign_of s2 = sign_negative) \/
   (sign_of s1 = sign_negative /\ sign_of s2 = sign_positive)).
Proof.
  destruct s1 as [[|]|[|]| |[|] m1 e1], s2 as [[|]|[|]| |[|] m2 e2];
    cbn; split; intros H; try reflexivity; try discriminate H; auto 6;
    intuition discriminate.
Qed.

Lemma crossingAt_spec (samples : Float32Array) (i : Z) :
  crossingAt samples i = true <-> spec_zero_crossing samples i.
Proof. apply isZeroCross_sign. Qed.

Lemma crossingAt_false_spec (samples : Float32Array) (i : Z) :
  crossingAt samples i = false <-> ~ spec_zero_crossing samples i.
Proof.
  rewrite <- crossingAt_spec. destruct (crossingAt samples i); split; intros H;
    try reflexivity; try discriminate; try (intros H'; discriminate H').
  exfalso. apply H. reflexivity.
Qed.

(** Reading a binary32 element as a Number keeps its sign, so the
    crossing of the specification is a property of the array's own
    elements. *)
Lemma sign_of_widen (x : float32) :
  is_float32 x = true -> sign_of (widen x) = sign_of x.
Proof.
  destruct x as [s|s| |s m e]; try reflexivity.
  intros Hv. change (bounded prec32 emax32 m e = true) in Hv.
  destruct (widen_bounded s m e Hv) as [-> _]. reflexivity.
Qed.


(* ================================================================= *)
(** ** The zero-cross locator *)


(** C1.  For every sample sequence [s] of length [n], integer target and
    radius [r]: when the window [[max(0,target-r), min(n-2,target+r)]]
    holds a zero crossing (a pair index [i] with [s[i]] zero, [s[i+1]]
    zero, or the two of strictly opposite signs),
    [findNearestZeroCross] returns an index of that window; when it
    holds none, and in particular when [n < 2], it returns [target]
    unchanged. *)
Theorem C1_zero_cross_in_window_or_target (s : Float32Array) (target r : Z) :
  let n := Z.of_nat (length s) in
  let lo := Z.max 0 (target - r) in
  let hi := Z.min (n - 2) (target + r) in
  ((exists i, lo <= i <= hi /\ spec_zero_crossing s i) ->
     lo <= findNearestZeroCross s target r <= hi) /\
  ((forall i, lo <= i <= hi -> ~ spec_zero_crossing s i) ->
     findNearestZeroCross s target r = target) /\
  (n < 2 -> findNearestZeroCross s target r = target).
Proof.
  intros n lo hi.
  pose proof (findNearestZeroCross_spec s target r) as Hspec. cbv zeta in Hspec.
  unfold in_window, window_lo, window_hi in Hspec. fold n lo hi in Hspec.
  split; [|split].
  - intros (i & Hi & Hc). apply crossingAt_spec in Hc.
    destruct Hspec as [[_ Hnone] | (Hw & _ & _)]; trivial.
    rewrite Hnone in Hc by trivial. discriminate.
  - intros Hnone.
    destruct Hspec as [[Ht _] | (Hw & Hc & _)]; trivial.
    apply crossingAt_spec in Hc. destruct (Hnone _ Hw Hc).
  - intros Hn. unfold findNearestZeroCross. fold n.
    destruct (Z.ltb_spec n 2); [reflexivity | lia].
Qed.

Lemma C1_zero_cross_witness :
  findNearestZeroCross [f32_one; f32_one; f32_neg_one] 7 6 = 1 /\
  findNearestZeroCross [f32_one; f32_one; f32_zero] 7 6 = 1 /\
  findNearestZeroCross [f32_one; f32_one; f32_one] 1 5 = 1 /\
  findNearestZeroCross [f32_zero] 7 2 = 7.
Proof.
  split; [|split; [|split]].
  - destruct (C1_zero_cross_in_window_or_target
                [f32_one; f32_one; f32_neg_one] 7 6) as (Hin & _ & _).
    cbv zeta in Hin. change (Z.of_nat (length [f32_one; f32_one; f32_neg_one])) with 3 in Hin.
    assert (Hex : exists i, Z.max 0 (7 - 6) <= i <= Z.min (3 - 2) (7 + 6) /\
                            spec_zero_crossing [f32_one; f32_one; f32_neg_one] i).
    { exists 1. split; [lia|]. right; right; left. split; reflexivity. }
    specialize (Hin Hex). lia.
  - destruct (C1_zero_cross_in_window_or_target
                [f32_one; f32_one; f32_zero] 7 6) as (Hin & _ & _).
    cbv zeta in Hin. change (Z.of_nat (length [f32_one; f32_one; f32_zero])) with 3 in Hin.
    assert (Hex : exists i, Z.max 0 (7 - 6) <= i <= Z.min (3 - 2) (7 + 6) /\
                            spec_zero_crossing [f32_one; f32_one; f32_zero] i).
    { exists 1. split; [lia|]. right; left. reflexivity. }
    specialize (Hin Hex). lia.
  - destruct (C1_zero_cross_in_window_or_target
                [f32_one; f32_one; f32_one] 1 5) as (_ & Hnone & _).
    apply Hnone. intros i Hi. cbn in Hi.
    assert (i = 0 \/ i = 1) as [-> | ->] by lia;
      intros [H | [H | [[_ H] | [H _]]]]; vm_compute in H; discriminate H.
  - destruct (C1_zero_cross_in_window_or_target [f32_zero] 7 2) as (_ & _ & Hshort).
    apply Hshort. cbn. lia.
Defined.

(** C2.  When two crossings [i < j] of the scan window lie at the same
    absolute distance from the target, the higher index [j] is never
    returned; and when the two tie for the nearest crossing (no crossing
    of the window is strictly nearer), the lower index [i] is returned:
    a candidate replaces the best only on a strictly smaller distance. *)
Theorem C2_tie_takes_lower_index (s : Float32Array) (target r i j : Z) :
  in_window s target r i -> in_window s target r j ->
  crossingAt s i = true -> crossingAt s j = true ->
  i < j ->
  Z.abs (i - target) = Z.abs (j - target) ->
  findNearestZeroCross s target r <> j /\
  ((forall k, in_window s target r k -> crossingAt s k = true ->
              Z.abs (i - target) <= Z.abs (k - target)) ->
   findNearestZeroCross s target r = i).
Proof.
  intros Hi Hj Hci Hcj Hlt Htie.
  destruct (findNearestZeroCross_spec s target r) as [[_ Hnone] | (Hw & Hc & Hmin)].
  - rewrite Hnone in Hci by trivial. discriminate.
  - destruct (Hmin i Hi Hci) as [Hle Hfirst].
    destruct (Hmin j Hj Hcj) as [_ Hfirst'].
    split.
    + intros Heq. rewrite Heq in Hfirst. lia.
    + intros Hnear. pose proof (Hnear _ Hw Hc) as Hge.
      assert (Heq : Z.abs (i - target)
                    = Z.abs (findNearestZeroCross s target r - target)) by lia.
      specialize (Hfirst Heq). lia.
Qed.

Lemma C2_tie_witness :
  findNearestZeroCross [f32_zero; f32_one; f32_one; f32_neg_one] 1 1 <> 2 /\
  findNearestZeroCross [f32_zero; f32_one; f32_one; f32_neg_one] 1 1 = 0.
Proof.
  destruct (C2_tie_takes_lower_index
              [f32_zero; f32_one; f32_one; f32_neg_one] 1 1 0 2) as [Hne Heq].
  - vm_compute. split; discriminate.
  - vm_compute. split; discriminate.
  - reflexivity.
  - reflexivity.
  - lia.
  - reflexivity.
  - split; [exact Hne|]. apply Heq.
    intros k [Hlo Hhi] Hc. change (0 <= k) in Hlo. change (k <= 2) in Hhi.
    assert (k = 0 \/ k = 1 \/ k = 2) as [-> | [-> | ->]] by lia;
      [lia | discriminate Hc | lia].
Defined.

(* ================================================================= *)
(** ** The PCM16 quantization *)

(** C3.  The value stored for a binary32 sample is that of the spec's
    quantization computed on exact values: the sample is clamped to
    [[-1, 1]], a negative value is multiplied by 32768 and any other by
    32767, and the fraction is dropped; the MP3 path feeds the encoder
    the same values.  In particular 1.0 gives 32767, -1.0 gives -32768
    and 0.0 gives 0. *)
Theorem C3_quantize_clamp_scale_truncate :
  (forall x : float32, is_float32 x = true -> quantize x = quantize_exact x) /\
  (forall (s : bool) (m : positive) (e : Z),
     is_float32 (S754_finite s m e) = true -> exceeds_one m e = false ->
     e < 0 /\
     quantize (S754_finite s m e)
     = if s then - ((Zpos m * 32768) / 2 ^ (- e)) else (Zpos m * 32767) / 2 ^ (- e)) /\
  (forall (s : bool) (m : positive) (e : Z),
     is_float32 (S754_finite s m e) = true -> exceeds_one m e = true ->
     quantize (S754_finite s m e) = if s then -32768 else 32767) /\
  quantize f32_one = 32767 /\
  quantize f32_neg_one = -32768 /\
  quantize f32_zero = 0 /\
  (forall (mp3 : Z -> Z -> Z -> list Z -> list Z * list Z) samples sampleRate,
     let encoded := mp3 1 sampleRate 128 (map quantize samples) in
     monoFloatToMp3Blob (Some mp3) samples sampleRate
     = Normal {| blob_bytes := fst encoded ++ snd encoded;
                 blob_type := "audio/mpeg" |}).
Proof.
  split; [exact quantize_is_exact|].
  split; [|split; [|split; [|split; [|split]]]].
  - intros s m e Hb Hx.
    destruct (within_one_bounds m e Hb Hx) as [He _]. split; [exact He|].
    rewrite quantize_is_exact by exact Hb. cbn [quantize_exact]. rewrite Hx.
    unfold scaled_trunc. destruct (Z.leb_spec 0 e); [lia | reflexivity].
  - intros s m e Hb Hx.
    rewrite quantize_is_exact by exact Hb. cbn [quantize_exact]. rewrite Hx. reflexivity.
  - reflexivity.
  - reflexivity.
  - reflexivity.
  - intros mp3 samples sr encoded. subst encoded.
    unfold monoFloatToMp3Blob, to_pcm16.
    destruct (mp3 1 sr 128 (map quantize samples)) as [chunk end_].
    destruct chunk, end_; cbn; rewrite ?app_nil_r; reflexivity.
Qed.

Lemma C3_quantize_witness :
  quantize f32_half = 16383 /\ quantize f32_neg_half = -16384.
Proof.
  destruct C3_quantize_clamp_scale_truncate as (_ & Hin & _).
  unfold f32_half, f32_neg_half. split.
  - destruct (Hin false 8388608%positive (-24)) as [_ H]; [reflexivity | reflexivity |].
    rewrite H. reflexivity.
  - destruct (Hin true 8388608%positive (-24)) as [_ H]; [reflexivity | reflexivity |].
    rewrite H. reflexivity.
Defined.

(** C10.  Every sample, whatever its value, is stored as an integer of
    [[-32768, 32767]]: a sample above 1.0 is stored as 32767, one below
    -1.0 as -32768 and NaN as 0; and for every binary32 sample the scaled
    value itself lies in that range, so the conversion to 16 bits never
    wraps around.  The quantizer is a total function: it does not throw. *)
Theorem C10_quantize_saturates (x : float32) :
  -32768 <= quantize x <= 32767 /\
  (num_gt (widen x) num_one = true -> quantize x = 32767) /\
  (num_lt (widen x) num_neg_one = true -> quantize x = -32768) /\
  (is_nan (widen x) = true -> quantize x = 0) /\
  (is_float32 x = true ->
     -32768 <= trunc_to_Z (scale_sample (clamp_unit (widen x))) <= 32767 /\
     quantize x = trunc_to_Z (scale_sample (clamp_unit (widen x)))).
Proof.
  split; [apply quantize_range|].
  split; [|split; [|split]].
  - intros H. unfold quantize. rewrite clamp_unit_above by exact H. reflexivity.
  - intros H. unfold quantize. rewrite clamp_unit_below by exact H. reflexivity.
  - intros H. unfold quantize. destruct (widen x); try discriminate H. reflexivity.
  - intros Hb. rewrite (scaled_sample_exact x Hb).
    split; [apply quantize_exact_range, Hb | apply quantize_is_exact, Hb].
Qed.

Lemma C10_quantize_witness :
  quantize (S754_finite false 12582912 (-22)) = 32767 /\
  quantize (S754_infinity true) = -32768 /\
  quantize S754_nan = 0 /\
  quantize f32_neg_half = trunc_to_Z (scale_sample (clamp_unit (widen f32_neg_half))).
Proof.
  split; [|split; [|split]].
  - destruct (C10_quantize_saturates (S754_finite false 12582912 (-22))) as (_ & H & _).
    apply H. reflexivity.
  - destruct (C10_quantize_saturates (S754_infinity true)) as (_ & _ & H & _).
    apply H. reflexivity.
  - destruct (C10_quantize_saturates S754_nan) as (_ & _ & _ & H & _).
    apply H. reflexivity.
  - destruct (C10_quantize_saturates f32_neg_half) as (_ & _ & _ & _ & H).
    apply H. reflexivity.
Defined.

(* ================================================================= *)
(** ** The PCM container writer and the single-channel copy *)

(** C4.  For every mono buffer of [k] samples and every sample rate the
    writer returns (it never throws) exactly [44 + 2k] bytes: the tag
    RIFF, the size field [36 + 2k], the tags WAVE and fmt, the subchunk
    size 16, audio format 1, channel count 1, the sample rate, the byte
    rate [sampleRate * 2], block align 2, 16 bits per sample, the tag
    data, the data size [2k], then the quantized samples; every integer
    field is little-endian (a 32-bit field reads back as the value
    modulo 2^32, a sample reads back as the quantized value), and equal
    inputs give byte-for-byte equal output. *)
Theorem C4_wav_exact_layout (samples : Float32Array) (sampleRate : Z) :
  let k := Z.of_nat (length samples) in
  exists bytes : list Z,
    monoFloatToWavBlob samples sampleRate
      = Normal {| blob_bytes := bytes; blob_type := "audio/wav" |} /\
    Z.of_nat (length bytes) = 44 + 2 * k /\
    bytes = [82; 73; 70; 70] ++ u32le (36 + 2 * k) ++ [87; 65; 86; 69]
            ++ [102; 109; 116; 32] ++ u32le 16 ++ u16le 1 ++ u16le 1
            ++ u32le sampleRate ++ u32le (sampleRate * 2)
            ++ u16le 2 ++ u16le 16
            ++ [100; 97; 116; 97] ++ u32le (2 * k)
            ++ flat_map u16le (map quantize samples) /\
    (forall v, le_decode (u32le v) = v mod 2 ^ 32) /\
    (forall v, le_decode (u16le v) = v mod 2 ^ 16) /\
    (forall x, In x samples -> i16_decode (u16le (quantize x)) = quantize x) /\
    (forall samples' sampleRate',
        samples' = samples -> sampleRate' = sampleRate ->
        monoFloatToWavBlob samples' sampleRate'
        = monoFloatToWavBlob samples sampleRate).
Proof.
  intros k. exists (wav_layout sampleRate (to_pcm16 samples)).
  split; [apply monoFloatToWavBlob_layout|].
  assert (Hk : Z.of_nat (length (to_pcm16 samples)) = k).
  { unfold to_pcm16. rewrite length_map. reflexivity. }
  split; [|split; [|split; [|split; [|split]]]].
  - unfold wav_layout. rewrite !length_app.
    assert (Hflat : forall l : list Z, length (flat_map u16le l) = (2 * length l)%nat).
    { induction l as [|q l IH]; cbn [flat_map length u16le app] in *; lia. }
    rewrite Hflat. cbn [charCodes u32le u16le length map list_ascii_of_string]. lia.
  - unfold wav_layout. rewrite Hk. reflexivity.
  - intros v. apply le_decode_u32le.
  - intros v. apply le_decode_u16le.
  - intros x _. apply i16_decode_u16le, quantize_range.
  - intros ? ? -> ->. reflexivity.
Qed.

(** C6.  For a single-channel buffer and a valid range
    [0 <= startIndex <= endIndex <= length], the downmix returns (without
    throwing) a buffer of exactly [endIndex - startIndex] elements, each
    the very element of the source at the same position of the range. *)
Theorem C6_single_channel_copy (buffer : AudioBuffer) (data : Float32Array)
    (startIndex endIndex : Z) :
  channels buffer = [data] ->
  0 <= startIndex <= endIndex -> endIndex <= Z.of_nat (length data) ->
  exists mono : Float32Array,
    extractMonoSamples buffer startIndex endIndex = Normal mono /\
    Z.of_nat (length mono) = endIndex - startIndex /\
    mono = take (Z.to_nat (endIndex - startIndex)) (drop (Z.to_nat startIndex) data) /\
    forall i, 0 <= i < endIndex - startIndex ->
      ta_get mono i = ta_get data (startIndex + i).
Proof.
  intros Hch Hs He.
  exists (subarray data startIndex endIndex).
  assert (Hlen : Z.of_nat (length (subarray data startIndex endIndex))
                 = endIndex - startIndex) by (apply subarray_length; lia).
  split; [|split; [|split]].
  - unfold extractMonoSamples, numberOfChannels, getChannelData, new_Float32Array.
    rewrite Hch. cbn [length Z.of_nat Pos.of_succ_nat Z.eqb Pos.eqb lookup list_lookup default from_option id].
    destruct (Z.ltb_spec (endIndex - startIndex) 0); [lia|].
    cbn [mbind completion_bind]. unfold ta_set.
    rewrite length_replicate.
    destruct (Nat.ltb_spec (Z.to_nat (endIndex - startIndex))
                (length (subarray data startIndex endIndex))); [lia|].
    f_equal. rewrite drop_ge by (rewrite length_replicate; lia).
    apply app_nil_r.
  - exact Hlen.
  - apply subarray_in_range; lia.
  - intros i Hi. unfold ta_get.
    destruct (Z.ltb_spec i 0); [lia|].
    destruct (Z.ltb_spec (startIndex + i) 0); [lia|].
    rewrite subarray_lookup by lia. f_equal. lia.
Qed.

Lemma C6_single_channel_witness :
  exists mono : Float32Array,
    extractMonoSamples {| sampleRate := 44100;
                          channels := [[f32_one; f32_neg_one; f32_zero; f32_one]] |} 1 3
      = Normal mono /\
    Z.of_nat (length mono) = 3 - 1 /\
    mono = take (Z.to_nat (3 - 1)) (drop (Z.to_nat 1) [f32_one; f32_neg_one; f32_zero; f32_one]) /\
    forall i, 0 <= i < 3 - 1 ->
      ta_get mono i = ta_get [f32_one; f32_neg_one; f32_zero; f32_one] (1 + i).
Proof.
  apply (C6_single_channel_copy
           {| sampleRate := 44100;
              channels := [[f32_one; f32_neg_one; f32_zero; f32_one]] |}
           [f32_one; f32_neg_one; f32_zero; f32_one] 1 3).
  - reflexivity.
  - lia.
  - cbn. lia.
Defined.

(* ================================================================= *)
(** ** The multi-channel downmix *)

(** C5 as stated fails.  Ten channels that all hold the sample 1.0 are
    downmixed to 8388609 * 2^-23 (about 1.00000012), not to 1.0; and two
    channels that hold the smallest positive binary32 value 2^-149 are
    downmixed to 0. *)
Lemma C5_identical_channels_drift :
  extractMonoSamples {| sampleRate := 44100; channels := replicate 10 [f32_one] |} 0 1
  = Normal [S754_finite false 8388609 (-23)] /\
  S754_finite false 8388609 (-23) <> f32_one /\
  extractMonoSamples {| sampleRate := 44100;
                        channels := replicate 2 [S754_finite false 1 (-149)] |} 0 1
  = Normal [S754_zero false].
Proof.
  split; [vm_compute; reflexivity|].
  split; [discriminate | vm_compute; reflexivity].
Qed.

(** C5, as the code has it.  With two channels that hold identical
    samples, each of them [+0] or a finite binary32 value of magnitude at
    least 2^-125, downmixing a valid range returns exactly the samples
    of the range: halving and adding twice loses no bit. *)
Theorem C5_two_identical_channels_exact (buffer : AudioBuffer) (data : Float32Array)
    (startIndex endIndex : Z) :
  channels buffer = [data; data] ->
  0 <= startIndex <= endIndex -> endIndex <= Z.of_nat (length data) ->
  Forall (fun x => f32_half_exact x = true)
         (take (Z.to_nat (endIndex - startIndex)) (drop (Z.to_nat startIndex) data)) ->
  extractMonoSamples buffer startIndex endIndex
  = Normal (take (Z.to_nat (endIndex - startIndex)) (drop (Z.to_nat startIndex) data)).
Proof.
  intros Hch Hs He Hall.
  rewrite <- (subarray_in_range data startIndex endIndex) in * by lia.
  pose proof (subarray_length data startIndex endIndex ltac:(lia) ltac:(lia)) as Hlen.
  unfold extractMonoSamples, numberOfChannels, new_Float32Array.
  rewrite Hch. cbn [length Z.of_nat Pos.of_succ_nat Pos.succ Z.eqb Pos.eqb].
  destruct (Z.ltb_spec (endIndex - startIndex) 0); [lia|].
  cbn [mbind completion_bind fold_left]. f_equal.
  change (Z.of_nat 2) with 2.
  rewrite <- Hlen, Nat2Z.id.
  rewrite (accumulate_channel_zip 2 (replicate _ _))
    by (rewrite length_replicate; reflexivity).
  rewrite accumulate_channel_zip
    by (rewrite length_zip_with, length_replicate; lia).
  apply mix_two_channels, Hall.
Qed.

Lemma C5_two_channels_witness :
  extractMonoSamples
    {| sampleRate := 48000;
       channels := [[f32_one; f32_neg_one; f32_zero]; [f32_one; f32_neg_one; f32_zero]] |}
    0 3
  = Normal [f32_one; f32_neg_one; f32_zero].
Proof.
  apply (C5_two_identical_channels_exact
           {| sampleRate := 48000;
              channels := [[f32_one; f32_neg_one; f32_zero];
                           [f32_one; f32_neg_one; f32_zero]] |}
           [f32_one; f32_neg_one; f32_zero] 0 3).
  - reflexivity.
  - lia.
  - cbn. lia.
  - repeat constructor.
Defined.

(* ================================================================= *)
(** ** The per-file pipeline and the batch runner *)

(** C7, as the code has it.  When the zero-cross-adjusted end index is
    not greater than the adjusted start index, [processSingleFile] logs
    the start line and one error line that names the file (the adjusted
    indices are not part of it), returns normally without downmix,
    encode or download, and the loop goes on with the next file. *)
Theorem C7_rejected_range_fails_file
    (dec : list Z -> completion AudioBuffer)
    (ogg : option (Z -> Z -> Z -> Float32Array -> list Z))
    (mp3 : option (Z -> Z -> Z -> list Z -> list Z * list Z))
    (file : File) (params : Params) (buffer : AudioBuffer)
    (startIdx endIdx : Z) (w : World) (rest : list File) :
  dec (file_bytes file) = Normal buffer ->
  adjusted_indices buffer params = (Some startIdx, Some endIdx) ->
  endIdx <= startIdx ->
  let w' := {| log_lines := log_lines w ++ [LogStart (file_name file);
                                             LogRangeError (file_name file)];
               downloads := downloads w |} in
  processSingleFile dec ogg mp3 file params w = (Normal tt, w') /\
  result_of_segment (file_segment dec ogg mp3 file params)
    = Some (Failure (LogRangeError (file_name file))) /\
  process_files dec ogg mp3 (file :: rest) params w
    = process_files dec ogg mp3 rest params w'.
Proof.
  intros Hdec Hadj Hle w'.
  assert (Hone : forall w0, processSingleFile dec ogg mp3 file params w0
            = (Normal tt, log (log w0 (LogStart (file_name file)))
                              (LogRangeError (file_name file)))).
  { intros w0. unfold processSingleFile. rewrite Hdec, Hadj. cbn [int_leb].
    destruct (Z.leb_spec endIdx startIdx); [reflexivity | lia]. }
  assert (Hw' : log (log w (LogStart (file_name file))) (LogRangeError (file_name file)) = w').
  { unfold log, w'. cbn. rewrite <- app_assoc. reflexivity. }
  split; [|split].
  - rewrite Hone, Hw'. reflexivity.
  - unfold file_segment. cbn [process_files]. rewrite Hone. reflexivity.
  - cbn [process_files]. rewrite Hone, Hw'. reflexivity.
Qed.

Lemma C7_rejected_range_witness :
  processSingleFile example_decoder None None
    {| file_name := "a.wav"; file_bytes := [1] |} (example_params 5 6) empty_world
  = (Normal tt, {| log_lines := [LogStart "a.wav"; LogRangeError "a.wav"];
                   downloads := [] |}).
Proof.
  apply (C7_rejected_range_fails_file example_decoder None None
           {| file_name := "a.wav"; file_bytes := [1] |} (example_params 5 6)
           (example_buffer 4) 3 3 empty_world []).
  - reflexivity.
  - vm_compute. reflexivity.
  - lia.
Defined.

(** C7 as stated fails: two recordings rejected with different adjusted
    indices, (3, 3) and (1, 1), leave the same lines on the page, so the
    failure does not report the adjusted indices. *)
Lemma C7_indices_not_reported :
  adjusted_indices (example_buffer 4) (example_params 5 6) = (Some 3, Some 3) /\
  adjusted_indices (example_buffer 2) (example_params 5 6) = (Some 1, Some 1) /\
  log_lines (file_segment example_decoder None None
               {| file_name := "a.wav"; file_bytes := [1] |} (example_params 5 6))
  = [LogStart "a.wav"; LogRangeError "a.wav"] /\
  log_lines (file_segment example_decoder None None
               {| file_name := "a.wav"; file_bytes := [2] |} (example_params 5 6))
  = [LogStart "a.wav"; LogRangeError "a.wav"] /\
  ~ rejection_reports_indices example_decoder.
Proof.
  assert (H1 : adjusted_indices (example_buffer 4) (example_params 5 6) = (Some 3, Some 3))
    by (vm_compute; reflexivity).
  assert (H2 : adjusted_indices (example_buffer 2) (example_params 5 6) = (Some 1, Some 1))
    by (vm_compute; reflexivity).
  split; [exact H1|]. split; [exact H2|].
  split; [vm_compute; reflexivity|]. split; [vm_compute; reflexivity|].
  intros [read Hread].
  pose proof (Hread {| file_name := "a.wav"; file_bytes := [1] |} (example_params 5 6)
                (example_buffer 4) 3 3 eq_refl H1 ltac:(lia)) as Ha.
  pose proof (Hread {| file_name := "a.wav"; file_bytes := [2] |} (example_params 5 6)
                (example_buffer 2) 1 1 eq_refl H2 ltac:(lia)) as Hb.
  change (log_lines (file_segment example_decoder None None
            {| file_name := "a.wav"; file_bytes := [2] |} (example_params 5 6)))
    with (log_lines (file_segment example_decoder None None
            {| file_name := "a.wav"; file_bytes := [1] |} (example_params 5 6))) in Hb.
  rewrite Ha in Hb. discriminate Hb.
Qed.

(** C8.  For every batch, the loop over the files leaves on the page
    exactly one result per file, in input order: the result lines added
    to the log and the downloads added are those of the files' own
    results, where the result of a file is what that file alone produces
    on an empty page (so no failure of another file changes, drops or
    reorders it); a file whose decoding fails has a failure result with
    its name and the error text; and a click with at least one file and
    valid times shows exactly these results. *)
Theorem C8_one_result_per_file_in_order
    (dec : list Z -> completion AudioBuffer)
    (ogg : option (Z -> Z -> Z -> Float32Array -> list Z))
    (mp3 : option (Z -> Z -> Z -> list Z -> list Z * list Z))
    (files : list File) (params : Params) (w : World) :
  exists results : list RunResult,
    length results = length files /\
    Forall2 (fun f r =>
               result_of_segment (file_segment dec ogg mp3 f params) = Some r)
            files results /\
    List.filter is_result_line (log_lines (process_files dec ogg mp3 files params w))
    = List.filter is_result_line (log_lines w) ++ map result_line results /\
    downloads (process_files dec ogg mp3 files params w)
    = downloads w ++ flat_map result_downloads results /\
    (forall i f e, files !! i = Some f -> dec (file_bytes f) = Throw e ->
       results !! i = Some (Failure (LogCaught (file_name f) (error_text e)))) /\
    (forall inp : Inputs,
       in_files inp = files -> batch_params inp = params -> files <> [] ->
       num_gt (in_endSec inp) (in_startSec inp) = true ->
       List.filter is_result_line (log_lines (runBtn_click dec ogg mp3 inp w))
       = map result_line results /\
       downloads (runBtn_click dec ogg mp3 inp w)
       = downloads w ++ flat_map result_downloads results).
Proof.
  destruct (segments_results dec ogg mp3 files params)
    as (rs & Hlen & Hall & Hlog & Hdl & Hfail).
  exists rs. split; [exact Hlen|]. split; [exact Hall|].
  split; [|split; [|split; [exact Hfail|]]].
  - rewrite process_files_segments. cbn [log_lines].
    rewrite List.filter_app, Hlog. reflexivity.
  - rewrite process_files_segments. cbn [downloads]. rewrite Hdl. reflexivity.
  - intros inp Hfiles Hparams Hne Hgt.
    assert (Hrun : runBtn_click dec ogg mp3 inp w
                   = log (process_files dec ogg mp3 files params
                            (log (log (clear_log w)
                                    (LogFileCount (Z.of_nat (length files))))
                               (LogSettings (in_startSec inp) (in_endSec inp)
                                  (in_searchRadius inp) (in_outFormat inp))))
                         LogAllDone).
    { unfold runBtn_click. cbv zeta. rewrite <- Hparams, Hfiles.
      destruct files as [|f fs]; [congruence|].
      cbn [length Nat.eqb]. rewrite Hgt. reflexivity. }
    rewrite Hrun, process_files_segments. cbn [log log_lines downloads clear_log].
    split.
    + rewrite !List.filter_app, Hlog. cbn. apply app_nil_r.
    + rewrite Hdl. reflexivity.
Qed.

Lemma C8_three_files_witness :
  List.filter is_result_line
    (log_lines (runBtn_click example_decoder None None
                  (example_inputs example_batch 0 1) empty_world))
  = [LogDone "a_loop.wav";
     LogCaught "b.mp3" "Unable to decode audio data";
     LogDone "c_loop.wav"] /\
  map fst (downloads (runBtn_click example_decoder None None
                        (example_inputs example_batch 0 1) empty_world))
  = ["a_loop.wav"; "c_loop.wav"]%string.
Proof.
  destruct (C8_one_result_per_file_in_order example_decoder None None
              example_batch (batch_params (example_inputs example_batch 0 1))
              empty_world)
    as (rs & Hlen & Hall & _ & _ & Hfail & Hclick).
  destruct (Hclick (example_inputs example_batch 0 1))
    as [Hlog Hdl]; [reflexivity | reflexivity | discriminate | reflexivity |].
  rewrite Hlog, Hdl.
  destruct rs as [|r1 [|r2 [|r3 [|r4 rs]]]]; try discriminate Hlen.
  apply Forall2_cons_1 in Hall as [H1 Hall].
  apply Forall2_cons_1 in Hall as [H2 Hall].
  apply Forall2_cons_1 in Hall as [H3 _].
  vm_compute in H1. vm_compute in H2. vm_compute in H3.
  injection H1 as <-. injection H2 as <-. injection H3 as <-.
  split; reflexivity.
Defined.

(** C9.  Before any file is processed the click handler validates the
    whole batch: with no file selected, or with an end time that is not
    strictly greater than the start time (NaN included), it only logs
    one message and processes no file; otherwise every file is processed
    with the Vorbis quality replaced by 3 when it is NaN and then
    clamped to [[0, 10]]. *)
Theorem C9_validation_before_processing
    (dec : list Z -> completion AudioBuffer)
    (ogg : option (Z -> Z -> Z -> Float32Array -> list Z))
    (mp3 : option (Z -> Z -> Z -> list Z -> list Z * list Z))
    (inp : Inputs) (w : World) :
  (in_files inp = [] ->
     runBtn_click dec ogg mp3 inp w
     = {| log_lines := [LogNoFiles]; downloads := downloads w |}) /\
  (in_files inp <> [] -> num_gt (in_endSec inp) (in_startSec inp) = false ->
     runBtn_click dec ogg mp3 inp w
     = {| log_lines := [LogBadTimes]; downloads := downloads w |}) /\
  (in_files inp <> [] -> num_gt (in_endSec inp) (in_startSec inp) = true ->
     runBtn_click dec ogg mp3 inp w
     = log (process_files dec ogg mp3 (in_files inp)
              {| startSec := in_startSec inp; endSec := in_endSec inp;
                 searchRadius := in_searchRadius inp; outFormat := in_outFormat inp;
                 oggQuality := normalize_quality (in_oggQuality inp) |}
              {| log_lines := [LogFileCount (Z.of_nat (length (in_files inp)));
                               LogSettings (in_startSec inp) (in_endSec inp)
                                 (in_searchRadius inp) (in_outFormat inp)];
                 downloads := downloads w |})
           LogAllDone) /\
  normalize_quality None = 3 /\
  (forall q, 0 <= normalize_quality q <= 10) /\
  (forall q, 0 <= q <= 10 -> normalize_quality (Some q) = q) /\
  (forall q, q < 0 -> normalize_quality (Some q) = 0) /\
  (forall q, 10 < q -> normalize_quality (Some q) = 10).
Proof.
  unfold runBtn_click. cbv zeta.
  split; [|split; [|split; [|split; [|split; [|split; [|split]]]]]].
  - intros ->. reflexivity.
  - intros Hne Hgt. destruct (in_files inp); [congruence|].
    cbn [length Nat.eqb]. rewrite Hgt. reflexivity.
  - intros Hne Hgt. destruct (in_files inp); [congruence|].
    cbn [length Nat.eqb]. rewrite Hgt. reflexivity.
  - reflexivity.
  - intros [q|]; unfold normalize_quality; lia.
  - intros q Hq. unfold normalize_quality. lia.
  - intros q Hq. unfold normalize_quality. lia.
  - intros q Hq. unfold normalize_quality. lia.
Qed.

Lemma C9_validation_witness :
  runBtn_click example_decoder None None (example_inputs [] 0 1) empty_world
  = {| log_lines := [LogNoFiles]; downloads := [] |} /\
  runBtn_click example_decoder None None (example_inputs example_batch 2 2) empty_world
  = {| log_lines := [LogBadTimes]; downloads := [] |} /\
  normalize_quality (Some 7) = 7 /\
  normalize_quality (Some (-4)) = 0 /\
  normalize_quality (Some 25) = 10.
Proof.
  destruct (C9_validation_before_processing example_decoder None None
              (example_inputs [] 0 1) empty_world)
    as (Hnone & _ & _ & _ & _ & Hid & Hlow & Hhigh).
  destruct (C9_validation_before_processing example_decoder None None
              (example_inputs example_batch 2 2) empty_world)
    as (_ & Hbad & _).
  split; [apply Hnone; reflexivity|].
  split; [apply Hbad; [discriminate | reflexivity]|].
  split; [apply Hid; lia|].
  split; [apply Hlow; lia | apply Hhigh; lia].
Defined.
(* ================================================================= *)
(** ** Floating point: the distances of line 25 *)

Lemma for_range_bounds (lo hi i : Z) : In i (for_range lo hi) -> lo <= i <= hi.
Proof.
  unfold for_range. rewrite in_map_iff. intros (k & <- & Hk).
  apply in_seq in Hk. lia.
Qed.

(** An integer below 2^53, at whatever alignment, rounds to its
    canonical binary64 form. *)
Lemma binary_round_int (s : bool) (p : positive) (j : Z) :
  Zpos p < 2 ^ 53 -> 0 <= j ->
  binary_round prec64 emax64 s (pshift p j) (- j) = canon64 s p.
Proof.
  intros Hp Hj. pose proof (digits2_pos_le p 53 Hp) as Hd.
  assert (Hd1 : 1 <= Zpos (digits2_pos p)) by lia.
  unfold binary_round, shl_align, canon64.
  rewrite digits2_pos_pshift by lia.
  set (d := Zpos (digits2_pos p)) in *.
  replace (fexp prec64 emax64 (d + j + - j)) with (d - 53)
    by (unfold fexp, emin, prec64, emax64; lia).
  destruct (d - 53 - - j) as [|k|k] eqn:Hk.
  - replace (- j) with (0 - j) by lia. replace (d - 53) with (0 + d - 53) by lia.
    apply binary_round_aux_canonical; fold d; lia.
  - replace (- j) with (0 - j) by lia. replace (d - 53) with (0 + d - 53) by lia.
    apply binary_round_aux_canonical; fold d; lia.
  - assert (Hsplit : @Pos.iter positive xO (pshift p j) k = pshift p (53 - d)).
    { apply pshift_unique; [lia|].
      rewrite Zpos_iter_xO, Zpos_pshift by lia.
      rewrite <- Z.mul_assoc, <- Z.pow_add_r by lia. do 2 f_equal. lia. }
    rewrite Hsplit. apply binary_round_aux_fits.
    + rewrite digits2_pos_pshift by lia. fold d.
      unfold fexp, emin, prec64, emax64. lia.
    + unfold prec64, emax64. lia.
Qed.

Lemma num_of_Z_pos (p : positive) :
  Zpos p < 2 ^ 53 -> num_of_Z (Zpos p) = canon64 false p.
Proof. intros Hp. apply (binary_round_int false p 0); [exact Hp | lia]. Qed.

Lemma num_of_Z_neg (p : positive) :
  Zpos p < 2 ^ 53 -> num_of_Z (Zneg p) = canon64 true p.
Proof. intros Hp. apply (binary_round_int true p 0); [exact Hp | lia]. Qed.

Lemma binary_normalize_int (c K e : Z) :
  Z.abs c < 2 ^ 53 -> 0 <= K -> e = - K ->
  binary_normalize prec64 emax64 (c * 2 ^ K) e false = num_of_Z c.
Proof.
  intros Hc HK ->. destruct c as [|p|p].
  - reflexivity.
  - rewrite <- Zpos_pshift by exact HK. cbn [binary_normalize].
    rewrite binary_round_int by lia. symmetry. apply num_of_Z_pos. lia.
  - change (Zneg p) with (- Zpos p). rewrite Z.mul_opp_l, <- Zpos_pshift by exact HK.
    change (- Zpos (pshift p K)) with (Zneg (pshift p K)).
    change (- Zpos p) with (Zneg p). cbn [binary_normalize].
    rewrite binary_round_int by lia. symmetry. apply num_of_Z_neg. lia.
Qed.

Lemma shl_align_value (m : positive) (e ez : Z) :
  ez <= e -> Zpos (fst (shl_align m e ez)) = Zpos m * 2 ^ (e - ez).
Proof.
  intros He. unfold shl_align. destruct (ez - e) as [|k|k] eqn:Hk; cbn [fst]; try lia.
  - replace (e - ez) with 0 by lia. lia.
  - rewrite Zpos_iter_xO. do 2 f_equal. lia.
Qed.

(** The difference of two integers below 2^53 is exact when it is
    itself below 2^53. *)
Lemma num_sub_canon (sa sb : bool) (pa pb : positive) :
  Zpos pa < 2 ^ 53 -> Zpos pb < 2 ^ 53 ->
  Z.abs (cond_Zopp sa (Zpos pa) - cond_Zopp sb (Zpos pb)) < 2 ^ 53 ->
  num_sub (canon64 sa pa) (canon64 sb pb)
  = num_of_Z (cond_Zopp sa (Zpos pa) - cond_Zopp sb (Zpos pb)).
Proof.
  intros Ha Hb Hc.
  pose proof (digits2_pos_le pa 53 Ha) as Hda.
  pose proof (digits2_pos_le pb 53 Hb) as Hdb.
  unfold num_sub, canon64, SFsub.
  set (da := Zpos (digits2_pos pa)) in *. set (db := Zpos (digits2_pos pb)) in *.
  set (ez := Z.min (da - 53) (db - 53)).
  rewrite !shl_align_value by (unfold ez; lia).
  rewrite !Zpos_pshift by lia.
  assert (HA : Zpos pa * 2 ^ (53 - da) * 2 ^ (da - 53 - ez) = Zpos pa * 2 ^ (- ez)).
  { rewrite <- Z.mul_assoc, <- Z.pow_add_r by (unfold ez; lia). do 2 f_equal. lia. }
  assert (HB : Zpos pb * 2 ^ (53 - db) * 2 ^ (db - 53 - ez) = Zpos pb * 2 ^ (- ez)).
  { rewrite <- Z.mul_assoc, <- Z.pow_add_r by (unfold ez; lia). do 2 f_equal. lia. }
  rewrite HA, HB.
  replace (cond_Zopp sa (Zpos pa * 2 ^ (- ez)) - cond_Zopp sb (Zpos pb * 2 ^ (- ez)))
    with ((cond_Zopp sa (Zpos pa) - cond_Zopp sb (Zpos pb)) * 2 ^ (- ez))
    by (destruct sa, sb; cbn [cond_Zopp]; ring).
  apply binary_normalize_int; [exact Hc | unfold ez; lia | lia].
Qed.

Lemma num_sub_exact (a b : Z) :
  Z.abs a < 2 ^ 53 -> Z.abs b < 2 ^ 53 -> Z.abs (a - b) < 2 ^ 53 ->
  num_sub (num_of_Z a) (num_of_Z b) = num_of_Z (a - b).
Proof.
  intros Ha Hb Hc.
  destruct a as [|pa|pa], b as [|pb|pb];
    rewrite ?num_of_Z_pos, ?num_of_Z_neg by lia; try reflexivity.
  - change (0 - Zpos pb) with (Zneg pb). rewrite num_of_Z_neg by lia. reflexivity.
  - change (0 - Zneg pb) with (Zpos pb). rewrite num_of_Z_pos by lia. reflexivity.
  - rewrite Z.sub_0_r, num_of_Z_pos by lia. reflexivity.
  - apply (num_sub_canon false false); trivial; lia.
  - apply (num_sub_canon false true); trivial; lia.
  - rewrite Z.sub_0_r, num_of_Z_neg by lia. reflexivity.
  - apply (num_sub_canon true false); trivial; lia.
  - apply (num_sub_canon true true); trivial; lia.
Qed.

Lemma Math_abs_of_Z (c : Z) :
  Z.abs c < 2 ^ 53 -> Math_abs (num_of_Z c) = num_of_Z (Z.abs c).
Proof.
  intros Hc. destruct c as [|p|p].
  - reflexivity.
  - change (Z.abs (Zpos p)) with (Zpos p). rewrite num_of_Z_pos by lia. reflexivity.
  - change (Z.abs (Zneg p)) with (Zpos p).
    rewrite num_of_Z_pos, num_of_Z_neg by lia. reflexivity.
Qed.

(** Line 25: the distance is the exact integer. *)
Lemma distance_exact (idx target : Z) :
  Z.abs idx < 2 ^ 53 -> Z.abs target < 2 ^ 53 -> Z.abs (idx - target) < 2 ^ 53 ->
  Math_abs (num_sub (num_of_Z idx) (num_of_Z target)) = num_of_Z (Z.abs (idx - target)).
Proof.
  intros Hi Ht Hd. rewrite num_sub_exact by assumption. apply Math_abs_of_Z, Hd.
Qed.

(** Line 26: the comparison of two distances is that of the integers. *)
Lemma num_lt_of_Z (a b : Z) :
  0 <= a < 2 ^ 53 -> 0 <= b < 2 ^ 53 ->
  num_lt (num_of_Z a) (num_of_Z b) = (a <? b).
Proof.
  intros Ha Hb.
  destruct a as [|pa|pa], b as [|pb|pb]; try lia;
    rewrite ?num_of_Z_pos by lia; try reflexivity.
  unfold canon64, num_lt. rewrite SFltb_finite_pos.
  pose proof (digits2_pos_le pa 53 ltac:(lia)) as Hda.
  pose proof (digits2_pos_le pb 53 ltac:(lia)) as Hdb.
  pose proof (digits2_pos_bounds pa) as [Hla Hua].
  pose proof (digits2_pos_bounds pb) as [Hlb Hub].
  rewrite !Zpos_pshift by lia.
  set (da := Zpos (digits2_pos pa)) in *. set (db := Zpos (digits2_pos pb)) in *.
  destruct (Z.ltb_spec (da - 53) (db - 53)) as [Hlt | Hge]; cbn [orb].
  - symmetry. apply Z.ltb_lt.
    assert (2 ^ da <= 2 ^ (db - 1)) by (apply Z.pow_le_mono_r; lia). lia.
  - destruct (Z.eqb_spec (da - 53) (db - 53)) as [Heq | Hne]; cbn [andb].
    + replace db with da by lia.
      assert (0 < 2 ^ (53 - da)) by (apply Z.pow_pos_nonneg; lia).
      destruct (Z.ltb_spec (Zpos pa * 2 ^ (53 - da)) (Zpos pb * 2 ^ (53 - da)));
        destruct (Z.ltb_spec (Zpos pa) (Zpos pb)); trivial; nia.
    + symmetry. apply Z.ltb_ge.
      assert (2 ^ db <= 2 ^ (da - 1)) by (apply Z.pow_le_mono_r; lia). lia.
Qed.

Lemma num_lt_infinity (a : Z) :
  0 <= a < 2 ^ 53 -> num_lt (num_of_Z a) num_infinity = true.
Proof.
  intros Ha. destruct a as [|p|p]; try lia; rewrite ?num_of_Z_pos by lia; reflexivity.
Qed.

(** One iteration of the two scans, from states that stand for each
    other. *)
Lemma scan_step_f64_exact (s : Float32Array) (t : Z)
    (st : scan_state) (st' : Z * number) (i : Z) :
  Z.abs t < 2 ^ 52 -> 0 <= i < 2 ^ 52 ->
  fst st = fst st' -> dist_rel (snd st) (snd st') ->
  fst (scan_step s t st i) = fst (scan_step_f64 s t st' i) /\
  dist_rel (snd (scan_step s t st i)) (snd (scan_step_f64 s t st' i)).
Proof.
  intros Ht Hi Hfst Hrel. unfold scan_step, scan_step_f64.
  destruct (crossingAt s i); [|split; assumption]. cbv zeta.
  rewrite distance_exact by lia.
  destruct st as [b [d|]], st' as [b' x]; cbn [fst snd dist_rel dist_lt] in *.
  - destruct Hrel as [Hd ->]. rewrite num_lt_of_Z by lia.
    destruct (Z.abs (i - t) <? d); cbn [fst snd dist_rel]; split; trivial.
    + split; [lia | reflexivity].
    + split; [lia | reflexivity].
  - subst x. rewrite num_lt_infinity by lia. cbn [fst snd dist_rel].
    split; [reflexivity|]. split; [lia | reflexivity].
Qed.

Lemma scan_f64_exact (s : Float32Array) (t : Z) (l : list Z) :
  Z.abs t < 2 ^ 52 -> (forall i, In i l -> 0 <= i < 2 ^ 52) ->
  forall (st : scan_state) (st' : Z * number),
    fst st = fst st' -> dist_rel (snd st) (snd st') ->
    fst (fold_left (scan_step s t) l st) = fst (fold_left (scan_step_f64 s t) l st').
Proof.
  intros Ht. induction l as [|i l IH]; intros Hl st st' Hfst Hrel; cbn [fold_left].
  - exact Hfst.
  - destruct (scan_step_f64_exact s t st st' i Ht) as [Hfst' Hrel']; trivial.
    + apply Hl. left. reflexivity.
    + apply IH; trivial. intros k Hk. apply Hl. right. exact Hk.
Qed.

(** For a target and a length below 2^52 the scan with the distances of
    the engine returns the index of the scan with exact distances. *)
Lemma findNearestZeroCross_f64_exact (s : Float32Array) (target r : Z) :
  Z.abs target < 2 ^ 52 -> Z.of_nat (length s) <= 2 ^ 52 ->
  findNearestZeroCross_f64 s target r = findNearestZeroCross s target r.
Proof.
  intros Ht Hn. unfold findNearestZeroCross_f64, findNearestZeroCross.
  destruct (Z.of_nat (length s) <? 2); [reflexivity|]. cbv zeta.
  symmetry. apply scan_f64_exact; trivial; [|reflexivity].
  intros i Hi. apply for_range_bounds in Hi. lia.
Qed.

(** Outside that range the two differ: for a target of 2^60 the three
    distances to the crossings 0, 4 and 5 all round to 2^60, and the
    engine keeps the first crossing, which is the farthest. *)
Lemma findNearestZeroCross_f64_far_target :
  findNearestZeroCross_f64 far_target_signal (2 ^ 60) (2 ^ 61) = 0 /\
  findNearestZeroCross far_target_signal (2 ^ 60) (2 ^ 61) = 5.
Proof. split; vm_compute; reflexivity. Qed.


(* ================================================================= *)
(** ** More on the zero-cross locator *)

Lemma findNearestZeroCross_at_crossing (s : Float32Array) (t r : Z) :
  0 <= r -> 0 <= t <= Z.of_nat (length s) - 2 -> crossingAt s t = true ->
  findNearestZeroCross s t r = t.
Proof.
  intros Hr Ht Hc.
  assert (Hin : in_window s t r t) by (unfold in_window, window_lo, window_hi; lia).
  destruct (findNearestZeroCross_spec s t r) as [[Heq _] | (_ & _ & Hmin)]; [exact Heq|].
  destruct (Hmin t Hin Hc) as [Hle _]. lia.
Qed.

Lemma fold_left_ext_in {A B} (f g : A -> B -> A) (l : list B) :
  (forall a x, In x l -> f a x = g a x) ->
  forall a, fold_left f l a = fold_left g l a.
Proof.
  induction l as [|x l IH]; intros Hfg a; cbn [fold_left].
  - reflexivity.
  - rewrite (Hfg a x) by (left; reflexivity).
    apply IH. intros a' y Hy. apply Hfg. right. exact Hy.
Qed.

(** X1.  For a target and a length below 2^52, where the binary64
    distances of lines 25-26 are the exact ones
    ([findNearestZeroCross_f64_exact]): when the scan window holds a
    crossing, the index returned is itself a crossing of the window, and
    no crossing of the window is strictly nearer to the target. *)
Theorem X1_result_is_nearest_crossing (s : Float32Array) (target r : Z) :
  Z.abs target < 2 ^ 52 -> Z.of_nat (length s) <= 2 ^ 52 ->
  (exists i, in_window s target r i /\ crossingAt s i = true) ->
  in_window s target r (findNearestZeroCross s target r) /\
  crossingAt s (findNearestZeroCross s target r) = true /\
  forall i, in_window s target r i -> crossingAt s i = true ->
    Z.abs (findNearestZeroCross s target r - target) <= Z.abs (i - target).
Proof.
  intros _ _ (i & Hi & Hc).
  destruct (findNearestZeroCross_spec s target r) as [[_ Hnone] | (Hw & Hcr & Hmin)].
  - rewrite Hnone in Hc by exact Hi. discriminate.
  - split; [exact Hw|]. split; [exact Hcr|].
    intros k Hk Hck. apply Hmin; assumption.
Qed.

Lemma X1_nearest_witness :
  in_window [f32_one; f32_one; f32_neg_one; f32_zero; f32_one] 0 4
    (findNearestZeroCross [f32_one; f32_one; f32_neg_one; f32_zero; f32_one] 0 4) /\
  crossingAt [f32_one; f32_one; f32_neg_one; f32_zero; f32_one]
    (findNearestZeroCross [f32_one; f32_one; f32_neg_one; f32_zero; f32_one] 0 4) = true /\
  forall i, in_window [f32_one; f32_one; f32_neg_one; f32_zero; f32_one] 0 4 i ->
    crossingAt [f32_one; f32_one; f32_neg_one; f32_zero; f32_one] i = true ->
    Z.abs (findNearestZeroCross [f32_one; f32_one; f32_neg_one; f32_zero; f32_one] 0 4 - 0)
    <= Z.abs (i - 0).
Proof.
  apply (X1_result_is_nearest_crossing
           [f32_one; f32_one; f32_neg_one; f32_zero; f32_one] 0 4).
  - reflexivity.
  - cbn. lia.
  - exists 2. split; [vm_compute; split; discriminate | reflexivity].
Defined.

(** X2.  With a search radius of zero or less the target always comes
    back, whether or not it is a crossing; so with such a radius, or
    with a NaN radius, the adjusted indices of a file are its raw
    indices. *)
Theorem X2_no_radius_keeps_target (s : Float32Array) (target r : Z)
    (buffer : AudioBuffer) (params : Params) :
  (r <= 0 -> findNearestZeroCross s target r = target) /\
  (searchRadius params = None \/
   (exists r', searchRadius params = Some r' /\ r' <= 0) ->
   adjusted_indices buffer params = raw_indices buffer params).
Proof.
  assert (Hkeep : forall s' t' r', r' <= 0 -> findNearestZeroCross s' t' r' = t').
  { intros s' t' r' Hr.
    destruct (findNearestZeroCross_spec s' t' r') as [[Heq _] | (Hw & _ & _)];
      [exact Heq|].
    unfold in_window, window_lo, window_hi in Hw. lia. }
  split; [apply Hkeep|].
  unfold adjusted_indices, raw_indices. cbv zeta.
  intros [Hnan | (r' & Hsome & Hr')].
  - rewrite Hnan. unfold findNearestZeroCross_num.
    destruct (rawIndex _ (num_mul (startSec params) _)),
             (rawIndex _ (num_mul (endSec params) _)); reflexivity.
  - rewrite Hsome. unfold findNearestZeroCross_num.
    destruct (rawIndex _ (num_mul (startSec params) _)),
             (rawIndex _ (num_mul (endSec params) _));
      rewrite ?Hkeep by exact Hr'; reflexivity.
Qed.

Lemma X2_no_radius_witness :
  findNearestZeroCross [f32_one; f32_zero; f32_one] 0 0 = 0 /\
  adjusted_indices (example_buffer 8) (example_params 0 1)
  = raw_indices (example_buffer 8) (example_params 0 1).
Proof.
  destruct (X2_no_radius_keeps_target [f32_one; f32_zero; f32_one] 0 0
              (example_buffer 8) (example_params 0 1)) as [Hkeep Hraw].
  split.
  - apply Hkeep. lia.
  - apply Hraw. right. exists 0. split; [reflexivity | lia].
Defined.

(** X3.  Searching again from the index returned, with the same radius,
    returns that index: the adjustment is idempotent. *)
Theorem X3_search_is_idempotent (s : Float32Array) (target r : Z) :
  findNearestZeroCross s (findNearestZeroCross s target r) r
  = findNearestZeroCross s target r.
Proof.
  destruct (findNearestZeroCross_spec s target r) as [[Heq _] | (Hw & Hc & _)].
  - rewrite Heq. exact Heq.
  - unfold in_window, window_lo, window_hi in Hw.
    apply findNearestZeroCross_at_crossing; [lia | lia | exact Hc].
Qed.

Lemma findNearestZeroCross_monotone (s : Float32Array) (t1 t2 r : Z) :
  t1 <= t2 -> findNearestZeroCross s t1 r <= findNearestZeroCross s t2 r.
Proof.
  intros Ht.
  destruct (findNearestZeroCross_spec s t1 r) as [[Heq1 Hnone1] | (Hw1 & Hc1 & Hmin1)];
    destruct (findNearestZeroCross_spec s t2 r) as [[Heq2 Hnone2] | (Hw2 & Hc2 & Hmin2)].
  - lia.
  - rewrite Heq1.
    destruct (Z.le_gt_cases t1 (findNearestZeroCross s t2 r)) as [|Hlt]; trivial.
    rewrite Hnone1 in Hc2; [discriminate|].
    unfold in_window, window_lo, window_hi in *. lia.
  - rewrite Heq2.
    destruct (Z.le_gt_cases (findNearestZeroCross s t1 r) t2) as [|Hlt]; trivial.
    rewrite Hnone2 in Hc1; [discriminate|].
    unfold in_window, window_lo, window_hi in *. lia.
  - set (c1 := findNearestZeroCross s t1 r) in *.
    set (c2 := findNearestZeroCross s t2 r) in *.
    destruct (Z.le_gt_cases c1 c2) as [|Hlt]; trivial.
    assert (Hin12 : in_window s t1 r c2)
      by (unfold in_window, window_lo, window_hi in *; lia).
    assert (Hin21 : in_window s t2 r c1)
      by (unfold in_window, window_lo, window_hi in *; lia).
    destruct (Hmin1 c2 Hin12 Hc2) as [Hle1 Hfirst1].
    destruct (Hmin2 c1 Hin21 Hc1) as [Hle2 Hfirst2].
    lia.
Qed.

(** X4.  For targets and a length below 2^52 (where the binary64
    distances of lines 25-26 are the exact ones) the search is monotone
    in the target: a later target never yields an earlier index.  So the
    adjustment never swaps the two ends of a file's range: a raw start
    index that is not above the raw end index gives an adjusted start
    index that is not above the adjusted end index. *)
Theorem X4_search_is_monotone (s : Float32Array) (t1 t2 r : Z)
    (buffer : AudioBuffer) (params : Params) (rawStart rawEnd : Z) :
  (Z.abs t1 < 2 ^ 52 -> Z.abs t2 < 2 ^ 52 -> Z.of_nat (length s) <= 2 ^ 52 ->
   t1 <= t2 -> findNearestZeroCross s t1 r <= findNearestZeroCross s t2 r) /\
  (raw_indices buffer params = (Some rawStart, Some rawEnd) -> rawStart <= rawEnd ->
   exists startIdx endIdx,
     adjusted_indices buffer params = (Some startIdx, Some endIdx) /\
     startIdx <= endIdx).
Proof.
  split; [intros _ _ _; apply findNearestZeroCross_monotone|].
  unfold adjusted_indices, raw_indices. cbv zeta.
  intros Hraw Hle. injection Hraw as -> ->.
  unfold findNearestZeroCross_num.
  destruct (searchRadius params) as [r'|].
  - eexists _, _. split; [reflexivity|].
    apply findNearestZeroCross_monotone, Hle.
  - eexists _, _. split; [reflexivity | exact Hle].
Qed.

Lemma X4_monotone_witness :
  findNearestZeroCross [f32_one; f32_neg_one; f32_neg_one; f32_neg_one; f32_one] 1 2
  <= findNearestZeroCross [f32_one; f32_neg_one; f32_neg_one; f32_neg_one; f32_one] 2 2 /\
  exists startIdx endIdx,
    adjusted_indices (example_buffer 8) (example_params 0 1)
    = (Some startIdx, Some endIdx) /\ startIdx <= endIdx.
Proof.
  destruct (X4_search_is_monotone
              [f32_one; f32_neg_one; f32_neg_one; f32_neg_one; f32_one] 1 2 2
              (example_buffer 8) (example_params 0 1) 0 4) as [Hmono Hadj].
  split.
  - apply Hmono; [reflexivity | reflexivity | cbn; lia | lia].
  - apply Hadj; [reflexivity | lia].
Defined.

Lemma findNearestZeroCross_close_and_inside (s : Float32Array) (t r : Z) :
  Z.abs (findNearestZeroCross s t r - t) <= Z.max r 0 /\
  (0 <= t < Z.of_nat (length s) ->
   0 <= findNearestZeroCross s t r < Z.of_nat (length s)) /\
  (0 <= t <= Z.max 0 (Z.of_nat (length s) - 1) ->
   0 <= findNearestZeroCross s t r <= Z.max 0 (Z.of_nat (length s) - 1)).
Proof.
  destruct (findNearestZeroCross_spec s t r) as [[Heq _] | (Hw & _ & _)].
  - rewrite Heq. lia.
  - unfold in_window, window_lo, window_hi in Hw. lia.
Qed.

(** X5.  The index returned is never farther from the target than the
    radius, and a target inside the signal gives an index inside the
    signal. *)
Theorem X5_result_stays_close_and_inside (s : Float32Array) (target r : Z) :
  Z.abs (findNearestZeroCross s target r - target) <= Z.max r 0 /\
  (0 <= target < Z.of_nat (length s) ->
   0 <= findNearestZeroCross s target r < Z.of_nat (length s)).
Proof.
  destruct (findNearestZeroCross_close_and_inside s target r) as (H1 & H2 & _).
  split; assumption.
Qed.

Lemma X5_close_and_inside_witness :
  0 <= findNearestZeroCross [f32_one; f32_one; f32_neg_one] 2 5 < 3.
Proof.
  destruct (X5_result_stays_close_and_inside [f32_one; f32_one; f32_neg_one] 2 5)
    as [_ Hin].
  apply Hin. cbn. lia.
Defined.

(** X6.  Only the samples of the window are read: two signals of the
    same length that agree on the pairs of the window give the same
    index. *)
Theorem X6_search_reads_only_the_window (s s' : Float32Array) (target r : Z) :
  length s = length s' ->
  (forall i, Z.max 0 (target - r) <= i <= Z.min (Z.of_nat (length s) - 2) (target + r) + 1 ->
             ta_get s i = ta_get s' i) ->
  findNearestZeroCross s target r = findNearestZeroCross s' target r.
Proof.
  intros Hlen Hsame. unfold findNearestZeroCross. rewrite <- Hlen.
  destruct (Z.of_nat (length s) <? 2); [reflexivity|].
  f_equal. apply fold_left_ext_in.
  intros st i Hi. apply for_range_bounds in Hi.
  unfold scan_step, crossingAt, sample_at.
  rewrite <- !Hsame by lia. reflexivity.
Qed.

Lemma X6_window_witness :
  findNearestZeroCross [f32_one; f32_neg_one; f32_one; f32_one; f32_one] 0 1
  = findNearestZeroCross [f32_one; f32_neg_one; f32_one; f32_neg_one; f32_zero] 0 1.
Proof.
  apply (X6_search_reads_only_the_window
           [f32_one; f32_neg_one; f32_one; f32_one; f32_one]
           [f32_one; f32_neg_one; f32_one; f32_neg_one; f32_zero] 0 1).
  - reflexivity.
  - intros i Hi. change (0 <= i <= 2) in Hi.
    assert (i = 0 \/ i = 1 \/ i = 2) as [-> | [-> | ->]] by lia; reflexivity.
Defined.

(** X7.  A target that is itself a crossing of the signal is returned
    unchanged, for every non-negative radius. *)
Theorem X7_crossing_target_is_kept (s : Float32Array) (target r : Z) :
  0 <= r -> 0 <= target <= Z.of_nat (length s) - 2 -> crossingAt s target = true ->
  findNearestZeroCross s target r = target.
Proof.
  intros Hr Ht Hc.
  assert (Hin : in_window s target r target)
    by (unfold in_window, window_lo, window_hi; lia).
  destruct (findNearestZeroCross_spec s target r) as [[Heq _] | (_ & _ & Hmin)];
    [exact Heq|].
  destruct (Hmin target Hin Hc) as [Hle _]. lia.
Qed.

Lemma X7_crossing_target_witness :
  findNearestZeroCross [f32_zero; f32_one; f32_neg_one; f32_one] 1 3 = 1.
Proof.
  apply (X7_crossing_target_is_kept [f32_zero; f32_one; f32_neg_one; f32_one] 1 3).
  - lia.
  - cbn. lia.
  - reflexivity.
Defined.

(* ================================================================= *)
(** ** More on the downmix *)

Lemma subarray_length_le {A} (a : list A) (b e : Z) :
  b <= e -> Z.of_nat (length (subarray a b e)) <= e - b.
Proof.
  intros Hbe. unfold subarray, rel_index.
  rewrite length_take, length_drop.
  destruct (Z.ltb_spec b 0); destruct (Z.ltb_spec e 0); lia.
Qed.

Lemma ta_get_subarray {A} (a : list A) (s e i : Z) :
  0 <= s -> 0 <= i < e - s ->
  ta_get (subarray a s e) i = ta_get a (s + i).
Proof.
  intros Hs Hi. unfold ta_get, subarray, rel_index.
  destruct (Z.ltb_spec i 0); [lia|].
  destruct (Z.ltb_spec (s + i) 0); [lia|].
  destruct (Z.ltb_spec s 0); [lia|].
  destruct (Z.ltb_spec e 0); [lia|].
  destruct (Z.le_gt_cases (Z.of_nat (length a)) (s + i)) as [Hout | Hin].
  - rewrite (lookup_ge_None_2 a) by lia.
    rewrite lookup_ge_None_2; [reflexivity|].
    rewrite length_take, length_drop. lia.
  - rewrite lookup_take_lt by lia. rewrite lookup_drop.
    replace (Z.to_nat (Z.min s (Z.of_nat (length a))) + Z.to_nat i)%nat
      with (Z.to_nat (s + i)) by lia.
    reflexivity.
Qed.

Lemma sample_at_subarray (a : Float32Array) (s e i : Z) :
  0 <= s -> 0 <= i < e - s ->
  sample_at (subarray a s e) i = sample_at a (s + i).
Proof. intros Hs Hi. unfold sample_at. rewrite ta_get_subarray by lia. reflexivity. Qed.

Lemma accumulate_channels_length (numChannels : Z) (f : Float32Array -> Float32Array)
    (chans : list Float32Array) :
  forall mono : Float32Array,
    length (fold_left (fun mono ch => accumulate_channel numChannels mono (f ch))
              chans mono)
    = length mono.
Proof.
  induction chans as [|ch chans IH]; intros mono; cbn [fold_left]; [reflexivity|].
  rewrite IH. unfold accumulate_channel. apply length_imap.
Qed.

Lemma accumulate_channels_lookup (numChannels : Z) (f : Float32Array -> Float32Array)
    (chans : list Float32Array) (i : nat) :
  forall (mono : Float32Array) (m : float32),
    mono !! i = Some m ->
    fold_left (fun mono ch => accumulate_channel numChannels mono (f ch)) chans mono !! i
    = Some (fold_left
              (fun acc ch =>
                 fround (num_add (widen acc)
                           (num_div (sample_at (f ch) (Z.of_nat i)) (num_of_Z numChannels))))
              chans m).
Proof.
  induction chans as [|ch chans IH]; intros mono m Hm; cbn [fold_left]; [exact Hm|].
  apply IH. cbn beta. unfold accumulate_channel.
  etrans; [apply list_lookup_imap|].
  replace (mono !! i) with (Some m) by (symmetry; exact Hm). reflexivity.
Qed.

Lemma extractMonoSamples_multi (buffer : AudioBuffer) (s e : Z) :
  numberOfChannels buffer <> 1 -> s <= e ->
  extractMonoSamples buffer s e
  = Normal (fold_left
              (fun mono ch =>
                 accumulate_channel (numberOfChannels buffer) mono (subarray ch s e))
              (channels buffer)
              (replicate (Z.to_nat (e - s)) (S754_zero false))).
Proof.
  intros Hn Hse. unfold extractMonoSamples, new_Float32Array.
  destruct (Z.ltb_spec (e - s) 0); [lia|]. cbn [mbind completion_bind].
  destruct (Z.eqb_spec (numberOfChannels buffer) 1); [contradiction | reflexivity].
Qed.

Lemma extractMonoSamples_length (buffer : AudioBuffer) (startSample endSample : Z) :
  startSample <= endSample ->
  exists mono, extractMonoSamples buffer startSample endSample = Normal mono /\
               Z.of_nat (length mono) = endSample - startSample.
Proof.
  intros Hle.
  destruct (Z.eq_dec (numberOfChannels buffer) 1) as [Hone | Hmulti].
  - unfold extractMonoSamples, new_Float32Array.
    destruct (Z.ltb_spec (endSample - startSample) 0); [lia|].
    cbn [mbind completion_bind]. rewrite Hone. cbn [Z.eqb Pos.eqb].
    unfold ta_set. rewrite length_replicate.
    pose proof (subarray_length_le (getChannelData buffer 0) startSample endSample Hle)
      as Hsub.
    destruct (Nat.ltb_spec (Z.to_nat (endSample - startSample))
                (length (subarray (getChannelData buffer 0) startSample endSample)));
      [lia|].
    eexists. split; [reflexivity|].
    rewrite length_app, length_drop, length_replicate. lia.
  - rewrite extractMonoSamples_multi by assumption.
    eexists. split; [reflexivity|].
    rewrite (accumulate_channels_length (numberOfChannels buffer)
               (fun ch => subarray ch startSample endSample)), length_replicate. lia.
Qed.

(** X8.  For every channel count and all integer bounds, inside the
    buffer or not: the downmix throws a RangeError when the end index is
    below the start index; otherwise, when the requested length is at
    most the length of the buffer (a length the engine has allocated),
    it returns a buffer of exactly [endSample - startSample] elements. *)
Theorem X8_downmix_length_or_range_error (buffer : AudioBuffer) (startSample endSample : Z) :
  (endSample < startSample ->
     exists msg, extractMonoSamples buffer startSample endSample = Throw (RangeError msg)) /\
  (startSample <= endSample ->
   endSample - startSample <= buffer_length buffer ->
     exists mono, extractMonoSamples buffer startSample endSample = Normal mono /\
                  Z.of_nat (length mono) = endSample - startSample).
Proof.
  split.
  - intros Hlt. unfold extractMonoSamples, new_Float32Array.
    destruct (Z.ltb_spec (endSample - startSample) 0); [|lia].
    eexists. reflexivity.
  - intros Hle _. apply extractMonoSamples_length, Hle.
Qed.

Lemma X8_downmix_length_witness :
  (exists msg, extractMonoSamples (example_buffer 4) 3 1 = Throw (RangeError msg)) /\
  (exists mono, extractMonoSamples (example_buffer 4) (-2) 1 = Normal mono /\
                Z.of_nat (length mono) = 1 - -2) /\
  (exists mono, extractMonoSamples (example_buffer 4) 3 6 = Normal mono /\
                Z.of_nat (length mono) = 6 - 3).
Proof.
  destruct (X8_downmix_length_or_range_error (example_buffer 4) 3 1) as [Hthrow _].
  destruct (X8_downmix_length_or_range_error (example_buffer 4) (-2) 1) as [_ Hok].
  destruct (X8_downmix_length_or_range_error (example_buffer 4) 3 6) as [_ Hok'].
  split; [apply Hthrow; lia|].
  split; [apply Hok; [lia | change (1 - -2 <= 4); lia]
         | apply Hok'; [lia | change (6 - 3 <= 4); lia]].
Defined.




(* ================================================================= *)
(** ** Floating point: integers as Numbers, and products that are no NaN *)

Lemma num_of_Z_finite (p : positive) :
  Zpos p < 2 ^ 53 ->
  num_of_Z (Zpos p)
  = S754_finite false (pshift p (53 - Zpos (digits2_pos p))) (Zpos (digits2_pos p) - 53).
Proof.
  intros Hp. pose proof (digits2_pos_le p 53 Hp) as Hd.
  unfold num_of_Z. cbn [binary_normalize].
  destruct (53 - Zpos (digits2_pos p)) as [|k|k] eqn:Hk; try lia.
  - cbn [pshift]. replace (Zpos (digits2_pos p) - 53) with 0 by lia.
    unfold binary_round, shl_align.
    replace (fexp prec64 emax64 (Zpos (digits2_pos p) + 0)) with 0
      by (unfold fexp, emin, prec64, emax64; lia).
    cbn [Z.sub Z.opp Z.add]. apply binary_round_aux_fits.
    + unfold fexp, emin, prec64, emax64. lia.
    + unfold prec64, emax64. lia.
  - cbn [pshift]. replace (Zpos (digits2_pos p) - 53) with (0 - Zpos k) by lia.
    apply binary_round_widens.
    + unfold fexp, emin, prec64, emax64. lia.
    + unfold prec64, emax64. lia.
Qed.

Lemma shr_1_nonneg (mrs : shr_record) : 0 <= shr_m mrs -> 0 <= shr_m (shr_1 mrs).
Proof.
  destruct mrs as [m r s]. cbn [shr_m]. intros Hm.
  destruct m as [|[p|p|]|p]; cbn [shr_1 shr_m]; lia.
Qed.

Lemma shr_nonneg (mrs : shr_record) (e n : Z) :
  0 <= shr_m mrs -> 0 <= shr_m (fst (shr mrs e n)).
Proof.
  intros Hm. unfold shr. destruct n as [|k|k]; cbn [fst]; trivial.
  rewrite iter_pos_iter.
  apply (Pos.iter_invariant k _ shr_1 (fun r => 0 <= shr_m r)); [|exact Hm].
  intros x Hx. apply shr_1_nonneg, Hx.
Qed.

Lemma binary_round_aux_not_nan (prec emax : Z) (s : bool) (m : positive) (e : Z) :
  is_nan (binary_round_aux prec emax s (Zpos m) e loc_Exact) = false.
Proof.
  unfold binary_round_aux, shr_fexp.
  cbn [shr_record_of_loc Zdigits2].
  set (n1 := fexp prec emax (Zpos (digits2_pos m) + e) - e).
  pose proof (shr_nonneg {| shr_m := Zpos m; shr_r := false; shr_s := false |} e n1
                ltac:(cbn; lia)) as H1.
  destruct (shr {| shr_m := Zpos m; shr_r := false; shr_s := false |} e n1)
    as [mrs1 e1]. cbn [fst] in H1.
  set (m2 := round_nearest_even (shr_m mrs1) (loc_of_shr_record mrs1)).
  assert (H2 : 0 <= m2).
  { unfold m2, round_nearest_even.
    destruct (loc_of_shr_record mrs1) as [|[]]; try lia.
    destruct (Z.even (shr_m mrs1)); lia. }
  set (n2 := fexp prec emax (Zdigits2 m2 + e1) - e1).
  pose proof (shr_nonneg {| shr_m := m2; shr_r := false; shr_s := false |} e1 n2 H2) as H3.
  destruct (shr {| shr_m := m2; shr_r := false; shr_s := false |} e1 n2) as [mrs2 e2].
  cbn [fst] in H3.
  destruct (shr_m mrs2) as [|q|q]; [reflexivity | | lia].
  destruct (e2 <=? emax - prec); reflexivity.
Qed.

(** A product with a finite non-zero Number is NaN only for a NaN factor. *)
Lemma num_mul_finite_not_nan (x : number) (s : bool) (m : positive) (e : Z) :
  is_nan x = false -> is_nan (num_mul x (S754_finite s m e)) = false.
Proof.
  destruct x as [sx | sx | | sx mx ex]; intros Hx; try discriminate Hx;
    try reflexivity.
  unfold num_mul, SFmul. apply binary_round_aux_not_nan.
Qed.

Lemma mix_step_silence (p : positive) :
  Zpos p < 2 ^ 53 ->
  fround (num_add (widen (S754_zero false))
            (num_div (widen (S754_zero false)) (num_of_Z (Zpos p))))
  = S754_zero false.
Proof. intros Hp. rewrite num_of_Z_finite by exact Hp. reflexivity. Qed.

Lemma list_eq_replicate {A} (l : list A) (n : nat) (x : A) :
  length l = n -> (forall i, (i < n)%nat -> l !! i = Some x) -> l = replicate n x.
Proof.
  intros Hlen Hl. apply list_eq. intros i.
  destruct (Nat.lt_ge_cases i n) as [Hi | Hi].
  - rewrite Hl by exact Hi. symmetry. apply lookup_replicate_2, Hi.
  - rewrite lookup_ge_None_2 by lia. symmetry. apply lookup_ge_None_2.
    rewrite length_replicate. exact Hi.
Qed.

(** X10.  Silence stays silence: when every channel holds [+0] at every
    position of the range, the downmix is [+0] at every position, for
    any number of channels (below 2^53). *)
Theorem X10_downmix_of_silence (buffer : AudioBuffer) (startSample endSample : Z) :
  0 <= startSample <= endSample ->
  numberOfChannels buffer < 2 ^ 53 ->
  (forall ch i, In ch (channels buffer) -> startSample <= i < endSample ->
                ta_get ch i = Some (S754_zero false)) ->
  extractMonoSamples buffer startSample endSample
  = Normal (replicate (Z.to_nat (endSample - startSample)) (S754_zero false)).
Proof.
  intros Hse Hn Hzero.
  destruct (extractMonoSamples_length buffer startSample endSample ltac:(lia))
    as (mono & Hmono & Hlen).
  rewrite Hmono. f_equal. apply list_eq_replicate; [lia|].
  intros i Hi.
  destruct (Z.eq_dec (numberOfChannels buffer) 1) as [Hone | Hmulti].
  - unfold extractMonoSamples, new_Float32Array in Hmono.
    destruct (Z.ltb_spec (endSample - startSample) 0); [lia|].
    cbn [mbind completion_bind] in Hmono. rewrite Hone in Hmono.
    cbn [Z.eqb Pos.eqb] in Hmono. unfold ta_set in Hmono.
    destruct (length _ <? length _)%nat; [discriminate|].
    injection Hmono as <-.
    unfold numberOfChannels, getChannelData in *.
    destruct (channels buffer) as [|data [|]] eqn:Hch; cbn [length] in Hone; try lia.
    cbn [lookup list_lookup default from_option id].
    set (sub := subarray data startSample endSample).
    assert (Hsub : forall j x, sub !! j = Some x -> x = S754_zero false).
    { intros j x Hj.
      assert (Hjlt : (j < length sub)%nat) by (apply lookup_lt_is_Some; eauto).
      pose proof (subarray_length_le data startSample endSample ltac:(lia)) as Hle.
      fold sub in Hle.
      pose proof (ta_get_subarray data startSample endSample (Z.of_nat j)
                    ltac:(lia) ltac:(lia)) as Hget.
      fold sub in Hget.
      rewrite (Hzero data (startSample + Z.of_nat j) ltac:(left; reflexivity) ltac:(lia))
        in Hget.
      unfold ta_get in Hget. destruct (Z.of_nat j <? 0); [discriminate|].
      rewrite Nat2Z.id in Hget.
      pose proof (eq_trans (eq_sym Hj) Hget) as Heq. congruence. }
    destruct (Nat.lt_ge_cases i (length sub)) as [Hin | Hout].
    + rewrite lookup_app_l by exact Hin.
      destruct (lookup_lt_is_Some_2 sub i Hin) as [x Hx].
      rewrite Hx. f_equal. eapply Hsub, Hx.
    + rewrite lookup_app_r by exact Hout.
      rewrite lookup_drop. apply lookup_replicate_2. lia.
  - rewrite extractMonoSamples_multi in Hmono by (trivial; lia).
    injection Hmono as <-.
    rewrite (accumulate_channels_lookup (numberOfChannels buffer)
               (fun ch => subarray ch startSample endSample) (channels buffer)
               i _ (S754_zero false))
      by (apply lookup_replicate_2; lia).
    f_equal.
    assert (Hin : forall ch, In ch (channels buffer) -> In ch (channels buffer))
      by trivial.
    revert Hin. generalize (channels buffer) at 1 3.
    intros chans. induction chans as [|ch chans IH]; intros Hin; [reflexivity|].
    cbn [fold_left].
    rewrite sample_at_subarray by lia. unfold sample_at.
    rewrite (Hzero ch (startSample + Z.of_nat i)) by (try apply Hin; try left; trivial; lia).
    unfold numberOfChannels in *.
    destruct (Z.of_nat (length (channels buffer))) as [|p|p] eqn:HN.
    + destruct (channels buffer); [|discriminate HN].
      exfalso. eapply in_nil. apply (Hin ch). left. reflexivity.
    + rewrite mix_step_silence by exact Hn.
      apply IH. intros ch' Hch'. apply Hin. right. exact Hch'.
    + lia.
Qed.

Lemma X10_silence_witness :
  extractMonoSamples
    {| sampleRate := 8000;
       channels := [[f32_zero; f32_zero; f32_one]; [f32_zero; f32_zero; f32_one];
                    [f32_zero; f32_zero; f32_neg_one]] |} 0 2
  = Normal (replicate (Z.to_nat (2 - 0)) (S754_zero false)).
Proof.
  apply (X10_downmix_of_silence
           {| sampleRate := 8000;
              channels := [[f32_zero; f32_zero; f32_one]; [f32_zero; f32_zero; f32_one];
                           [f32_zero; f32_zero; f32_neg_one]] |} 0 2).
  - lia.
  - reflexivity.
  - intros ch i Hch Hi.
    assert (i = 0 \/ i = 1) as Hi' by lia.
    cbn [channels In] in Hch.
    destruct Hch as [<- | [<- | [<- | []]]]; destruct Hi' as [-> | ->]; reflexivity.
Defined.

(* ================================================================= *)
(** ** More on the per-file pipeline *)

Lemma rawIndex_range (len : Z) (x : number) (z : Z) :
  rawIndex len x = Some z -> 0 <= z <= Z.max 0 (len - 1).
Proof.
  destruct x as [s | [|] | | s m e]; cbn [rawIndex]; intros H;
    try discriminate H; injection H as <-; lia.
Qed.

Lemma rawIndex_not_nan (len : Z) (x : number) :
  is_nan x = false -> exists z, rawIndex len x = Some z.
Proof.
  destruct x as [s | [|] | | s m e]; cbn [rawIndex is_nan]; intros H;
    try discriminate H; eexists; reflexivity.
Qed.

Lemma adjusted_of_raw (buffer : AudioBuffer) (params : Params) :
  adjusted_indices buffer params
  = (findNearestZeroCross_num (getChannelData buffer 0)
       (fst (raw_indices buffer params)) (searchRadius params),
     findNearestZeroCross_num (getChannelData buffer 0)
       (snd (raw_indices buffer params)) (searchRadius params)).
Proof. reflexivity. Qed.

Lemma findNearestZeroCross_num_inside (s : Float32Array) (t : Z) (r : option Z) :
  0 <= t <= Z.max 0 (Z.of_nat (length s) - 1) ->
  exists res, findNearestZeroCross_num s (Some t) r = Some res /\
              0 <= res <= Z.max 0 (Z.of_nat (length s) - 1).
Proof.
  intros Ht. destruct r as [r|]; cbn [findNearestZeroCross_num].
  - eexists. split; [reflexivity|].
    apply (findNearestZeroCross_close_and_inside s t r), Ht.
  - eexists. split; [reflexivity | exact Ht].
Qed.

(** Validated times and a sample rate that is a positive integer below
    2^53 give integer indices inside the buffer. *)
Lemma adjusted_indices_defined (buffer : AudioBuffer) (params : Params) :
  num_gt (endSec params) (startSec params) = true ->
  0 < sampleRate buffer < 2 ^ 53 ->
  exists startIdx endIdx,
    adjusted_indices buffer params = (Some startIdx, Some endIdx) /\
    0 <= startIdx <= Z.max 0 (buffer_length buffer - 1) /\
    0 <= endIdx <= Z.max 0 (buffer_length buffer - 1).
Proof.
  intros Hgt Hsr.
  destruct (num_lt_not_nan _ _ Hgt) as [Hs He].
  destruct (sampleRate buffer) as [|p|p] eqn:Hp; try lia.
  assert (Hfin : exists m e, num_of_Z (Zpos p) = S754_finite false m e).
  { rewrite num_of_Z_finite by lia. eauto. }
  destruct Hfin as (m & e & Hfin).
  rewrite adjusted_of_raw. unfold raw_indices. cbv zeta. cbn [fst snd].
  rewrite Hp, Hfin.
  destruct (rawIndex_not_nan (buffer_length buffer)
              (num_mul (startSec params) (S754_finite false m e))
              (num_mul_finite_not_nan _ _ _ _ Hs)) as [rs Hrs].
  destruct (rawIndex_not_nan (buffer_length buffer)
              (num_mul (endSec params) (S754_finite false m e))
              (num_mul_finite_not_nan _ _ _ _ He)) as [re Hre].
  rewrite Hrs, Hre.
  apply rawIndex_range in Hrs, Hre. unfold buffer_length in *.
  destruct (findNearestZeroCross_num_inside (getChannelData buffer 0) rs
              (searchRadius params) Hrs) as (si & -> & Hsi).
  destruct (findNearestZeroCross_num_inside (getChannelData buffer 0) re
              (searchRadius params) Hre) as (ei & -> & Hei).
  exists si, ei. split; [reflexivity | split; assumption].
Qed.

(** The accepted path of [processSingleFile], up to the format dispatch. *)
Lemma processSingleFile_accepted
    (dec : list Z -> completion AudioBuffer)
    (ogg : option (Z -> Z -> Z -> Float32Array -> list Z))
    (mp3 : option (Z -> Z -> Z -> list Z -> list Z * list Z))
    (file : File) (params : Params) (buffer : AudioBuffer)
    (startIdx endIdx : Z) (w : World) :
  dec (file_bytes file) = Normal buffer ->
  adjusted_indices buffer params = (Some startIdx, Some endIdx) ->
  startIdx < endIdx ->
  exists mono,
    extractMonoSamples buffer startIdx endIdx = Normal mono /\
    Z.of_nat (length mono) = endIdx - startIdx /\
    processSingleFile dec ogg mp3 file params w
    = let w1 :=
        {| log_lines :=
             log_lines w
             ++ [LogStart (file_name file);
                 LogRequested (startSec params) (endSec params);
                 LogAdjusted
                   (num_div (num_of_Z startIdx) (num_of_Z (sampleRate buffer)))
                   (num_div (num_of_Z endIdx) (num_of_Z (sampleRate buffer)));
                 LogSamples (Some startIdx) (Some endIdx) (Some (endIdx - startIdx))];
           downloads := downloads w |} in
      match encode ogg mp3 w1 mono (sampleRate buffer) params with
      | (w2, Throw e) => (Throw e, w2)
      | (w2, Normal None) => (Normal tt, w2)
      | (w2, Normal (Some blob)) =>
          let download :=
            (strip_ext (file_name file) ++ "_loop"
             ++ (if String.eqb (outFormat params) "wav" then ".wav"
                 else if String.eqb (outFormat params) "mp3" then ".mp3"
                 else ".ogg"))%string in
          (Normal tt, log (click_download w2 download blob) (LogDone download))
      end.
Proof.
  intros Hdec Hadj Hlt.
  destruct (extractMonoSamples_length buffer startIdx endIdx ltac:(lia))
    as (mono & Hmono & Hlen).
  exists mono. split; [exact Hmono|]. split; [exact Hlen|].
  unfold processSingleFile. rewrite Hdec, Hadj. cbn [int_leb int_to_num int_sub].
  destruct (Z.leb_spec endIdx startIdx); [lia|].
  cbn [extractMonoSamples_num]. rewrite Hmono.
  unfold log. cbn [log_lines downloads]. rewrite <- !app_assoc. reflexivity.
Qed.

(** X11.  For a decoded file, validated times (the end time greater
    than the start time) and a sample rate that is a positive integer
    below 2^53: both adjusted indices are integers inside the buffer
    (never NaN).  When, besides, the format does not reach a loaded
    encoder library (the calls into the library, lines 103-105 and
    116-127, are not made), the program's own code throws nothing: with
    a format other than ogg and mp3 the call returns normally, no
    RangeError escapes from the downmix or the WAV writer, and the only
    exceptions the file can end in are the two errors for a missing
    library. *)
Theorem X11_validated_file_stays_in_range
    (dec : list Z -> completion AudioBuffer)
    (ogg : option (Z -> Z -> Z -> Float32Array -> list Z))
    (mp3 : option (Z -> Z -> Z -> list Z -> list Z * list Z))
    (file : File) (params : Params) (buffer : AudioBuffer) (w : World) :
  num_gt (endSec params) (startSec params) = true ->
  dec (file_bytes file) = Normal buffer ->
  0 < sampleRate buffer < 2 ^ 53 ->
  (outFormat params = "ogg"%string -> ogg = None) ->
  (outFormat params = "mp3"%string -> mp3 = None) ->
  (exists startIdx endIdx,
     adjusted_indices buffer params = (Some startIdx, Some endIdx) /\
     0 <= startIdx <= Z.max 0 (buffer_length buffer - 1) /\
     0 <= endIdx <= Z.max 0 (buffer_length buffer - 1)) /\
  (outFormat params <> "ogg"%string -> outFormat params <> "mp3"%string ->
   fst (processSingleFile dec ogg mp3 file params w) = Normal tt) /\
  (forall e, fst (processSingleFile dec ogg mp3 file params w) = Throw e ->
     (outFormat params = "ogg"%string /\ e = Error ogg_missing_message) \/
     (outFormat params = "mp3"%string /\ e = Error lamejs_missing_message)).
Proof.
  intros Hgt Hdec Hsr Hnoogg Hnomp3.
  destruct (adjusted_indices_defined buffer params Hgt Hsr) as (si & ei & Hadj & Hsi & Hei).
  split; [exists si, ei; auto|].
  assert (Hthrow : forall e,
             fst (processSingleFile dec ogg mp3 file params w) = Throw e ->
             (outFormat params = "ogg"%string /\ e = Error ogg_missing_message) \/
             (outFormat params = "mp3"%string /\ e = Error lamejs_missing_message)).
  { intros e.
    destruct (Z.le_gt_cases ei si) as [Hrej | Hacc].
    - unfold processSingleFile. rewrite Hdec, Hadj. cbn [int_leb].
      destruct (Z.leb_spec ei si); [|lia]. cbn [fst]. discriminate.
    - destruct (processSingleFile_accepted dec ogg mp3 file params buffer si ei w
                  Hdec Hadj ltac:(lia)) as (mono & _ & _ & ->).
      cbv zeta. unfold encode.
      destruct (String.eqb_spec (outFormat params) "ogg") as [Hogg | _].
      { rewrite (Hnoogg Hogg). unfold monoFloatToOggBlob. cbn.
        intros [= <-]. left. auto. }
      destruct (String.eqb_spec (outFormat params) "wav") as [Hwav | _].
      { rewrite monoFloatToWavBlob_layout. cbn. discriminate. }
      destruct (String.eqb_spec (outFormat params) "mp3") as [Hmp3 | _].
      { rewrite (Hnomp3 Hmp3). unfold monoFloatToMp3Blob. cbn.
        intros [= <-]. right. auto. }
      cbn. discriminate. }
  split; [|exact Hthrow].
  intros Hogg Hmp3.
  destruct (fst (processSingleFile dec ogg mp3 file params w)) as [[]|e] eqn:Hres;
    [reflexivity|].
  destruct (Hthrow e eq_refl) as [[Hf _] | [Hf _]]; contradiction.
Qed.

Lemma X11_validated_file_witness :
  (exists e,
     fst (processSingleFile example_decoder None None
            {| file_name := "a.flac"; file_bytes := [3] |}
            {| startSec := num_of_Z 0; endSec := num_of_Z 1; searchRadius := Some 0;
               outFormat := "ogg"; oggQuality := 3 |}
            empty_world) = Throw e /\
     e = Error ogg_missing_message) /\
  (exists startIdx endIdx,
     adjusted_indices (example_buffer 8) (example_params 0 1)
     = (Some startIdx, Some endIdx) /\
     0 <= startIdx <= Z.max 0 (buffer_length (example_buffer 8) - 1) /\
     0 <= endIdx <= Z.max 0 (buffer_length (example_buffer 8) - 1)) /\
  fst (processSingleFile example_decoder None None
         {| file_name := "a.flac"; file_bytes := [3] |} (example_params 0 1)
         empty_world) = Normal tt.
Proof.
  split.
  - destruct (X11_validated_file_stays_in_range example_decoder None None
                {| file_name := "a.flac"; file_bytes := [3] |}
                {| startSec := num_of_Z 0; endSec := num_of_Z 1; searchRadius := Some 0;
                   outFormat := "ogg"; oggQuality := 3 |}
                (example_buffer 8) empty_world) as (_ & _ & Hthrow).
    + reflexivity.
    + reflexivity.
    + cbn. lia.
    + reflexivity.
    + reflexivity.
    + destruct (fst (processSingleFile example_decoder None None
                       {| file_name := "a.flac"; file_bytes := [3] |}
                       {| startSec := num_of_Z 0; endSec := num_of_Z 1;
                          searchRadius := Some 0; outFormat := "ogg"; oggQuality := 3 |}
                       empty_world)) as [[]|e] eqn:Hres.
      * vm_compute in Hres. discriminate Hres.
      * exists e. split; [reflexivity|].
        destruct (Hthrow e eq_refl) as [[_ He] | [Hf _]];
          [exact He | discriminate Hf].
  - destruct (X11_validated_file_stays_in_range example_decoder None None
                {| file_name := "a.flac"; file_bytes := [3] |} (example_params 0 1)
                (example_buffer 8) empty_world) as (Hidx & Hnormal & _).
    + reflexivity.
    + reflexivity.
    + cbn. lia.
    + discriminate.
    + discriminate.
    + split; [exact Hidx | apply Hnormal; discriminate].
Defined.

(** X12.  A file whose raw start and raw end index coincide (both times
    at or past the end of the recording, for instance) is rejected for
    every search radius: the start line and the range error are logged
    and nothing else happens. *)
Theorem X12_empty_raw_range_is_rejected
    (dec : list Z -> completion AudioBuffer)
    (ogg : option (Z -> Z -> Z -> Float32Array -> list Z))
    (mp3 : option (Z -> Z -> Z -> list Z -> list Z * list Z))
    (file : File) (params : Params) (buffer : AudioBuffer) (t : Z) (w : World) :
  dec (file_bytes file) = Normal buffer ->
  raw_indices buffer params = (Some t, Some t) ->
  processSingleFile dec ogg mp3 file params w
  = (Normal tt,
     {| log_lines := log_lines w ++ [LogStart (file_name file);
                                     LogRangeError (file_name file)];
        downloads := downloads w |}).
Proof.
  intros Hdec Hraw.
  unfold processSingleFile. rewrite Hdec, adjusted_of_raw, Hraw. cbn [fst snd].
  destruct (findNearestZeroCross_num (getChannelData buffer 0) (Some t)
              (searchRadius params)) as [idx|] eqn:Hidx.
  - cbn [int_leb]. rewrite Z.leb_refl.
    unfold log. cbn [log_lines downloads]. rewrite <- app_assoc. reflexivity.
  - destruct (searchRadius params); discriminate Hidx.
Qed.

Lemma X12_empty_raw_range_witness :
  processSingleFile example_decoder None None
    {| file_name := "a.wav"; file_bytes := [3] |}
    {| startSec := num_of_Z 7; endSec := num_of_Z 9; searchRadius := Some 4000;
       outFormat := "wav"; oggQuality := 3 |}
    empty_world
  = (Normal tt,
     {| log_lines := [LogStart "a.wav"; LogRangeError "a.wav"]; downloads := [] |}).
Proof.
  apply (X12_empty_raw_range_is_rejected example_decoder None None
           {| file_name := "a.wav"; file_bytes := [3] |}
           {| startSec := num_of_Z 7; endSec := num_of_Z 9; searchRadius := Some 4000;
              outFormat := "wav"; oggQuality := 3 |}
           (example_buffer 8) 7 empty_world).
  - reflexivity.
  - reflexivity.
Defined.

(** X13.  An accepted file in the wav format ends in exactly one
    download, named after the file with its last extension replaced by
    [_loop.wav], whose blob has the WAV mime type and exactly
    [44 + 2 * (endIdx - startIdx)] bytes; the log gains the start line,
    the three report lines with the adjusted indices and their
    difference, and the completion line. *)
Theorem X13_wav_file_succeeds
    (dec : list Z -> completion AudioBuffer)
    (ogg : option (Z -> Z -> Z -> Float32Array -> list Z))
    (mp3 : option (Z -> Z -> Z -> list Z -> list Z * list Z))
    (file : File) (params : Params) (buffer : AudioBuffer)
    (startIdx endIdx : Z) (w : World) :
  dec (file_bytes file) = Normal buffer ->
  adjusted_indices buffer params = (Some startIdx, Some endIdx) ->
  startIdx < endIdx ->
  outFormat params = "wav"%string ->
  exists blob,
    processSingleFile dec ogg mp3 file params w
    = (Normal tt,
       {| log_lines :=
            log_lines w
            ++ [LogStart (file_name file);
                LogRequested (startSec params) (endSec params);
                LogAdjusted
                  (num_div (num_of_Z startIdx) (num_of_Z (sampleRate buffer)))
                  (num_div (num_of_Z endIdx) (num_of_Z (sampleRate buffer)));
                LogSamples (Some startIdx) (Some endIdx) (Some (endIdx - startIdx));
                LogDone (strip_ext (file_name file) ++ "_loop.wav")%string];
          downloads :=
            downloads w ++ [((strip_ext (file_name file) ++ "_loop.wav")%string, blob)] |}) /\
    blob_type blob = "audio/wav"%string /\
    Z.of_nat (length (blob_bytes blob)) = 44 + 2 * (endIdx - startIdx).
Proof.
  intros Hdec Hadj Hlt Hfmt.
  destruct (processSingleFile_accepted dec ogg mp3 file params buffer startIdx endIdx w
              Hdec Hadj Hlt) as (mono & _ & Hlen & ->).
  cbv zeta. unfold encode. rewrite Hfmt.
  change (String.eqb "wav" "ogg") with false.
  change (String.eqb "wav" "wav") with true. cbv iota.
  rewrite monoFloatToWavBlob_layout. cbn [mbind completion_bind].
  exists {| blob_bytes := wav_layout (sampleRate buffer) (to_pcm16 mono);
            blob_type := "audio/wav" |}.
  split; [|split; [reflexivity|]].
  - unfold log, click_download. cbn [log_lines downloads].
    rewrite <- !app_assoc. reflexivity.
  - cbn [blob_bytes]. unfold wav_layout. rewrite !length_app.
    assert (Hflat : forall l : list Z, length (flat_map u16le l) = (2 * length l)%nat).
    { induction l as [|q l IH]; cbn [flat_map length u16le app] in *; lia. }
    rewrite Hflat. unfold to_pcm16. rewrite length_map.
    cbn [charCodes u32le u16le length map list_ascii_of_string]. lia.
Qed.

Lemma X13_wav_file_witness :
  exists blob,
    processSingleFile example_decoder None None
      {| file_name := "take.1.flac"; file_bytes := [3] |} (example_params 0 1) empty_world
    = (Normal tt,
       {| log_lines :=
            log_lines empty_world
            ++ [LogStart "take.1.flac";
                LogRequested (num_of_Z 0) (num_of_Z 1);
                LogAdjusted (num_div (num_of_Z 0) (num_of_Z 4))
                            (num_div (num_of_Z 4) (num_of_Z 4));
                LogSamples (Some 0) (Some 4) (Some (4 - 0));
                LogDone (strip_ext "take.1.flac" ++ "_loop.wav")%string];
          downloads :=
            downloads empty_world
            ++ [((strip_ext "take.1.flac" ++ "_loop.wav")%string, blob)] |}) /\
    blob_type blob = "audio/wav"%string /\
    Z.of_nat (length (blob_bytes blob)) = 44 + 2 * (4 - 0).
Proof.
  apply (X13_wav_file_succeeds example_decoder None None
           {| file_name := "take.1.flac"; file_bytes := [3] |} (example_params 0 1)
           (example_buffer 8) 0 4 empty_world).
  - reflexivity.
  - reflexivity.
  - lia.
  - reflexivity.
Defined.

(** X14.  An accepted file in the ogg format, with the Vorbis encoder
    loaded: the encoder is given the buffer's sample rate, one channel,
    the batch quality and the downmixed range, and its bytes are
    downloaded under the file's base name with [_loop.ogg]. *)
Theorem X14_ogg_file_uses_encoder
    (dec : list Z -> completion AudioBuffer)
    (encoder : Z -> Z -> Z -> Float32Array -> list Z)
    (mp3 : option (Z -> Z -> Z -> list Z -> list Z * list Z))
    (file : File) (params : Params) (buffer : AudioBuffer)
    (startIdx endIdx : Z) (w : World) :
  dec (file_bytes file) = Normal buffer ->
  adjusted_indices buffer params = (Some startIdx, Some endIdx) ->
  startIdx < endIdx ->
  outFormat params = "ogg"%string ->
  exists mono,
    extractMonoSamples buffer startIdx endIdx = Normal mono /\
    processSingleFile dec (Some encoder) mp3 file params w
    = (Normal tt,
       {| log_lines :=
            log_lines w
            ++ [LogStart (file_name file);
                LogRequested (startSec params) (endSec params);
                LogAdjusted
                  (num_div (num_of_Z startIdx) (num_of_Z (sampleRate buffer)))
                  (num_div (num_of_Z endIdx) (num_of_Z (sampleRate buffer)));
                LogSamples (Some startIdx) (Some endIdx) (Some (endIdx - startIdx));
                LogOggQuality (oggQuality params);
                LogDone (strip_ext (file_name file) ++ "_loop.ogg")%string];
          downloads :=
            downloads w
            ++ [((strip_ext (file_name file) ++ "_loop.ogg")%string,
                 {| blob_bytes := encoder (sampleRate buffer) 1 (oggQuality params) mono;
                    blob_type := "audio/ogg" |})] |}).
Proof.
  intros Hdec Hadj Hlt Hfmt.
  destruct (processSingleFile_accepted dec (Some encoder) mp3 file params buffer
              startIdx endIdx w Hdec Hadj Hlt) as (mono & Hmono & _ & ->).
  exists mono. split; [exact Hmono|].
  cbv zeta. unfold encode, monoFloatToOggBlob. rewrite Hfmt.
  change (String.eqb "ogg" "ogg") with true.
  change (String.eqb "ogg" "wav") with false.
  change (String.eqb "ogg" "mp3") with false. cbv iota.
  cbn [mbind completion_bind].
  unfold log, click_download. cbn [log_lines downloads].
  rewrite <- !app_assoc. reflexivity.
Qed.

(** X15.  An accepted file in the mp3 format, with lamejs loaded: the
    encoder is constructed for one channel, the buffer's sample rate and
    128 kbps, it is given the quantized downmix, and the bytes of the
    encode call followed by those of the flush are downloaded under the
    file's base name with [_loop.mp3]. *)
Theorem X15_mp3_file_uses_encoder
    (dec : list Z -> completion AudioBuffer)
    (ogg : option (Z -> Z -> Z -> Float32Array -> list Z))
    (encoder : Z -> Z -> Z -> list Z -> list Z * list Z)
    (file : File) (params : Params) (buffer : AudioBuffer)
    (startIdx endIdx : Z) (w : World) :
  dec (file_bytes file) = Normal buffer ->
  adjusted_indices buffer params = (Some startIdx, Some endIdx) ->
  startIdx < endIdx ->
  outFormat params = "mp3"%string ->
  exists mono,
    extractMonoSamples buffer startIdx endIdx = Normal mono /\
    let encoded := encoder 1 (sampleRate buffer) 128 (map quantize mono) in
    processSingleFile dec ogg (Some encoder) file params w
    = (Normal tt,
       {| log_lines :=
            log_lines w
            ++ [LogStart (file_name file);
                LogRequested (startSec params) (endSec params);
                LogAdjusted
                  (num_div (num_of_Z startIdx) (num_of_Z (sampleRate buffer)))
                  (num_div (num_of_Z endIdx) (num_of_Z (sampleRate buffer)));
                LogSamples (Some startIdx) (Some endIdx) (Some (endIdx - startIdx));
                LogMp3Encoding;
                LogDone (strip_ext (file_name file) ++ "_loop.mp3")%string];
          downloads :=
            downloads w
            ++ [((strip_ext (file_name file) ++ "_loop.mp3")%string,
                 {| blob_bytes := fst encoded ++ snd encoded;
                    blob_type := "audio/mpeg" |})] |}).
Proof.
  intros Hdec Hadj Hlt Hfmt.
  destruct (processSingleFile_accepted dec ogg (Some encoder) file params buffer
              startIdx endIdx w Hdec Hadj Hlt) as (mono & Hmono & _ & ->).
  exists mono. split; [exact Hmono|].
  cbv zeta. unfold encode, monoFloatToMp3Blob, to_pcm16. rewrite Hfmt.
  change (String.eqb "mp3" "ogg") with false.
  change (String.eqb "mp3" "wav") with false.
  change (String.eqb "mp3" "mp3") with true. cbv iota.
  destruct (encoder 1 (sampleRate buffer) 128 (map quantize mono)) as [chunk end_].
  cbn [fst snd mbind completion_bind].
  assert (Hcat : concat ((if (0 <? length chunk)%nat then [chunk] else [])
                         ++ (if (0 <? length end_)%nat then [end_] else []))
                 = chunk ++ end_).
  { destruct chunk, end_; cbn; rewrite ?app_nil_r; reflexivity. }
  rewrite Hcat.
  unfold log, click_download. cbn [log_lines downloads].
  rewrite <- !app_assoc. reflexivity.
Qed.

(** X16.  An accepted file whose format needs an encoder library that
    is not loaded fails after the downmix: nothing is downloaded, the
    loop logs the file's name with the library's error message, and
    goes on with the remaining files. *)
Theorem X16_missing_encoder_fails_file
    (dec : list Z -> completion AudioBuffer)
    (ogg : option (Z -> Z -> Z -> Float32Array -> list Z))
    (mp3 : option (Z -> Z -> Z -> list Z -> list Z * list Z))
    (file : File) (rest : list File) (params : Params) (buffer : AudioBuffer)
    (startIdx endIdx : Z) (w : World) :
  dec (file_bytes file) = Normal buffer ->
  adjusted_indices buffer params = (Some startIdx, Some endIdx) ->
  startIdx < endIdx ->
  let report :=
    [LogStart (file_name file);
     LogRequested (startSec params) (endSec params);
     LogAdjusted (num_div (num_of_Z startIdx) (num_of_Z (sampleRate buffer)))
                 (num_div (num_of_Z endIdx) (num_of_Z (sampleRate buffer)));
     LogSamples (Some startIdx) (Some endIdx) (Some (endIdx - startIdx))] in
  (outFormat params = "ogg"%string ->
   process_files dec None mp3 (file :: rest) params w
   = process_files dec None mp3 rest params
       {| log_lines := log_lines w ++ report
                       ++ [LogOggQuality (oggQuality params);
                           LogCaught (file_name file) ogg_missing_message];
          downloads := downloads w |}) /\
  (outFormat params = "mp3"%string ->
   process_files dec ogg None (file :: rest) params w
   = process_files dec ogg None rest params
       {| log_lines := log_lines w ++ report
                       ++ [LogMp3Encoding;
                           LogCaught (file_name file) lamejs_missing_message];
          downloads := downloads w |}).
Proof.
  intros Hdec Hadj Hlt report. split; intros Hfmt; cbn [process_files].
  - destruct (processSingleFile_accepted dec None mp3 file params buffer
                startIdx endIdx w Hdec Hadj Hlt) as (mono & _ & _ & ->).
    cbv zeta. unfold encode, monoFloatToOggBlob. rewrite Hfmt.
    change (String.eqb "ogg" "ogg") with true. cbv iota.
    cbn [mbind completion_bind]. f_equal.
    unfold log, report. cbn [log_lines downloads].
    rewrite <- !app_assoc. reflexivity.
  - destruct (processSingleFile_accepted dec ogg None file params buffer
                startIdx endIdx w Hdec Hadj Hlt) as (mono & _ & _ & ->).
    cbv zeta. unfold encode, monoFloatToMp3Blob. rewrite Hfmt.
    change (String.eqb "mp3" "ogg") with false.
    change (String.eqb "mp3" "wav") with false.
    change (String.eqb "mp3" "mp3") with true. cbv iota.
    cbn [mbind completion_bind]. f_equal.
    unfold log, report. cbn [log_lines downloads].
    rewrite <- !app_assoc. reflexivity.
Qed.

(** X17.  An accepted file with a format other than ogg, wav and mp3 is
    downmixed and then dropped: the call returns normally, the format is
    logged as unsupported, and nothing is downloaded. *)
Theorem X17_unknown_format_fails_file
    (dec : list Z -> completion AudioBuffer)
    (ogg : option (Z -> Z -> Z -> Float32Array -> list Z))
    (mp3 : option (Z -> Z -> Z -> list Z -> list Z * list Z))
    (file : File) (params : Params) (buffer : AudioBuffer)
    (startIdx endIdx : Z) (w : World) :
  dec (file_bytes file) = Normal buffer ->
  adjusted_indices buffer params = (Some startIdx, Some endIdx) ->
  startIdx < endIdx ->
  outFormat params <> "ogg"%string -> outFormat params <> "wav"%string ->
  outFormat params <> "mp3"%string ->
  processSingleFile dec ogg mp3 file params w
  = (Normal tt,
     {| log_lines :=
          log_lines w
          ++ [LogStart (file_name file);
              LogRequested (startSec params) (endSec params);
              LogAdjusted
                (num_div (num_of_Z startIdx) (num_of_Z (sampleRate buffer)))
                (num_div (num_of_Z endIdx) (num_of_Z (sampleRate buffer)));
              LogSamples (Some startIdx) (Some endIdx) (Some (endIdx - startIdx));
              LogUnsupported (outFormat params)];
        downloads := downloads w |}).
Proof.
  intros Hdec Hadj Hlt Hogg Hwav Hmp3.
  destruct (processSingleFile_accepted dec ogg mp3 file params buffer
              startIdx endIdx w Hdec Hadj Hlt) as (mono & _ & _ & ->).
  cbv zeta. unfold encode.
  destruct (String.eqb_spec (outFormat params) "ogg"); [contradiction|].
  destruct (String.eqb_spec (outFormat params) "wav"); [contradiction|].
  destruct (String.eqb_spec (outFormat params) "mp3"); [contradiction|].
  unfold log. cbn [log_lines downloads]. rewrite <- !app_assoc. reflexivity.
Qed.

(** X18.  Processing a batch that is the concatenation of two batches
    is processing the first and then the second. *)
Theorem X18_batches_compose
    (dec : list Z -> completion AudioBuffer)
    (ogg : option (Z -> Z -> Z -> Float32Array -> list Z))
    (mp3 : option (Z -> Z -> Z -> list Z -> list Z * list Z))
    (files1 files2 : list File) (params : Params) (w : World) :
  process_files dec ogg mp3 (files1 ++ files2) params w
  = process_files dec ogg mp3 files2 params (process_files dec ogg mp3 files1 params w).
Proof.
  revert w. induction files1 as [|f fs IH]; intros w; [reflexivity|].
  cbn [app process_files].
  destruct (processSingleFile dec ogg mp3 f params w) as [[[] | e] w']; apply IH.
Qed.

(** X19.  A click leaves nothing of the earlier log and keeps every
    earlier download: the page after a click is the earlier downloads
    followed by what the same click does on an empty page. *)
Theorem X19_click_resets_log_keeps_downloads
    (dec : list Z -> completion AudioBuffer)
    (ogg : option (Z -> Z -> Z -> Float32Array -> list Z))
    (mp3 : option (Z -> Z -> Z -> list Z -> list Z * list Z))
    (inp : Inputs) (w : World) :
  runBtn_click dec ogg mp3 inp w
  = {| log_lines := log_lines (runBtn_click dec ogg mp3 inp empty_world);
       downloads := downloads w
                    ++ downloads (runBtn_click dec ogg mp3 inp empty_world) |}.
Proof.
  unfold runBtn_click. cbv zeta.
  destruct (length (in_files inp) =? 0)%nat.
  { cbn. rewrite app_nil_r. reflexivity. }
  destruct (negb (num_gt (in_endSec inp) (in_startSec inp))).
  { cbn. rewrite app_nil_r. reflexivity. }
  rewrite (process_files_segments dec ogg mp3 (in_files inp) _ (log (log (clear_log w) _) _)).
  rewrite (process_files_segments dec ogg mp3 (in_files inp) _
             (log (log (clear_log empty_world) _) _)).
  cbn [log clear_log log_lines downloads empty_world app]. reflexivity.
Qed.

Lemma X14_ogg_file_witness :
  exists mono,
    extractMonoSamples (example_buffer 8) 0 4 = Normal mono /\
    processSingleFile example_decoder (Some example_ogg_encoder) None
      {| file_name := "a.flac"; file_bytes := [3] |}
      {| startSec := num_of_Z 0; endSec := num_of_Z 1; searchRadius := Some 0;
         outFormat := "ogg"; oggQuality := 7 |}
      empty_world
    = (Normal tt,
       {| log_lines :=
            log_lines empty_world
            ++ [LogStart "a.flac";
                LogRequested (num_of_Z 0) (num_of_Z 1);
                LogAdjusted (num_div (num_of_Z 0) (num_of_Z 4))
                            (num_div (num_of_Z 4) (num_of_Z 4));
                LogSamples (Some 0) (Some 4) (Some (4 - 0));
                LogOggQuality 7;
                LogDone (strip_ext "a.flac" ++ "_loop.ogg")%string];
          downloads :=
            downloads empty_world
            ++ [((strip_ext "a.flac" ++ "_loop.ogg")%string,
                 {| blob_bytes := example_ogg_encoder 4 1 7 mono;
                    blob_type := "audio/ogg" |})] |}).
Proof.
  apply (X14_ogg_file_uses_encoder example_decoder example_ogg_encoder None
           {| file_name := "a.flac"; file_bytes := [3] |}
           {| startSec := num_of_Z 0; endSec := num_of_Z 1; searchRadius := Some 0;
              outFormat := "ogg"; oggQuality := 7 |}
           (example_buffer 8) 0 4 empty_world).
  - reflexivity.
  - reflexivity.
  - lia.
  - reflexivity.
Defined.

Lemma X15_mp3_file_witness :
  exists mono,
    extractMonoSamples (example_buffer 8) 0 4 = Normal mono /\
    let encoded := example_mp3_encoder 1 4 128 (map quantize mono) in
    processSingleFile example_decoder None (Some example_mp3_encoder)
      {| file_name := "a.flac"; file_bytes := [3] |}
      {| startSec := num_of_Z 0; endSec := num_of_Z 1; searchRadius := Some 0;
         outFormat := "mp3"; oggQuality := 3 |}
      empty_world
    = (Normal tt,
       {| log_lines :=
            log_lines empty_world
            ++ [LogStart "a.flac";
                LogRequested (num_of_Z 0) (num_of_Z 1);
                LogAdjusted (num_div (num_of_Z 0) (num_of_Z 4))
                            (num_div (num_of_Z 4) (num_of_Z 4));
                LogSamples (Some 0) (Some 4) (Some (4 - 0));
                LogMp3Encoding;
                LogDone (strip_ext "a.flac" ++ "_loop.mp3")%string];
          downloads :=
            downloads empty_world
            ++ [((strip_ext "a.flac" ++ "_loop.mp3")%string,
                 {| blob_bytes := fst encoded ++ snd encoded;
                    blob_type := "audio/mpeg" |})] |}).
Proof.
  apply (X15_mp3_file_uses_encoder example_decoder None example_mp3_encoder
           {| file_name := "a.flac"; file_bytes := [3] |}
           {| startSec := num_of_Z 0; endSec := num_of_Z 1; searchRadius := Some 0;
              outFormat := "mp3"; oggQuality := 3 |}
           (example_buffer 8) 0 4 empty_world).
  - reflexivity.
  - reflexivity.
  - lia.
  - reflexivity.
Defined.

Lemma X16_missing_encoder_witness :
  process_files example_decoder None None
    [{| file_name := "a.flac"; file_bytes := [3] |};
     {| file_name := "b.flac"; file_bytes := [3] |}]
    {| startSec := num_of_Z 0; endSec := num_of_Z 1; searchRadius := Some 0;
       outFormat := "ogg"; oggQuality := 3 |}
    empty_world
  = process_files example_decoder None None
      [{| file_name := "b.flac"; file_bytes := [3] |}]
      {| startSec := num_of_Z 0; endSec := num_of_Z 1; searchRadius := Some 0;
         outFormat := "ogg"; oggQuality := 3 |}
      {| log_lines :=
           log_lines empty_world
           ++ [LogStart "a.flac";
               LogRequested (num_of_Z 0) (num_of_Z 1);
               LogAdjusted (num_div (num_of_Z 0) (num_of_Z 4))
                           (num_div (num_of_Z 4) (num_of_Z 4));
               LogSamples (Some 0) (Some 4) (Some (4 - 0))]
           ++ [LogOggQuality 3; LogCaught "a.flac" ogg_missing_message];
         downloads := downloads empty_world |}.
Proof.
  destruct (X16_missing_encoder_fails_file example_decoder None None
              {| file_name := "a.flac"; file_bytes := [3] |}
              [{| file_name := "b.flac"; file_bytes := [3] |}]
              {| startSec := num_of_Z 0; endSec := num_of_Z 1; searchRadius := Some 0;
                 outFormat := "ogg"; oggQuality := 3 |}
              (example_buffer 8) 0 4 empty_world) as [Hogg _].
  - reflexivity.
  - reflexivity.
  - lia.
  - apply Hogg. reflexivity.
Defined.

Lemma X17_unknown_format_witness :
  processSingleFile example_decoder None None
    {| file_name := "a.flac"; file_bytes := [3] |}
    {| startSec := num_of_Z 0; endSec := num_of_Z 1; searchRadius := Some 0;
       outFormat := "aac"; oggQuality := 3 |}
    empty_world
  = (Normal tt,
     {| log_lines :=
          log_lines empty_world
          ++ [LogStart "a.flac";
              LogRequested (num_of_Z 0) (num_of_Z 1);
              LogAdjusted (num_div (num_of_Z 0) (num_of_Z 4))
                          (num_div (num_of_Z 4) (num_of_Z 4));
              LogSamples (Some 0) (Some 4) (Some (4 - 0));
              LogUnsupported "aac"];
        downloads := downloads empty_world |}).
Proof.
  apply (X17_unknown_format_fails_file example_decoder None None
           {| file_name := "a.flac"; file_bytes := [3] |}
           {| startSec := num_of_Z 0; endSec := num_of_Z 1; searchRadius := Some 0;
              outFormat := "aac"; oggQuality := 3 |}
           (example_buffer 8) 0 4 empty_world).
  - reflexivity.
  - reflexivity.
  - lia.
  - discriminate.
  - discriminate.
  - discriminate.
Defined.

(* ================================================================= *)
(** ** Reading the container back *)

Lemma read_pcm16_flat_map (pcm16 : list Z) :
  Forall (fun q => -32768 <= q <= 32767) pcm16 ->
  read_pcm16 (flat_map u16le pcm16) = pcm16.
Proof.
  induction 1 as [|q l Hq _ IH]; [reflexivity|].
  cbn [flat_map u16le app read_pcm16]. rewrite IH. f_equal.
  apply (i16_decode_u16le q Hq).
Qed.

Lemma flat_map_u16le_length (pcm16 : list Z) :
  length (flat_map u16le pcm16) = (2 * length pcm16)%nat.
Proof. induction pcm16 as [|q l IH]; cbn [flat_map length u16le app] in *; lia. Qed.

(** X20.  Round trip of the container: for a sample rate below 2^31 and
    a sample count whose sizes fit the 32-bit fields, the bytes written
    pass every check of the reader, which returns the sample rate and
    exactly the quantized samples. *)
Theorem X20_wav_round_trip (samples : Float32Array) (sampleRate : Z) :
  0 <= sampleRate < 2 ^ 31 ->
  36 + 2 * Z.of_nat (length samples) < 2 ^ 32 ->
  exists blob,
    monoFloatToWavBlob samples sampleRate = Normal blob /\
    wav_read (blob_bytes blob) = Some (sampleRate, map quantize samples).
Proof.
  intros Hsr Hk. eexists. split; [apply monoFloatToWavBlob_layout|].
  cbn [blob_bytes]. unfold to_pcm16.
  set (pcm := map quantize samples).
  assert (Hpcm : length pcm = length samples) by (unfold pcm; apply length_map).
  assert (Hlen : Z.of_nat (length (wav_layout sampleRate pcm))
                 = 44 + 2 * Z.of_nat (length samples)).
  { unfold wav_layout. rewrite !length_app, flat_map_u16le_length, Hpcm.
    cbn [charCodes u32le u16le length map list_ascii_of_string]. lia. }
  unfold wav_read. rewrite Hlen. unfold le_field, wav_layout. rewrite Hpcm.
  change (charCodes "RIFF") with [82; 73; 70; 70].
  change (charCodes "WAVE") with [87; 65; 86; 69].
  change (charCodes "fmt ") with [102; 109; 116; 32].
  change (charCodes "data") with [100; 97; 116; 97].
  pose proof le_decode_u32le as H32. unfold u32le in H32.
  pose proof le_decode_u16le as H16. unfold u16le in H16.
  unfold u32le, u16le. cbn [app take drop].
  rewrite !H32, !H16.
  rewrite !(Z.mod_small _ 4294967296) by lia.
  change (1 mod 65536) with 1. change (2 mod 65536) with 2.
  change (16 mod 65536) with 16.
  rewrite !bool_decide_eq_true_2 by reflexivity.
  rewrite !Z.eqb_refl.
  replace (36 + 2 * Z.of_nat (length samples) =? 44 + 2 * Z.of_nat (length samples) - 8)
    with true by (symmetry; apply Z.eqb_eq; lia).
  replace (2 * Z.of_nat (length samples) =? 44 + 2 * Z.of_nat (length samples) - 44)
    with true by (symmetry; apply Z.eqb_eq; lia).
  cbn [andb]. f_equal. f_equal.
  apply read_pcm16_flat_map. unfold pcm. apply List.Forall_forall.
  intros q Hq. apply in_map_iff in Hq as (x & <- & _). apply quantize_range.
Qed.

Lemma X20_wav_round_trip_witness :
  exists blob,
    monoFloatToWavBlob [f32_one; f32_neg_half; f32_zero] 44100 = Normal blob /\
    wav_read (blob_bytes blob)
    = Some (44100, map quantize [f32_one; f32_neg_half; f32_zero]).
Proof.
  apply (X20_wav_round_trip [f32_one; f32_neg_half; f32_zero] 44100).
  - lia.
  - cbn. lia.
Defined.

(* ================================================================= *)
(** ** The name of the download *)

Lemma list_ascii_of_string_app (a b : string) :
  list_ascii_of_string (a ++ b) = list_ascii_of_string a ++ list_ascii_of_string b.
Proof. induction a as [|c a IH]; cbn; [reflexivity | rewrite IH; reflexivity]. Qed.

Lemma strip_ext_rev_no_dot (l acc : list ascii) :
  Forall (fun c => c <> "."%char) l -> strip_ext_rev l acc = None.
Proof.
  intros Hl. revert acc. induction Hl as [|c l Hc _ IH]; intros acc; cbn [strip_ext_rev].
  - reflexivity.
  - destruct (Ascii.eqb_spec c "."); [contradiction|].
    destruct (Ascii.eqb c "/"); [reflexivity | apply IH].
Qed.

Lemma strip_ext_rev_ext (l rest : list ascii) :
  Forall (fun c => c <> "."%char /\ c <> "/"%char) l ->
  forall acc, l ++ acc <> [] ->
  strip_ext_rev (l ++ "."%char :: rest) acc = Some (rev rest).
Proof.
  induction 1 as [|c l [Hdot Hslash] _ IH]; intros acc Hne; cbn [app strip_ext_rev].
  - rewrite Ascii.eqb_refl. destruct acc; [contradiction | reflexivity].
  - destruct (Ascii.eqb_spec c "."); [contradiction|].
    destruct (Ascii.eqb_spec c "/"); [contradiction|].
    apply IH. destruct l; discriminate.
Qed.

(** X21.  The base name of the download: a last extension (a dot
    followed by at least one character, none of them a dot or a slash)
    is dropped; a name without any dot, and a name that ends in a dot,
    are kept whole. *)
Theorem X21_strip_last_extension (base ext name : string) :
  (ext <> EmptyString ->
   (forall c, In c (list_ascii_of_string ext) -> c <> "."%char /\ c <> "/"%char) ->
   strip_ext (base ++ String "." ext) = base) /\
  ((forall c, In c (list_ascii_of_string name) -> c <> "."%char) ->
   strip_ext name = name) /\
  strip_ext (base ++ ".") = (base ++ ".")%string.
Proof.
  split; [|split].
  - intros Hne Hext. unfold strip_ext.
    rewrite list_ascii_of_string_app. cbn [list_ascii_of_string].
    rewrite rev_app_distr. cbn [rev]. rewrite <- app_assoc. cbn [app].
    rewrite strip_ext_rev_ext.
    + rewrite rev_involutive. apply string_of_list_ascii_of_string.
    + apply List.Forall_forall. intros c Hc. apply Hext. apply in_rev. exact Hc.
    + destruct ext as [|c ext]; [contradiction|].
      cbn [list_ascii_of_string rev]. rewrite app_nil_r.
      destruct (rev (list_ascii_of_string ext)); discriminate.
  - intros Hname. unfold strip_ext.
    rewrite strip_ext_rev_no_dot; [reflexivity|].
    apply List.Forall_forall. intros c Hc. apply Hname. apply in_rev. exact Hc.
  - unfold strip_ext. rewrite list_ascii_of_string_app. cbn [list_ascii_of_string].
    rewrite rev_app_distr. cbn [rev app strip_ext_rev]. reflexivity.
Qed.

Lemma X21_strip_last_extension_witness :
  strip_ext ("my.song" ++ String "." "flac") = "my.song"%string /\
  strip_ext "README" = "README"%string.
Proof.
  destruct (X21_strip_last_extension "my.song" "flac" "README") as (Hext & Hnone & _).
  split.
  - apply Hext; [discriminate|].
    intros c Hc. cbn in Hc.
    destruct Hc as [<- | [<- | [<- | [<- | []]]]]; split; discriminate.
  - apply Hnone. intros c Hc. cbn in Hc.
    destruct Hc as [<- | [<- | [<- | [<- | [<- | [<- | []]]]]]]; discriminate.
Defined.

(* ================================================================= *)
(** ** More on the quantization and on short recordings *)

(** X22.  Quantization keeps the sign of a binary32 sample: a negative
    sample is stored as a value of [[-32768, 0]], any other sample (NaN
    included) as a value of [[0, 32767]]. *)
Theorem X22_quantize_keeps_sign (x : float32) :
  is_float32 x = true ->
  (num_lt (widen x) num_zero = true -> -32768 <= quantize x <= 0) /\
  (num_lt (widen x) num_zero = false -> 0 <= quantize x <= 32767).
Proof.
  intros Hb. rewrite (quantize_is_exact x Hb).
  destruct x as [s | s | | s m e].
  - split; intros H; [destruct s; discriminate H | cbn [quantize_exact]; lia].
  - destruct s; split; intros H; try discriminate H; cbn [quantize_exact]; lia.
  - split; intros H; [discriminate H | cbn [quantize_exact]; lia].
  - cbn [is_float32 valid_binary] in Hb.
    destruct (widen_bounded s m e Hb) as (Hw & _). rewrite Hw.
    assert (Hsign : num_lt (S754_finite s (pshift m (53 - Zpos (digits2_pos m)))
                              (e + Zpos (digits2_pos m) - 53)) num_zero = s)
      by (destruct s; reflexivity).
    rewrite Hsign. cbn [quantize_exact].
    destruct (exceeds_one m e) eqn:Hx.
    + destruct s; split; intros H; try discriminate H; lia.
    + destruct (within_one_bounds m e Hb Hx) as [He Hm].
      pose proof (scaled_trunc_range m e 32768 ltac:(lia) He Hm) as Hr1.
      pose proof (scaled_trunc_range m e 32767 ltac:(lia) He Hm) as Hr2.
      destruct s; split; intros H; try discriminate H; lia.
Qed.

Lemma X22_quantize_sign_witness :
  -32768 <= quantize f32_neg_half <= 0 /\ 0 <= quantize f32_half <= 32767.
Proof.
  destruct (X22_quantize_keeps_sign f32_neg_half) as [Hneg _]; [reflexivity|].
  destruct (X22_quantize_keeps_sign f32_half) as [_ Hpos]; [reflexivity|].
  split; [apply Hneg | apply Hpos]; reflexivity.
Defined.

(** X23.  A recording of at most one frame is always rejected: with
    validated times and a sample rate that is a positive integer below
    2^53, both adjusted indices are 0 and the file ends with the range
    error, whatever the times, the radius and the format. *)
Theorem X23_short_recording_is_rejected
    (dec : list Z -> completion AudioBuffer)
    (ogg : option (Z -> Z -> Z -> Float32Array -> list Z))
    (mp3 : option (Z -> Z -> Z -> list Z -> list Z * list Z))
    (file : File) (params : Params) (buffer : AudioBuffer) (w : World) :
  num_gt (endSec params) (startSec params) = true ->
  dec (file_bytes file) = Normal buffer ->
  0 < sampleRate buffer < 2 ^ 53 ->
  buffer_length buffer <= 1 ->
  adjusted_indices buffer params = (Some 0, Some 0) /\
  processSingleFile dec ogg mp3 file params w
  = (Normal tt,
     {| log_lines := log_lines w ++ [LogStart (file_name file);
                                     LogRangeError (file_name file)];
        downloads := downloads w |}).
Proof.
  intros Hgt Hdec Hsr Hlen.
  destruct (adjusted_indices_defined buffer params Hgt Hsr) as (si & ei & Hadj & Hsi & Hei).
  assert (si = 0) as -> by lia. assert (ei = 0) as -> by lia.
  split; [exact Hadj|].
  unfold processSingleFile. rewrite Hdec, Hadj. cbn [int_leb Z.leb Z.compare].
  unfold log. cbn [log_lines downloads]. rewrite <- app_assoc. reflexivity.
Qed.

Lemma X23_short_recording_witness :
  adjusted_indices (example_buffer 1) (example_params 0 1) = (Some 0, Some 0) /\
  processSingleFile (fun _ => Normal (example_buffer 1)) None None
    {| file_name := "click.wav"; file_bytes := [] |} (example_params 0 1) empty_world
  = (Normal tt,
     {| log_lines := log_lines empty_world ++ [LogStart "click.wav";
                                               LogRangeError "click.wav"];
        downloads := downloads empty_world |}).
Proof.
  apply (X23_short_recording_is_rejected (fun _ => Normal (example_buffer 1)) None None
           {| file_name := "click.wav"; file_bytes := [] |} (example_params 0 1)
           (example_buffer 1) empty_world).
  - reflexivity.
  - reflexivity.
  - cbn. lia.
  - change (1 <= 1). lia.
Defined.
